(** * Image acquisition pipeline: downloader, URL cache and orchestrator filter

    A shallow embedding of the parts of the repository that do the real
    work, and the properties of them that the specification states:

    - [image-downloader/src/models.py] and [image-downloader/src/downloader.py]
      (the batch executor [ImageDownloader.download_batch], the per-image
      worker [_download_single_image], the extension rule
      [_get_file_extension]);
    - [data-scraper-service/src/image_cache.py] (the TTL cache [ImageCache]);
    - [orchestrator/src/workflow.py] ([Workflow._check_existing_images]).

    Python strings are [string]s, Python exceptions are values of [exn]
    carried by the [result] type, dictionaries are [gmap]s, the clock is
    an explicit argument and an object's mutable state is passed in and
    out. *)

From Stdlib Require Import ZArith String Ascii List Bool Permutation.
From stdpp Require Import gmap strings list fin_maps.

Local Open Scope string_scope.

(** ** Python strings *)

Module Py.

(** [c in s] for a one-character [c]. *)
Fixpoint contains (c : ascii) (s : string) : bool :=
  match s with
  | EmptyString => false
  | String d s' => if Ascii.eqb d c then true else contains c s'
  end.

(** [s.split(sep)] for a one-character separator: never the empty list. *)
Fixpoint split (sep : ascii) (s : string) : list string :=
  match s with
  | EmptyString => [EmptyString]
  | String c s' =>
      if Ascii.eqb c sep then EmptyString :: split sep s'
      else match split sep s' with
           | p :: ps => String c p :: ps
           | [] => [String c EmptyString]
           end
  end.

(** [parts[-1]] on a list that [split] returned. *)
Definition last_item (parts : list string) : string :=
  List.last parts EmptyString.

(** [str.lower] on the ASCII range; code points above 127 are left as
    they are. *)
Definition lower_char (c : ascii) : ascii :=
  let n := nat_of_ascii c in
  if (65 <=? n)%nat && (n <=? 90)%nat then ascii_of_nat (n + 32) else c.

Fixpoint lower (s : string) : string :=
  match s with
  | EmptyString => EmptyString
  | String c s' => String (lower_char c) (lower s')
  end.

(** [s.replace(a, b)] for one-character [a] and [b]. *)
Fixpoint replace (a b : ascii) (s : string) : string :=
  match s with
  | EmptyString => EmptyString
  | String c s' => String (if Ascii.eqb c a then b else c) (replace a b s')
  end.

(** [s.startswith(p)]. *)
Definition startswith (s p : string) : bool := String.prefix p s.

(** [s.endswith(c)] for a one-character [c]. *)
Fixpoint endswith (s : string) (c : ascii) : bool :=
  match s with
  | EmptyString => false
  | String d EmptyString => Ascii.eqb d c
  | String _ s' => endswith s' c
  end.

(** [s.rfind(c)]: the index of the last [c], or [-1]. *)
Fixpoint rfind_from (i : Z) (c : ascii) (s : string) : Z :=
  match s with
  | EmptyString => (-1)%Z
  | String d s' =>
      let r := rfind_from (i + 1) c s' in
      if (0 <=? r)%Z then r else if Ascii.eqb d c then i else (-1)%Z
  end.

Definition rfind (c : ascii) (s : string) : Z := rfind_from 0 c s.

(** [s.find(c)]: the index of the first [c], or [-1]. *)
Fixpoint find_from (i : Z) (c : ascii) (s : string) : Z :=
  match s with
  | EmptyString => (-1)%Z
  | String d s' => if Ascii.eqb d c then i else find_from (i + 1) c s'
  end.

Definition find (c : ascii) (s : string) : Z := find_from 0 c s.

(** The slices [s[:i]] and [s[i:]] for [0 <= i]. *)
Definition take (i : Z) (s : string) : string :=
  String.substring 0 (Z.to_nat i) s.

Definition drop (i : Z) (s : string) : string :=
  String.substring (Z.to_nat i) (String.length s - Z.to_nat i) s.

(** [s.rstrip(c)] for a one-character [c]. *)
Fixpoint rstrip (c : ascii) (s : string) : string :=
  match s with
  | EmptyString => EmptyString
  | String d s' =>
      match rstrip c s' with
      | EmptyString => if Ascii.eqb d c then EmptyString else String d EmptyString
      | r => String d r
      end
  end.

(** [all(ch == c for ch in s)]. *)
Fixpoint all_char (c : ascii) (s : string) : bool :=
  match s with
  | EmptyString => true
  | String d s' => Ascii.eqb d c && all_char c s'
  end.

End Py.

(** ** [os.path] (POSIX flavour) *)

Module OsPath.

(** [os.path.join(a, b)]. *)
Definition join (a b : string) : string :=
  if Py.startswith b "/" then b
  else if String.eqb a "" || Py.endswith a "/" then a +:+ b
  else a +:+ "/" +:+ b.

(** [os.path.dirname(p)]. *)
Definition dirname (p : string) : string :=
  let i := (Py.rfind "/" p + 1)%Z in
  let head := Py.take i p in
  if negb (String.eqb head "") && negb (Py.all_char "/" head)
  then Py.rstrip "/" head else head.

(** [os.path.splitext(p)]: the extension starts at the last dot of the
    last path component, unless only dots precede it there. *)
Definition splitext (p : string) : string * string :=
  let sepIndex := Py.rfind "/" p in
  let dotIndex := Py.rfind "." p in
  if (sepIndex <? dotIndex)%Z
     && negb (Py.all_char "."
                (Py.take (dotIndex - (sepIndex + 1)) (Py.drop (sepIndex + 1) p)))
  then (Py.take dotIndex p, Py.drop dotIndex p)
  else (p, EmptyString).

End OsPath.

(** ** Exceptions

    Python exceptions as values.  The classes are the ones the handlers of
    the downloader tell apart: [requests.exceptions.Timeout] is a subclass
    of [requests.exceptions.RequestException], [ValueError] is separate,
    and [OtherError] stands for every other subclass of [Exception].  The
    string is [str(e)]. *)

Inductive exn : Type :=
  | Timeout (msg : string)
  | RequestException (msg : string)
  | ValueError (msg : string)
  | OtherError (msg : string).

Definition str_of_exn (e : exn) : string :=
  match e with
  | Timeout m | RequestException m | ValueError m | OtherError m => m
  end.

(** A computation either returns a value or raises. *)
Inductive result (A : Type) : Type :=
  | Ok (a : A)
  | Raise (e : exn).
Arguments Ok {A} a.
Arguments Raise {A} e.

#[export] Instance result_ret : MRet result := fun A a => Ok a.

#[export] Instance result_bind : MBind result := fun A B k m =>
  match m with
  | Ok a => k a
  | Raise e => Raise e
  end.

(** [try: body  except Exception as e: handler(e)]. *)
Definition try_except {A : Type} (body : result A) (handler : exn -> result A)
  : result A :=
  match body with
  | Ok a => Ok a
  | Raise e => handler e
  end.

(** ** [urllib.parse.urlparse(url).path]

    The standard library's splitting of a URL, as far as the path is
    concerned: tab, carriage return and line feed are removed, a leading
    [scheme:] is cut off, then the authority after [//] up to the first of
    [/], [?] and [#], then the fragment after the first [#], the query
    after the first [?] and, for the schemes that have them, the
    parameters after the first [;] of the last path segment.  Left out
    are the stripping of leading control characters and spaces, which a
    validated [image_url] (it starts with [http://] or [https://]) has
    none of, and the check of bracketed (IPv6) hosts: the downloader only
    parses the URL of a response it already received. *)

Module Url.

Definition is_alpha (c : ascii) : bool :=
  let n := nat_of_ascii c in
  ((65 <=? n)%nat && (n <=? 90)%nat) || ((97 <=? n)%nat && (n <=? 122)%nat).

Definition is_scheme_char (c : ascii) : bool :=
  let n := nat_of_ascii c in
  is_alpha c || ((48 <=? n)%nat && (n <=? 57)%nat)
  || Ascii.eqb c "+" || Ascii.eqb c "-" || Ascii.eqb c ".".

Fixpoint all_chars (p : ascii -> bool) (s : string) : bool :=
  match s with
  | EmptyString => true
  | String c s' => p c && all_chars p s'
  end.

Fixpoint remove_unsafe (s : string) : string :=
  match s with
  | EmptyString => EmptyString
  | String c s' =>
      let n := nat_of_ascii c in
      if (n =? 9)%nat || (n =? 10)%nat || (n =? 13)%nat
      then remove_unsafe s' else String c (remove_unsafe s')
  end.

(** [s.split(c, 1)[0]]. *)
Fixpoint before_first (c : ascii) (s : string) : string :=
  match s with
  | EmptyString => EmptyString
  | String d s' => if Ascii.eqb d c then EmptyString else String d (before_first c s')
  end.

(** The scheme (lower-cased, empty if there is none) and the rest. *)
Definition split_scheme (url : string) : string * string :=
  let i := Py.find ":" url in
  match url with
  | String c0 _ =>
      if (0 <? i)%Z && is_alpha c0 && all_chars is_scheme_char (Py.take i url)
      then (Py.lower (Py.take i url), Py.drop (i + 1) url)
      else (EmptyString, url)
  | EmptyString => (EmptyString, url)
  end.

(** What is left once the authority is skipped. *)
Fixpoint skip_netloc (s : string) : string :=
  match s with
  | EmptyString => EmptyString
  | String c s' =>
      if Ascii.eqb c "/" || Ascii.eqb c "?" || Ascii.eqb c "#" then s
      else skip_netloc s'
  end.

Definition uses_params : list string :=
  [""; "ftp"; "hdl"; "prospero"; "http"; "imap"; "https"; "shttp"; "rtsp";
   "rtsps"; "rtspu"; "sip"; "sips"; "mms"; "sftp"; "tel"].

(** [_splitparams(url)[0]]. *)
Definition drop_params (url : string) : string :=
  if Py.contains "/" url then
    let r := Py.rfind "/" url in
    let j := Py.find ";" (Py.drop r url) in
    if (j <? 0)%Z then url else Py.take (r + j) url
  else Py.take (Py.find ";" url) url.

Definition path (url : string) : string :=
  let '(scheme, rest) := split_scheme (remove_unsafe url) in
  let rest := if Py.startswith rest "//" then skip_netloc (Py.drop 2 rest) else rest in
  let rest := before_first "?" (before_first "#" rest) in
  if existsb (String.eqb scheme) uses_params && Py.contains ";" rest
  then drop_params rest else rest.

End Url.

(** ** [image-downloader/src/models.py] *)

Record DownloadRequest : Type := {
  image_url : string;
  name : string;
  source : string;
  category : string;
}.

(** The computed field [source_type]. *)
Definition source_type (r : DownloadRequest) : string :=
  source r +:+ "_" +:+ category r.

(** The computed field [target_path]: always named [.jpg] at first. *)
Definition target_path (r : DownloadRequest) : string :=
  let download_dir := "/tmp/" +:+ source_type r in
  let safe_name := Py.replace " " "_" (Py.lower (name r)) in
  let filename := safe_name +:+ ".jpg" in
  OsPath.join download_dir filename.

(** ** [ImageDownloader._get_file_extension] *)

Definition _get_file_extension (url content_type : string) : result string :=
  let path := Py.lower (Url.path url) in
  if Py.contains "." path then
    Ok ("." +:+ Py.last_item (Py.split "." path))
  else if Py.contains "/" content_type then
    let subtype := Py.lower (Py.last_item (Py.split "/" content_type)) in
    Ok ("." +:+ subtype)
  else
    Raise (ValueError ("Cannot determine file extension for URL: " +:+ url
                       +:+ ", Content-Type: " +:+ content_type)).

(** The path the worker writes to, given the extension. *)
Definition final_target_path (r : DownloadRequest) (file_extension : string) : string :=
  let base_path := fst (OsPath.splitext (target_path r)) in
  base_path +:+ file_extension.

Record DownloadResult : Type := {
  r_image_url : string;
  r_target_path : string;
  is_successful : bool;
  error_message : option string;
  file_size : option Z;
  download_time : option Z;
}.

Record BatchDownloadRequest : Type := {
  downloads : list DownloadRequest;
  max_concurrent : Z;
  timeout_seconds : Z;
}.

Record BatchDownloadResult : Type := {
  results : list DownloadResult;
  total_count : nat;
  success_count : nat;
  failure_count : nat;
  total_time : Z;
  timestamp : string;
}.

(** ** The session and its retry policy ([ImageDownloader.__init__])

    [__init__] mounts an [HTTPAdapter] whose [Retry] has [total=3] (its
    comment: 3 retries), [backoff_factor=1] (its comment: exponential
    backoff 1s, 2s, 4s) and the status list below.  The loop that applies
    the policy is the HTTP library's; [send] is that loop for one GET:
    an attempt that ends in a connection error, a timeout or a listed
    status is repeated while retries are left, after a sleep; so is,
    while retries are left, a 413 that carries a [Retry-After] header;
    anything else is handed back at once.  The sleep is the backoff, or
    the time a [Retry-After] header asks for when it asks for some.
    Redirects are not modelled, a [Retry-After] header counts in whole
    seconds, and the messages of the library's exceptions are stand-ins
    for its wording. *)

Record Response : Type := {
  status_code : nat;
  content_type : option string;   (* the [content-type] header, if any *)
}.

(** What one attempt on the wire ends in: no connection, no connection
    within the timeout, a response without a [Retry-After] header, no
    answer within the timeout on an open connection, or a response with
    a [Retry-After] header of so many seconds. *)
Inductive wire : Type :=
  | ConnectionFailed
  | TimedOut
  | Replied (r : Response)
  | ReadTimedOut
  | RepliedRetryAfter (r : Response) (seconds : nat).

Module Retry.

Definition total : nat := 3.
Definition backoff_factor : nat := 1.
Definition status_forcelist : list nat := [403; 429; 500; 502; 503; 504].

(** The sleep before a retry, in seconds, after [n] failures in a row.
    [Documented] is the schedule of the comment in [__init__]
    ([backoff_factor * 2 ^ (n - 1)]: 1, 2, 4); releases of the library
    that do not sleep before the first retry follow [FirstImmediate]
    (0, 2, 4). *)
Inductive schedule : Type := Documented | FirstImmediate.

Definition get_backoff_time (sch : schedule) (n : nat) : nat :=
  match sch, n with
  | FirstImmediate, (0 | 1) => 0
  | _, _ => backoff_factor * 2 ^ (n - 1)
  end.

Definition is_forced (status : nat) : bool :=
  existsb (Nat.eqb status) status_forcelist.

(** The failures the adapter retries until the retries are used up. *)
Definition transient (w : wire) : bool :=
  match w with
  | ConnectionFailed | TimedOut | ReadTimedOut => true
  | Replied r | RepliedRetryAfter r _ => is_forced (status_code r)
  end.

(** The statuses on which the library honours a [Retry-After] header. *)
Definition RETRY_AFTER_STATUS_CODES : list nat := [413; 429; 503].

(** The [Retry-After] header of an answer, in seconds. *)
Definition retry_after (w : wire) : option nat :=
  match w with
  | RepliedRetryAfter _ seconds => Some seconds
  | _ => None
  end.

(** [Retry.is_retry]: a listed status, or, while [total] is not used up,
    a status of [RETRY_AFTER_STATUS_CODES] that came with the header. *)
Definition is_retry (retries_left status : nat) (has_retry_after : bool) : bool :=
  is_forced status
  || (negb (retries_left =? 0)%nat && has_retry_after
      && existsb (Nat.eqb status) RETRY_AFTER_STATUS_CODES).

(** Whether the attempt is repeated (or, with no retry left, given up). *)
Definition retried (retries_left : nat) (w : wire) : bool :=
  match w with
  | ConnectionFailed | TimedOut | ReadTimedOut => true
  | Replied r => is_retry retries_left (status_code r) false
  | RepliedRetryAfter r _ => is_retry retries_left (status_code r) true
  end.

(** [Retry.sleep] after [n] failures in a row, the last being [w]: the
    time a [Retry-After] header asks for if it asks for some, else the
    backoff. *)
Definition sleep (sch : schedule) (n : nat) (w : wire) : nat :=
  match retry_after w with
  | Some (S seconds) => S seconds
  | _ => get_backoff_time sch n
  end.

Record sent : Type := {
  outcome : result Response;
  attempts : nat;          (* requests put on the wire *)
  sleeps : list nat;       (* the sleeps between them, in seconds *)
}.

(** What the caller gets once the retries are used up. *)
Definition exhausted (w : wire) : result Response :=
  match w with
  | ConnectionFailed => Raise (RequestException "Max retries exceeded")
  | TimedOut => Raise (Timeout "Max retries exceeded (connect timeout)")
  | ReadTimedOut => Raise (RequestException "Max retries exceeded (read timeout)")
  | Replied _ | RepliedRetryAfter _ _ =>
      Raise (RequestException "Max retries exceeded (too many error responses)")
  end.

(** [k] attempts have failed so far; [retries_left] may still be made. *)
Fixpoint send (sch : schedule) (transport : nat -> wire)
         (retries_left k : nat) : sent :=
  let w := transport k in
  if retried retries_left w then
    match retries_left with
    | O => {| outcome := exhausted w; attempts := 1; sleeps := [] |}
    | S fewer =>
        let rest := send sch transport fewer (S k) in
        {| outcome := outcome rest;
           attempts := S (attempts rest);
           sleeps := sleep sch (S k) w :: sleeps rest |}
    end
  else
    match w with
    | Replied r | RepliedRetryAfter r _ =>
        {| outcome := Ok r; attempts := 1; sleeps := [] |}
    | _ => {| outcome := exhausted w; attempts := 1; sleeps := [] |}
    end.

(** [self.session.get(url, timeout=..., stream=True)]. *)
Definition session_get (sch : schedule) (transport : nat -> wire) : sent :=
  send sch transport total 0.

End Retry.

(** [response.raise_for_status()]. *)
Definition raise_for_status (r : Response) : result unit :=
  if (400 <=? status_code r)%nat && (status_code r <? 600)%nat
  then Raise (RequestException "HTTP error status")
  else Ok tt.

(** ** [ImageDownloader._download_single_image]

    What the worker meets outside the program: whether [os.makedirs]
    succeeds on a directory, what each attempt of the GET ends in, what
    writing the body to a path and reading its size back gives, and the
    time that has passed when the worker returns.  The timeout bounds
    each attempt and shows only in what [transport] answers.  The four
    [except] clauses are tried in the order of the source; the last one
    ends in the function's closing [return]. *)

Record World : Type := {
  makedirs : string -> bool;
  transport : nat -> wire;
  write_file : string -> result Z;
  elapsed : Z;
}.

(** The requests and sleeps of one worker. *)
Record WorkerLog : Type := {
  requests_sent : nat;
  slept : list nat;
}.

Definition _ensure_directory (w : World) (directory : string) : bool :=
  makedirs w directory.

Definition failed_download (w : World) (r : DownloadRequest) (error_msg : string)
  : DownloadResult :=
  {| r_image_url := image_url r;
     r_target_path := target_path r;
     is_successful := false;
     error_message := Some error_msg;
     file_size := Some 0%Z;
     download_time := Some (elapsed w) |}.

Definition _download_single_image (sch : Retry.schedule) (w : World)
           (download_request : DownloadRequest) (timeout : Z)
  : result DownloadResult * WorkerLog :=
  let target_dir := OsPath.dirname (target_path download_request) in
  if negb (_ensure_directory w target_dir) then
    (Ok (failed_download w download_request "Failed to create target directory"),
     {| requests_sent := 0; slept := [] |})
  else
    let got := Retry.session_get sch (transport w) in
    (try_except
       (response ← Retry.outcome got;
        _ ← raise_for_status response;
        file_extension ← _get_file_extension (image_url download_request)
                           (default EmptyString (content_type response));
        let final := final_target_path download_request file_extension in
        size ← write_file w final;
        Ok {| r_image_url := image_url download_request;
              r_target_path := final;
              is_successful := true;
              error_message := None;
              file_size := Some size;
              download_time := Some (elapsed w) |})
       (fun e =>
          Ok (failed_download w download_request
                match e with
                | Timeout _ =>
                    "Timeout downloading " +:+ name download_request
                    +:+ " from " +:+ image_url download_request
                | RequestException m =>
                    "Request failed for " +:+ name download_request +:+ ": " +:+ m
                | ValueError m =>
                    "Invalid file format for " +:+ name download_request +:+ ": " +:+ m
                | OtherError m =>
                    "Unexpected error downloading " +:+ name download_request
                    +:+ ": " +:+ m
                end)),
     {| requests_sent := Retry.attempts got; slept := Retry.sleeps got |}).

(** ** [ImageDownloader.download_batch]

    The thread pool is the standard library's.  Of it the model keeps what
    the batch code can observe: creating a pool with a size below one
    raises [ValueError]; [submit] gives a fresh future per call; a
    future's [result()] returns what the worker returned or raises what
    it raised; [as_completed] yields every future once, in an order the
    scheduler chooses. *)

Record ImageDownloader : Type := {
  max_workers : Z;
  retry_schedule : Retry.schedule;
}.

Record Future : Type := {
  fid : nat;                              (* the identity of the future *)
  fresult : result DownloadResult;        (* what [result()] gives *)
}.

(** What the batch meets outside the program.  [worker i] is what the
    [i]-th submitted call of [_download_single_image] ends in, [picks]
    encodes the completion order (see [as_completed]), the clock is read
    at the start and at the end, and [strftime_now] is the formatted
    time of the return. *)
Record BatchWorld : Type := {
  worker : nat -> DownloadRequest -> Z -> result DownloadResult;
  picks : list nat;
  clock_start : Z;
  clock_end : Z;
  strftime_now : string;
}.

(** Workers that run [_download_single_image], each in a world of its own. *)
Definition workers_of (sch : Retry.schedule) (worlds : nat -> World)
  : nat -> DownloadRequest -> Z -> result DownloadResult :=
  fun i request timeout => fst (_download_single_image sch (worlds i) request timeout).

(** [ThreadPoolExecutor(max_workers=n)]: the size of the pool created. *)
Definition ThreadPoolExecutor (n : Z) : result Z :=
  if (n <=? 0)%Z then Raise (ValueError "max_workers must be greater than 0")
  else Ok n.

(** The dictionary comprehension [{executor.submit(...): request for
    request in downloads}], in insertion order; [i] is the next fresh
    future. *)
Fixpoint submit_all (wk : nat -> DownloadRequest -> Z -> result DownloadResult)
         (timeout : Z) (i : nat) (requests : list DownloadRequest)
  : list (Future * DownloadRequest) :=
  match requests with
  | [] => []
  | request :: rest =>
      ({| fid := i; fresult := wk i request timeout |}, request)
        :: submit_all wk timeout (S i) rest
  end.

(** [future_to_request[future]]. *)
Fixpoint getitem (future_to_request : list (Future * DownloadRequest))
         (future : Future) : result DownloadRequest :=
  match future_to_request with
  | [] => Raise (OtherError "KeyError")
  | (f, request) :: rest =>
      if (fid f =? fid future)%nat then Ok request else getitem rest future
  end.

(** [pending] without its [i]-th element. *)
Fixpoint remove_nth {A : Type} (i : nat) (pending : list A) : list A :=
  match pending, i with
  | [], _ => []
  | _ :: rest, O => rest
  | x :: rest, S j => x :: remove_nth j rest
  end.

(** [as_completed(fs)]: each pick names, among the futures still pending,
    the one that completes next; when the picks run out the rest complete
    in submission order.  Every order of completion is the image of some
    list of picks. *)
Fixpoint as_completed {A : Type} (picks : list nat) (pending : list A) : list A :=
  match picks, pending with
  | _, [] => []
  | [], _ => pending
  | k :: picks', x :: _ =>
      let i := k mod length pending in
      nth i pending x :: as_completed picks' (remove_nth i pending)
  end.

(** The three locals the collecting loop updates. *)
Record Collected : Type := {
  c_results : list DownloadResult;
  c_success : nat;
  c_failure : nat;
}.

(** The result the [except] branch of the loop builds for a request whose
    future raised [e]. *)
Definition thread_failed (request : DownloadRequest) (e : exn) : DownloadResult :=
  let error_msg := "Thread execution failed for " +:+ name request
                   +:+ ": " +:+ str_of_exn e in
  {| r_image_url := image_url request;
     r_target_path := target_path request;
     is_successful := false;
     error_message := Some error_msg;
     file_size := Some 0%Z;
     download_time := Some 0%Z |}.

(** One turn of [for future in as_completed(future_to_request)]. *)
Definition collect_one (future_to_request : list (Future * DownloadRequest))
           (acc : Collected) (future : Future) : result Collected :=
  try_except
    (result ← fresult future;
     Ok (if is_successful result
         then {| c_results := c_results acc ++ [result];
                 c_success := S (c_success acc);
                 c_failure := c_failure acc |}
         else {| c_results := c_results acc ++ [result];
                 c_success := c_success acc;
                 c_failure := S (c_failure acc) |}))
    (fun e =>
       request ← getitem future_to_request future;
       Ok {| c_results := c_results acc ++ [thread_failed request e];
             c_success := c_success acc;
             c_failure := S (c_failure acc) |}).

Fixpoint collect (future_to_request : list (Future * DownloadRequest))
         (acc : Collected) (completed : list Future) : result Collected :=
  match completed with
  | [] => Ok acc
  | future :: rest =>
      acc' ← collect_one future_to_request acc future;
      collect future_to_request acc' rest
  end.

(** A call of [download_batch]: what it returns or raises, the size of
    the pool it created (if it got that far) and the calls it submitted. *)
Record BatchRun : Type := {
  returned : result BatchDownloadResult;
  pool : option Z;
  submitted : list DownloadRequest;
}.

Definition download_batch (self : ImageDownloader) (w : BatchWorld)
           (batch_request : BatchDownloadRequest) : BatchRun :=
  let total := length (downloads batch_request) in
  if (total =? 0)%nat then
    {| returned := Ok {| results := []; total_count := 0; success_count := 0;
                         failure_count := 0; total_time := 0%Z;
                         timestamp := strftime_now w |};
       pool := None;
       submitted := [] |}
  else
    match ThreadPoolExecutor (max_workers self) with
    | Raise e => {| returned := Raise e; pool := None; submitted := [] |}
    | Ok executor =>
        let future_to_request :=
          submit_all (worker w) (timeout_seconds batch_request) 0
                     (downloads batch_request) in
        {| returned :=
             acc ← collect future_to_request
                     {| c_results := []; c_success := 0; c_failure := 0 |}
                     (as_completed (picks w) (map fst future_to_request));
             Ok {| results := c_results acc;
                   total_count := total;
                   success_count := c_success acc;
                   failure_count := c_failure acc;
                   total_time := (clock_end w - clock_start w)%Z;
                   timestamp := strftime_now w |};
           pool := Some executor;
           submitted := map snd future_to_request |}
    end.

(** The one result a task contributes: what its worker returned, or the
    failure the loop makes of what it raised. *)
Definition settle (request : DownloadRequest) (o : result DownloadResult)
  : DownloadResult :=
  match o with
  | Ok r => r
  | Raise e => thread_failed request e
  end.

(** The results of the tasks in submission order; [i] numbers the first. *)
Fixpoint task_results (wk : nat -> DownloadRequest -> Z -> result DownloadResult)
         (timeout : Z) (i : nat) (requests : list DownloadRequest)
  : list DownloadResult :=
  match requests with
  | [] => []
  | request :: rest =>
      settle request (wk i request timeout) :: task_results wk timeout (S i) rest
  end.

(** ** [data-scraper-service/src/image_cache.py]

    Times are readings of the UTC clock in microseconds, the resolution of
    [datetime]; [cached_at] is kept as the reading itself, since the cache
    only ever reads back the ISO text that [set_image_url] wrote.  Every
    method runs under the cache's lock, so it is one step from a state of
    the cache to the next; the clock reading of the call is the argument
    [now]. *)

Record CacheEntry : Type := {
  url : string;
  cached_at : Z;
  metadata : gmap string string;
}.

Record ImageCache : Type := {
  ttl_seconds : Z;
  _cache : gmap string CacheEntry;
}.

(** [ImageCache(ttl_hours)]. *)
Definition new_ImageCache (ttl_hours : Z) : ImageCache :=
  {| ttl_seconds := ttl_hours * 3600; _cache := ∅ |}.

Definition _get_cache_key (category item_name : string) : string :=
  category +:+ ":" +:+ Py.lower item_name.

(** [age_seconds > self.ttl_seconds], on microseconds. *)
Definition _is_expired (self : ImageCache) (now : Z) (cached_at : Z) : bool :=
  (ttl_seconds self * 1000000 <? now - cached_at)%Z.

Definition get_image_url (self : ImageCache) (now : Z) (category item_name : string)
  : option string * ImageCache :=
  let cache_key := _get_cache_key category item_name in
  match _cache self !! cache_key with
  | Some cached_data =>
      if _is_expired self now (cached_at cached_data) then
        (None, {| ttl_seconds := ttl_seconds self;
                  _cache := delete cache_key (_cache self) |})
      else (Some (url cached_data), self)
  | None => (None, self)
  end.

Definition set_image_url (self : ImageCache) (now : Z) (category item_name : string)
           (image_url : string) (metadata : option (gmap string string))
  : ImageCache :=
  let cache_key := _get_cache_key category item_name in
  let cache_data := {| url := image_url; cached_at := now;
                       metadata := default ∅ metadata |} in
  {| ttl_seconds := ttl_seconds self;
     _cache := <[cache_key := cache_data]> (_cache self) |}.

Definition has_changed (self : ImageCache) (now : Z) (category item_name : string)
           (new_url : string) : bool * ImageCache :=
  let '(cached_url, self') := get_image_url self now category item_name in
  (negb (bool_decide (cached_url = Some new_url)), self').

(** [for key in keys: del self._cache[key]]. *)
Definition delete_keys (keys : list string) (cache : gmap string CacheEntry)
  : gmap string CacheEntry :=
  foldl (fun m key => delete key m) cache keys.

Definition clear_by_category (self : ImageCache) (category : option string)
  : nat * ImageCache :=
  match category with
  | Some (String _ _ as category) =>
      let keys_to_remove :=
        List.filter (fun key => Py.startswith key (category +:+ ":"))
                    (map fst (map_to_list (_cache self))) in
      (length keys_to_remove,
       {| ttl_seconds := ttl_seconds self;
          _cache := delete_keys keys_to_remove (_cache self) |})
  | _ =>
      (size (_cache self), {| ttl_seconds := ttl_seconds self; _cache := ∅ |})
  end.

Definition clear_by_source_category (self : ImageCache) (source category : string)
  : nat * ImageCache :=
  clear_by_category self (Some category).

Definition clear_all (self : ImageCache) : nat * ImageCache :=
  clear_by_category self None.

Record CacheStats : Type := {
  total_cached_items : nat;
  ttl_hours : Z;
  expired_cleaned : nat;
}.

Definition get_stats (self : ImageCache) (now : Z) : CacheStats * ImageCache :=
  let expired_keys :=
    map fst (List.filter (fun kv => _is_expired self now (cached_at (snd kv)))
                         (map_to_list (_cache self))) in
  let cache' := delete_keys expired_keys (_cache self) in
  ({| total_cached_items := size cache';
      ttl_hours := ttl_seconds self / 3600;
      expired_cleaned := length expired_keys |},
   {| ttl_seconds := ttl_seconds self; _cache := cache' |}).

(** ** [orchestrator/src/workflow.py]

    A scraped item as the workflow reads it: [item.get('name', 'unknown')]
    and [item.get('image_url')].  The file system is the map from the
    paths that exist to their sizes. *)

Record Item : Type := {
  item_name : option string;          (* [None]: the key is missing *)
  item_image_url : option string;     (* [None]: missing or null *)
}.

Definition possible_extensions : list string := [".jpg"; ".jpeg"; ".png"; ".gif"].

(** [os.path.exists(p) and os.path.getsize(p) > 0]. *)
Definition nonempty_file (fs : gmap string Z) (file_path : string) : bool :=
  match fs !! file_path with
  | Some size => (0 <? size)%Z
  | None => false
  end.

(** The inner loop over [possible_extensions]: the flag [exists] at its end. *)
Definition image_exists (fs : gmap string Z) (base_path : string) (item : Item)
  : bool :=
  let name := default "unknown" (item_name item) in
  existsb (fun ext =>
             let filename := Py.replace " " "_" (Py.lower name) +:+ ext in
             nonempty_file fs (base_path +:+ "/" +:+ filename))
          possible_extensions.

(** [not image_url]. *)
Definition no_url (item : Item) : bool :=
  match item_image_url item with
  | None | Some EmptyString => true
  | Some _ => false
  end.

Fixpoint check_items (fs : gmap string Z) (base_path : string) (items : list Item)
  : list Item :=
  match items with
  | [] => []
  | item :: rest =>
      if no_url item then check_items fs base_path rest
      else if image_exists fs base_path item then check_items fs base_path rest
      else item :: check_items fs base_path rest
  end.

Definition _check_existing_images (fs : gmap string Z) (source category : string)
           (items : list Item) : list Item :=
  let base_path := "/tmp/" +:+ source +:+ "_" +:+ category in
  check_items fs base_path items.

(** ** More of [orchestrator/src/workflow.py]: triggers and a run *)

(** [s.split(c, 1)[1]] when [c] is in [s]: the text after the first [c]. *)
Fixpoint after_first (c : ascii) (s : string) : string :=
  match s with
  | EmptyString => EmptyString
  | String d s' => if Ascii.eqb d c then s' else after_first c s'
  end.

(** [os.path.basename(p)]. *)
Definition basename (p : string) : string :=
  Py.drop (Py.rfind "/" p + 1) p.

Definition _parse_trigger (trigger : string) : result (string * string) :=
  if negb (Py.contains "-" trigger) then
    Raise (ValueError ("Invalid trigger format: " +:+ trigger
                       +:+ ". Expected format: {source}-{category}"))
  else
    Ok (Url.before_first "-" trigger, after_first "-" trigger).

(** What a run meets outside the workflow: the two health checks, the
    scraper's answer, the downloader's answer, the writing of the gallery
    file, and the files on disk when the existing images are checked. *)
Record Services : Type := {
  scraper_healthy : bool;
  downloader_healthy : bool;
  scrape_data : string -> string -> result (list Item);
  download_images : list Item -> result unit;
  write_html : string -> result unit;
  disk : gmap string Z;
}.

(** [ServiceClient.check_services_health]: both services are asked. *)
Definition check_services_health (env : Services) : bool :=
  scraper_healthy env && downloader_healthy env.

(** [HTMLGenerator.generate_html], as far as the workflow sees it: the
    gallery is written to [<output_path>/<source>_<category>_gallery.html]
    with the default [output_path], and that path is returned.  The
    content of the page is not modelled. *)
Definition generate_html (env : Services) (source category : string)
           (items : list Item) : result string :=
  let output_file := OsPath.join "/tmp" (source +:+ "_" +:+ category +:+ "_gallery.html") in
  _ ← write_html env output_file;
  Ok output_file.

(** The dictionary a run returns. *)
Inductive RunResult : Type :=
  | RunSuccess (html_file html_url : string)
  | RunError (message : string).

(** The calls a run makes on its collaborators, in order. *)
Inductive call : Type :=
  | CallHealth
  | CallScrape (source category : string)
  | CallDownload (items : list Item)
  | CallHtml (source category : string) (items : list Item).

(** The body of the [try] block of [Workflow.run]. *)
Definition run_body (env : Services) (trigger : string)
  : result RunResult * list call :=
  match _parse_trigger trigger with
  | Raise e => (Raise e, [])
  | Ok (source, category) =>
      if negb (check_services_health env) then
        (Ok (RunError "Services not healthy"), [CallHealth])
      else
        match scrape_data env source category with
        | Raise e => (Raise e, [CallHealth; CallScrape source category])
        | Ok [] =>
            (Ok (RunError "No data found"), [CallHealth; CallScrape source category])
        | Ok items =>
            let items_to_download :=
              _check_existing_images (disk env) source category items in
            let '(downloaded, calls) :=
              match items_to_download with
              | [] => (Ok tt, [CallHealth; CallScrape source category])
              | _ => (download_images env items_to_download,
                      [CallHealth; CallScrape source category;
                       CallDownload items_to_download])
              end in
            match downloaded with
            | Raise e => (Raise e, calls)
            | Ok _ =>
                ((html_file ← generate_html env source category items;
                  Ok (RunSuccess (basename html_file)
                                 ("http://localhost:9003/html/" +:+ basename html_file))),
                 (calls ++ [CallHtml source category items])%list)
            end
        end
  end.

(** [Workflow.run]: the result, the flag [_is_running] afterwards and the
    calls made; [running] is the flag before. *)
Definition run (env : Services) (running : bool) (trigger : string)
  : RunResult * bool * list call :=
  if running then (RunError "Workflow already running", running, [])
  else
    let '(outcome, calls) := run_body env trigger in
    (match outcome with
     | Ok answer => answer
     | Raise (ValueError m) => RunError ("Invalid trigger: " +:+ m)
     | Raise e => RunError ("Workflow failed: " +:+ str_of_exn e)
     end, false, calls).

(** ** [orchestrator/src/html_generator.py]: the image of an animal

    The inner loop of [generate_html] that looks for the downloaded file
    of one animal: the first of the four extensions under which a
    non-empty file exists. *)
Definition local_path (fs : gmap string Z) (source category animal_name : string)
  : option string :=
  List.find (nonempty_file fs)
    (map (fun ext =>
            "/tmp/" +:+ source +:+ "_" +:+ category +:+ "/"
            +:+ (Py.replace " " "_" (Py.lower animal_name) +:+ ext))
         [".jpg"; ".jpeg"; ".png"; ".gif"]).

(** ** [common.py] and the validators of [models.py] *)

(** The table [SupportedSources]: each source with its categories. *)
Definition SupportedSources : list (string * list string) :=
  [("wikipedia", ["animals"])].

(** [SupportedSources[source]], if the key is there. *)
Definition supported_categories (source : string) : option (list string) :=
  snd <$> List.find (fun entry => String.eqb (fst entry) source) SupportedSources.

(** How an f-string shows a list of plain strings: [['a', 'b']]. *)
Fixpoint repr_items (items : list string) : string :=
  match items with
  | [] => EmptyString
  | [x] => "'" +:+ x +:+ "'"
  | x :: rest => "'" +:+ x +:+ "', " +:+ repr_items rest
  end.

Definition repr_list (items : list string) : string :=
  "[" +:+ repr_items items +:+ "]".

(** [SourceValidator.validate]. *)
Definition validate (source category : string) : result unit :=
  match supported_categories source with
  | None =>
      Raise (ValueError ("Invalid source: " +:+ source +:+ ". Available sources: "
                         +:+ repr_list (map fst SupportedSources)))
  | Some categories =>
      if existsb (String.eqb category) categories then Ok tt
      else Raise (ValueError ("Invalid category '" +:+ category +:+ "' for source '"
                              +:+ source +:+ "'. Available categories: "
                              +:+ repr_list categories))
  end.

(** [DataScraper.is_supported]. *)
Definition is_supported (source category : string) : bool :=
  match validate source category with
  | Ok _ => true
  | Raise _ => false
  end.

(** [DownloadRequest.validate_image_url]. *)
Definition validate_image_url (v : string) : result string :=
  if Py.startswith v "http://" || Py.startswith v "https://" then Ok v
  else Raise (ValueError "image_url must be a valid HTTP/HTTPS URL").

(** [DownloadRequest.validate_source_category] on the field [category]:
    the source validated before it is looked at only if it is not empty. *)
Definition validate_source_category (source category : string) : result string :=
  match source with
  | EmptyString => Ok category
  | _ => _ ← validate source category; Ok category
  end.

(** [DownloadRequest(image_url=..., name=..., source=..., category=...)]:
    the request, or the validation error when a field is refused (the
    text of that error is the library's and is not modelled). *)
Definition new_DownloadRequest (image_url name source category : string)
  : result DownloadRequest :=
  match validate_image_url image_url, validate_source_category source category with
  | Ok u, Ok c => Ok {| image_url := u; name := name; source := source; category := c |}
  | _, _ => Raise (ValueError "validation error for DownloadRequest")
  end.

(** ** [data-scraper-service/src/scraper.py]: filters and pages *)

Record DataItem : Type := {
  di_name : string;
  di_source : string;
  di_category : string;
  di_image_url : option string;
  di_attributes : gmap string string;
}.

(** [any(item.name.lower() == name.lower() for name in names)]. *)
Definition name_among (item : DataItem) (names : list string) : bool :=
  existsb (fun name => String.eqb (Py.lower (di_name item)) (Py.lower name)) names.

(** [not names] for a list. *)
Definition is_nil {A : Type} (l : list A) : bool :=
  match l with
  | [] => true
  | _ => false
  end.

(** [DataScraper._item_passes_filters]; a filter value is the list of
    names that [name_in] carries. *)
Definition _item_passes_filters (item : DataItem) (filters : gmap string (list string))
  : bool :=
  forallb (fun entry =>
             if String.eqb (fst entry) "name_in" && negb (is_nil (snd entry))
             then name_among item (snd entry)
             else true)
          (map_to_list filters).

(** [DataScraper._apply_filters_only]. *)
Definition _apply_filters_only (items : list DataItem)
           (filters : option (gmap string (list string))) : list DataItem :=
  match filters with
  | None => items
  | Some filters =>
      if bool_decide (filters = ∅) then items
      else List.filter (fun item => _item_passes_filters item filters) items
  end.

(** The part of [DataScraper.scrape_data] after the scraper has answered:
    filter, then skip [offset] items, then keep [limit] items. *)
Definition select_items (items : list DataItem)
           (filters : option (gmap string (list string)))
           (offset limit : option Z) : list DataItem :=
  let filtered_items := _apply_filters_only items filters in
  let filtered_items :=
    match offset with
    | Some o =>
        if (0 <? o)%Z then
          if (Z.of_nat (length filtered_items) <=? o)%Z then []
          else skipn (Z.to_nat o) filtered_items
        else filtered_items
    | None => filtered_items
    end in
  match limit with
  | Some l => if (0 <? l)%Z then firstn (Z.to_nat l) filtered_items else filtered_items
  | None => filtered_items
  end.

(** ** [data-scraper-service/src/wiki_scraper.py]: requests and image URLs *)

(** What one GET of the scraper ends in: the text of the page, a failure
    of the kinds [_make_request] retries ([aiohttp.ClientError],
    [asyncio.TimeoutError]), or another exception. *)
Inductive page_attempt : Type :=
  | PageText (text : string)
  | ClientFailure (msg : string)
  | OtherFailure (msg : string).

(** How a call of [_make_request] ends: it returns the text, it falls out
    of the loop and returns [None], or it raises the exception of its
    last attempt. *)
Inductive request_outcome : Type :=
  | ReturnedText (text : string)
  | ReturnedNone
  | RaisedClientFailure (msg : string)
  | RaisedOther (msg : string).

(** A call of [_make_request]: how it ends, the number of GETs and the
    sleeps, in units of [retry_delay]. *)
Record requested : Type := {
  answer : request_outcome;
  gets : nat;
  naps : list nat;
}.

(** The loop [for attempt in range(self.max_retries)], from [attempt] on,
    with [remaining] turns to go. *)
Fixpoint request_loop (fetch : nat -> page_attempt) (max_retries : Z)
         (remaining attempt : nat) : requested :=
  match remaining with
  | O => {| answer := ReturnedNone; gets := 0; naps := [] |}
  | S remaining' =>
      match fetch attempt with
      | PageText text => {| answer := ReturnedText text; gets := 1; naps := [] |}
      | ClientFailure msg =>
          if (Z.of_nat attempt =? max_retries - 1)%Z then
            {| answer := RaisedClientFailure msg; gets := 1; naps := [] |}
          else
            let rest := request_loop fetch max_retries remaining' (S attempt) in
            {| answer := answer rest;
               gets := S (gets rest);
               naps := (attempt + 1) :: naps rest |}
      | OtherFailure msg => {| answer := RaisedOther msg; gets := 1; naps := [] |}
      end
  end.

(** [WikiScraper._make_request]. *)
Definition _make_request (fetch : nat -> page_attempt) (max_retries : Z) : requested :=
  request_loop fetch max_retries (Z.to_nat max_retries) 0.

(** The four-way rule of [_extract_wiki_image_url] that makes the [src]
    of an infobox image absolute. *)
Definition absolute_image_url (src : string) : string :=
  if Py.startswith src "//" then "https:" +:+ src
  else if Py.startswith src "/" then "https://en.wikipedia.org" +:+ src
  else if Py.startswith src "http" then src
  else "https://en.wikipedia.org/" +:+ src.

(** ** [image-downloader/src/api.py]: the two download endpoints *)

(** What an endpoint answers: a body, or an [HTTPException]. *)
Inductive http (A : Type) : Type :=
  | Http200 (body : A)
  | HTTPException (status_code : nat) (detail : string).
Arguments Http200 {A} body.
Arguments HTTPException {A} status_code detail.

(** The module's [downloader = ImageDownloader(max_workers=15)]. *)
Definition service_downloader (sch : Retry.schedule) : ImageDownloader :=
  {| max_workers := 15; retry_schedule := sch |}.

(** [POST /download]. *)
Definition api_download_images (downloader : ImageDownloader) (w : BatchWorld)
           (batch_request : BatchDownloadRequest) : http BatchDownloadResult :=
  if is_nil (downloads batch_request) then HTTPException 400 "No downloads specified"
  else
    match returned (download_batch downloader w batch_request) with
    | Ok result => Http200 result
    | Raise e => HTTPException 500 ("Download failed: " +:+ str_of_exn e)
    end.

(** [POST /download-single]. *)
Definition api_download_single_image (downloader : ImageDownloader) (w : BatchWorld)
           (download_request : DownloadRequest) : http DownloadResult :=
  let batch_request := {| downloads := [download_request]; max_concurrent := 1;
                          timeout_seconds := 30 |} in
  match returned (download_batch downloader w batch_request) with
  | Ok result =>
      match results result with
      | first :: _ => Http200 first
      | [] => HTTPException 500 "No result returned from download"
      end
  | Raise e => HTTPException 500 ("Download failed: " +:+ str_of_exn e)
  end.

(** ** Sample data *)

Definition lion : DownloadRequest :=
  {| image_url := "https://example.com/img/lion.png"; name := "Lion";
     source := "wikipedia"; category := "animals" |}.

Definition sea_lion : DownloadRequest :=
  {| image_url := "https://example.com/image"; name := "Sea Lion";
     source := "wikipedia"; category := "animals" |}.

Definition tiger : DownloadRequest :=
  {| image_url := "https://unreachable.invalid/tiger.jpg"; name := "Tiger";
     source := "wikipedia"; category := "animals" |}.

(** A reachable host that answers 200 without a content type. *)
Definition plain_world : World :=
  {| makedirs := fun _ => true;
     transport := fun _ => Replied {| status_code := 200; content_type := None |};
     write_file := fun _ => Ok 2048%Z;
     elapsed := 5%Z |}.

(** A host that answers 503 to every attempt. *)
Definition busy_world : World :=
  {| makedirs := fun _ => true;
     transport := fun _ => Replied {| status_code := 503; content_type := None |};
     write_file := fun _ => Ok 0%Z;
     elapsed := 7000%Z |}.

(** A host that is unreachable twice and then answers 404. *)
Definition late_404_world : World :=
  {| makedirs := fun _ => true;
     transport := fun k => if (k <? 2)%nat then ConnectionFailed
                           else Replied {| status_code := 404; content_type := None |};
     write_file := fun _ => Ok 0%Z;
     elapsed := 3000%Z |}.

(** A host that answers 413 with [Retry-After: 5] once and then 200. *)
Definition too_large_world : World :=
  {| makedirs := fun _ => true;
     transport := fun k =>
       match k with
       | 0 => RepliedRetryAfter {| status_code := 413; content_type := None |} 5
       | _ => Replied {| status_code := 200; content_type := Some "image/jpeg" |}
       end;
     write_file := fun _ => Ok 512%Z;
     elapsed := 5200%Z |}.

Definition sample_downloader : ImageDownloader :=
  {| max_workers := 2; retry_schedule := Retry.Documented |}.

(** The first worker succeeds, the second raises, the third runs
    [_download_single_image] against the busy host; the second future
    completes first. *)
Definition sample_batch_world : BatchWorld :=
  {| worker := fun i request timeout =>
       match i with
       | 0 => Ok {| r_image_url := image_url request;
                    r_target_path := "/tmp/wikipedia_animals/lion.png";
                    is_successful := true; error_message := None;
                    file_size := Some 2048%Z; download_time := Some 5%Z |}
       | 1 => Raise (OtherError "cannot allocate memory")
       | _ => workers_of Retry.Documented (fun _ => busy_world) i request timeout
       end;
     picks := [1];
     clock_start := 100;
     clock_end := 7200;
     strftime_now := "2024-01-01T00:00:00Z" |}.

(** Workers that run [_download_single_image]: the first against the
    reachable host, the others against the busy one; the third future
    completes first. *)
Definition pipeline_batch_world : BatchWorld :=
  {| worker := workers_of Retry.FirstImmediate
                 (fun i => match i with 0 => plain_world | _ => busy_world end);
     picks := [2; 0];
     clock_start := 0;
     clock_end := 6500;
     strftime_now := "2024-01-01T00:00:07Z" |}.

Definition sample_batch : BatchDownloadRequest :=
  {| downloads := [lion; sea_lion; tiger]; max_concurrent := 5; timeout_seconds := 30 |}.

(** A day in microseconds, the default TTL. *)
Definition one_day : Z := 86400000000.

(** A cache that two scrapers of different sources filled for the same
    category, and an entry of another category. *)
Definition shared_cache : ImageCache :=
  set_image_url
    (set_image_url
       (set_image_url (new_ImageCache 24) 0 "animals" "Lion"
                      "https://en.wikipedia.org/lion.png" None)
       5 "animals" "Tiger" "https://other.example/tiger.png" None)
    9 "plants" "Oak" "https://en.wikipedia.org/oak.png" None.

(** An item the scraper found no image for, and one with an image. *)
Definition no_image : Item :=
  {| item_name := Some "Yak"; item_image_url := None |}.

Definition with_image : Item :=
  {| item_name := Some "Sea Lion";
     item_image_url := Some "https://example.com/sea_lion.png" |}.

Definition on_disk : Item :=
  {| item_name := Some "Lion"; item_image_url := Some "https://example.com/lion.png" |}.

Definition sample_fs : gmap string Z :=
  {[ "/tmp/wikipedia_animals/lion.png" := 2048%Z;
     "/tmp/wikipedia_animals/sea_lion.jpg" := 0%Z ]}.

(** Services that are up: the scraper knows three animals, the downloader
    accepts every batch, the gallery can be written, and the lion's image
    is on disk already. *)
Definition healthy_services : Services :=
  {| scraper_healthy := true;
     downloader_healthy := true;
     scrape_data := fun source category => Ok [on_disk; no_image; with_image];
     download_images := fun _ => Ok tt;
     write_html := fun _ => Ok tt;
     disk := sample_fs |}.

(** A scraper whose answer is not JSON. *)
Definition garbled_services : Services :=
  {| scraper_healthy := true;
     downloader_healthy := true;
     scrape_data := fun source category => Raise (ValueError "Expecting value: line 1");
     download_images := fun _ => Ok tt;
     write_html := fun _ => Ok tt;
     disk := sample_fs |}.

(** Three scraped animals. *)
Definition lion_d : DataItem :=
  {| di_name := "Lion"; di_source := "wikipedia"; di_category := "animals";
     di_image_url := Some "https://example.com/lion.png"; di_attributes := ∅ |}.

Definition yak_d : DataItem :=
  {| di_name := "Yak"; di_source := "wikipedia"; di_category := "animals";
     di_image_url := None; di_attributes := ∅ |}.

Definition emu_d : DataItem :=
  {| di_name := "Emu"; di_source := "wikipedia"; di_category := "animals";
     di_image_url := None; di_attributes := ∅ |}.

(** A page server that fails twice and then answers. *)
Definition flaky_fetch (attempt : nat) : page_attempt :=
  if (attempt <? 2)%nat then ClientFailure "503" else PageText "<html/>".

(** A page server that never answers. *)
Definition dead_fetch (attempt : nat) : page_attempt := ClientFailure "connection refused".

(** * Properties *)

(** ** Strings and paths on examples *)

Example split_ex : Py.split "." "/a.b/c.png" = ["/a"; "b/c"; "png"].
Proof. reflexivity. Qed.

Example splitext_ex :
  OsPath.splitext "/tmp/wikipedia_animals/lion.jpg" = ("/tmp/wikipedia_animals/lion", ".jpg").
Proof. reflexivity. Qed.

Example splitext_dotfile : OsPath.splitext "/tmp/x/.profile" = ("/tmp/x/.profile", "").
Proof. reflexivity. Qed.

Example dirname_ex :
  OsPath.dirname "/tmp/wikipedia_animals/lion.jpg" = "/tmp/wikipedia_animals".
Proof. reflexivity. Qed.

Example urlpath_query_fragment :
  Url.path "https://upload.wikimedia.org/commons/thumb/7/73/A.jpg/330px-A.jpg?x=1#f"
  = "/commons/thumb/7/73/A.jpg/330px-A.jpg".
Proof. reflexivity. Qed.

Example urlpath_params : Url.path "https://host/a/b;p=1/c.png;q" = "/a/b;p=1/c.png".
Proof. reflexivity. Qed.

Example urlpath_no_path : Url.path "http://host" = "".
Proof. reflexivity. Qed.

Example extension_from_content_type :
  _get_file_extension "https://example.com/image" "image/PNG" = Ok ".png".
Proof. reflexivity. Qed.

(** ** [split] and the text after the last separator *)

Section SplitLast.
Variable sep : ascii.

(** Without a separator the string is the only piece; with one there
    are at least two pieces, and the last piece is what follows the
    last separator. *)
Lemma split_spec (s : string) :
  (Py.contains sep s = false /\ Py.split sep s = [s])
  \/ (Py.contains sep s = true /\
      exists p q ps pre,
        Py.split sep s = p :: q :: ps
        /\ s = pre +:+ String sep (List.last (q :: ps) EmptyString)
        /\ Py.contains sep (List.last (q :: ps) EmptyString) = false).
Proof.
  induction s as [|c s' IH]; [left; split; reflexivity|].
  cbn [Py.contains Py.split].
  destruct (Ascii.eqb_spec c sep) as [->|Hne].
  - right. split; [reflexivity|].
    destruct IH as [[Hno Hs]|[_ (p & q & ps & pre & Hs & Hdec & Hlast)]].
    + exists EmptyString, s', [], EmptyString. rewrite Hs. auto.
    + exists EmptyString, p, (q :: ps), (String sep pre).
      rewrite Hs. split; [reflexivity|]. split; [|exact Hlast].
      change (List.last (p :: q :: ps) EmptyString) with (List.last (q :: ps) EmptyString).
      rewrite Hdec at 1. reflexivity.
  - destruct IH as [[Hno Hs]|[Hyes (p & q & ps & pre & Hs & Hdec & Hlast)]].
    + left. rewrite Hs. auto.
    + right. split; [exact Hyes|].
      exists (String c p), q, ps, (String c pre).
      rewrite Hs. split; [reflexivity|]. split; [|exact Hlast].
      rewrite Hdec at 1. reflexivity.
Qed.

Lemma last_item_after_last (s : string) :
  Py.contains sep s = true ->
  exists pre, s = pre +:+ String sep (Py.last_item (Py.split sep s))
              /\ Py.contains sep (Py.last_item (Py.split sep s)) = false.
Proof.
  intros Hc. destruct (split_spec s) as [[Hno _]|[_ (p & q & ps & pre & Hs & Hdec & Hlast)]].
  - congruence.
  - exists pre. unfold Py.last_item. rewrite Hs.
    change (List.last (p :: q :: ps) EmptyString) with (List.last (q :: ps) EmptyString).
    auto.
Qed.

End SplitLast.

(** ** The retry loop *)

Lemma send_not_transient sch tr n k r :
  tr k = Replied r -> Retry.is_forced (status_code r) = false ->
  Retry.send sch tr n k = {| Retry.outcome := Ok r; Retry.attempts := 1; Retry.sleeps := [] |}.
Proof.
  intros Hk Hf.
  assert (Hr : Retry.retried n (tr k) = false).
  { rewrite Hk. unfold Retry.retried, Retry.is_retry. rewrite Hf, andb_false_r. reflexivity. }
  destruct n; cbn [Retry.send]; rewrite Hr, Hk; reflexivity.
Qed.

(** A transient failure is retried whatever is left of the budget. *)
Lemma transient_retried (n : nat) (w : wire) :
  Retry.transient w = true -> Retry.retried n w = true.
Proof.
  destruct w as [| |r| |r s]; cbn [Retry.transient Retry.retried]; try reflexivity;
    unfold Retry.is_retry; intros ->; reflexivity.
Qed.

Lemma send_retried_last sch tr k :
  Retry.retried 0 (tr k) = true ->
  Retry.send sch tr 0 k
  = {| Retry.outcome := Retry.exhausted (tr k); Retry.attempts := 1; Retry.sleeps := [] |}.
Proof. intros Ht. cbn [Retry.send]. rewrite Ht. reflexivity. Qed.

Lemma send_retried sch tr n k :
  Retry.retried (S n) (tr k) = true ->
  Retry.send sch tr (S n) k
  = {| Retry.outcome := Retry.outcome (Retry.send sch tr n (S k));
       Retry.attempts := S (Retry.attempts (Retry.send sch tr n (S k)));
       Retry.sleeps := Retry.sleep sch (S k) (tr k)
                         :: Retry.sleeps (Retry.send sch tr n (S k)) |}.
Proof. intros Ht. cbn [Retry.send]. rewrite Ht. reflexivity. Qed.

Lemma send_transient_last sch tr k :
  Retry.transient (tr k) = true ->
  Retry.send sch tr 0 k
  = {| Retry.outcome := Retry.exhausted (tr k); Retry.attempts := 1; Retry.sleeps := [] |}.
Proof. intros Ht. apply send_retried_last, transient_retried, Ht. Qed.

Lemma send_transient_retry sch tr n k :
  Retry.transient (tr k) = true ->
  Retry.send sch tr (S n) k
  = {| Retry.outcome := Retry.outcome (Retry.send sch tr n (S k));
       Retry.attempts := S (Retry.attempts (Retry.send sch tr n (S k)));
       Retry.sleeps := Retry.sleep sch (S k) (tr k)
                         :: Retry.sleeps (Retry.send sch tr n (S k)) |}.
Proof. intros Ht. apply send_retried, transient_retried, Ht. Qed.

(** An attempt that is not repeated is an answer, and it is handed back. *)
Lemma send_not_retried sch tr n k :
  Retry.retried n (tr k) = false ->
  exists r,
    (tr k = Replied r \/ exists seconds, tr k = RepliedRetryAfter r seconds)
    /\ Retry.send sch tr n k
       = {| Retry.outcome := Ok r; Retry.attempts := 1; Retry.sleeps := [] |}.
Proof.
  intros Hr.
  assert (Hsend : Retry.send sch tr n k
                  = match tr k with
                    | Replied r | RepliedRetryAfter r _ =>
                        {| Retry.outcome := Ok r; Retry.attempts := 1; Retry.sleeps := [] |}
                    | _ => {| Retry.outcome := Retry.exhausted (tr k);
                              Retry.attempts := 1; Retry.sleeps := [] |}
                    end)
    by (destruct n; cbn [Retry.send]; rewrite Hr; reflexivity).
  rewrite Hsend.
  destruct (tr k) as [| |r| |r s]; cbn [Retry.retried] in Hr; try discriminate Hr.
  - exists r. split; [now left|reflexivity].
  - exists r. split; [right; now exists s|reflexivity].
Qed.

(** The first [k] attempts being repeated, the GET goes on from attempt
    [k] with what is left of the budget. *)
Lemma send_prefix sch tr (k : nat) : forall n i,
  k <= n ->
  (forall j, j < k -> Retry.retried (n - j) (tr (i + j)) = true) ->
  Retry.send sch tr n i
  = {| Retry.outcome := Retry.outcome (Retry.send sch tr (n - k) (i + k));
       Retry.attempts := k + Retry.attempts (Retry.send sch tr (n - k) (i + k));
       Retry.sleeps := (map (fun j => Retry.sleep sch (S (i + j)) (tr (i + j))) (seq 0 k)
                        ++ Retry.sleeps (Retry.send sch tr (n - k) (i + k)))%list |}.
Proof.
  induction k as [|k IH]; intros n i Hk Hpre.
  - rewrite Nat.sub_0_r, Nat.add_0_r. destruct (Retry.send sch tr n i); reflexivity.
  - destruct n as [|n]; [lia|].
    assert (H0 : Retry.retried (S n) (tr i) = true).
    { specialize (Hpre 0). rewrite Nat.sub_0_r, Nat.add_0_r in Hpre. apply Hpre. lia. }
    rewrite (send_retried sch tr n i H0).
    rewrite (IH n (S i)).
    + cbn [Retry.outcome Retry.attempts Retry.sleeps].
      replace (S n - S k) with (n - k) by lia.
      replace (i + S k) with (S i + k) by lia.
      f_equal. cbn [seq map]. rewrite Nat.add_0_r. cbn [app]. f_equal. f_equal.
      rewrite <- seq_shift, map_map. apply map_ext. intros j.
      replace (i + S j) with (S i + j) by lia. reflexivity.
    + lia.
    + intros j Hj. specialize (Hpre (S j)).
      replace (S n - S j) with (n - j) in Hpre by lia.
      replace (i + S j) with (S i + j) in Hpre by lia. apply Hpre. lia.
Qed.

(** The budget: at most one request more than there are retries, and a
    sleep between any two requests. *)
Lemma send_budget sch tr : forall n k,
  1 <= Retry.attempts (Retry.send sch tr n k)
  /\ Retry.attempts (Retry.send sch tr n k) <= S n
  /\ S (length (Retry.sleeps (Retry.send sch tr n k))) = Retry.attempts (Retry.send sch tr n k).
Proof.
  induction n as [|n IH]; intros k; cbn [Retry.send].
  - destruct (Retry.retried 0 (tr k)); [cbn; lia|].
    destruct (tr k); cbn; lia.
  - destruct (Retry.retried (S n) (tr k)).
    + specialize (IH (S k)). cbn [Retry.attempts Retry.sleeps length]. lia.
    + destruct (tr k); cbn; lia.
Qed.

(** Every status of the retry list is an error status. *)
Lemma forced_is_error (r : Response) :
  raise_for_status r = Ok tt -> Retry.is_forced (status_code r) = false.
Proof.
  unfold raise_for_status, Retry.is_forced. intros H.
  destruct (existsb _ _) eqn:E; [|reflexivity].
  apply existsb_exists in E as (x & Hin & Hx).
  apply Nat.eqb_eq in Hx. rewrite Hx in H.
  simpl in Hin. decompose [or] Hin; try contradiction; subst x;
    match goal with E : _ = status_code r |- _ => rewrite <- E in H end;
    vm_compute in H; discriminate H.
Qed.

Lemma exhausted_raises (w : wire) :
  exists m, Retry.exhausted w = Raise (Timeout m) \/ Retry.exhausted w = Raise (RequestException m).
Proof. destruct w; simpl; eauto. Qed.

(** ** The extension rule *)

(** C10.  There is a URL whose path has a dot only in a segment that is
    not the last ([/v1.2/image]): for it [_get_file_extension] returns
    the text after that dot with the later segments, [.2/image], which
    contains a slash; the worker then writes to
    [/tmp/wikipedia_animals/lion.2/image], in another directory than the
    [/tmp/wikipedia_animals] of the request's target path. *)
Theorem extension_may_span_path_segments :
  exists (url ext : string),
    let request := {| image_url := url; name := "Lion";
                      source := "wikipedia"; category := "animals" |} in
    let w := {| makedirs := fun _ => true;
                transport := fun _ => Replied {| status_code := 200;
                                                 content_type := Some "image/png" |};
                write_file := fun _ => Ok 2048%Z;
                elapsed := 1%Z |} in
    Url.path url = "/v1.2/image"
    /\ Py.contains "." (Py.last_item (Py.split "/" (Url.path url))) = false
    /\ _get_file_extension url "image/png" = Ok ext
    /\ Py.contains "/" ext = true
    /\ final_target_path request ext = "/tmp/wikipedia_animals/lion.2/image"
    /\ (exists res, fst (_download_single_image Retry.Documented w request 30) = Ok res
                    /\ is_successful res = true
                    /\ r_target_path res = "/tmp/wikipedia_animals/lion.2/image")
    /\ OsPath.dirname (final_target_path request ext) = "/tmp/wikipedia_animals/lion.2"
    /\ OsPath.dirname (target_path request) = "/tmp/wikipedia_animals".
Proof.
  exists "https://example.com/v1.2/image", ".2/image".
  repeat split; try reflexivity.
  eexists. repeat split; reflexivity.
Qed.

(** C6.  When the GET hands back a successful response, the worker sends
    no request beyond those of that GET (a single one when the first
    answer is the response).  The extension is the text after the last
    dot of the (lower-cased) URL path if that path has a dot, else the
    lower-cased text after the last slash of the content type if it has
    a slash; with an extension the body is written to the target path's
    base followed by it; with neither the worker returns a failed result
    whose message is the "Invalid file format" one, and writes nothing. *)
Theorem extension_from_url_then_content_type
        (sch : Retry.schedule) (w : World) (request : DownloadRequest)
        (timeout : Z) (response : Response) :
  makedirs w (OsPath.dirname (target_path request)) = true ->
  Retry.outcome (Retry.session_get sch (transport w)) = Ok response ->
  raise_for_status response = Ok tt ->
  let path := Py.lower (Url.path (image_url request)) in
  let ctype := default EmptyString (content_type response) in
  let run := _download_single_image sch w request timeout in
  requests_sent (snd run) = Retry.attempts (Retry.session_get sch (transport w))
  /\ slept (snd run) = Retry.sleeps (Retry.session_get sch (transport w))
  /\ (transport w 0 = Replied response ->
      requests_sent (snd run) = 1 /\ slept (snd run) = [])
  /\ (Py.contains "." path = true ->
      exists pre suffix,
        path = pre +:+ String "." suffix /\ Py.contains "." suffix = false
        /\ _get_file_extension (image_url request) ctype = Ok ("." +:+ suffix))
  /\ (Py.contains "." path = false -> Py.contains "/" ctype = true ->
      exists pre subtype,
        ctype = pre +:+ String "/" subtype /\ Py.contains "/" subtype = false
        /\ _get_file_extension (image_url request) ctype = Ok ("." +:+ Py.lower subtype))
  /\ (forall ext size,
        _get_file_extension (image_url request) ctype = Ok ext ->
        write_file w (final_target_path request ext) = Ok size ->
        fst run = Ok {| r_image_url := image_url request;
                        r_target_path := fst (OsPath.splitext (target_path request)) +:+ ext;
                        is_successful := true;
                        error_message := None;
                        file_size := Some size;
                        download_time := Some (elapsed w) |})
  /\ (Py.contains "." path = false -> Py.contains "/" ctype = false ->
      exists why,
        _get_file_extension (image_url request) ctype = Raise (ValueError why)
        /\ fst run = Ok (failed_download w request
                           ("Invalid file format for " +:+ name request +:+ ": " +:+ why))).
Proof.
  intros Hdir Hgot Hstatus path ctype run.
  assert (Hrun : run =
    (try_except
       (file_extension ← _get_file_extension (image_url request) ctype;
        size ← write_file w (final_target_path request file_extension);
        Ok {| r_image_url := image_url request;
              r_target_path := final_target_path request file_extension;
              is_successful := true; error_message := None;
              file_size := Some size; download_time := Some (elapsed w) |})
       (fun e => Ok (failed_download w request
                 match e with
                 | Timeout _ => "Timeout downloading " +:+ name request
                                +:+ " from " +:+ image_url request
                 | RequestException m => "Request failed for " +:+ name request +:+ ": " +:+ m
                 | ValueError m => "Invalid file format for " +:+ name request +:+ ": " +:+ m
                 | OtherError m => "Unexpected error downloading " +:+ name request
                                   +:+ ": " +:+ m
                 end)),
     {| requests_sent := Retry.attempts (Retry.session_get sch (transport w));
        slept := Retry.sleeps (Retry.session_get sch (transport w)) |})).
  { unfold run, _download_single_image, _ensure_directory. rewrite Hdir, Hgot.
    cbn [negb mbind result_bind]. rewrite Hstatus. reflexivity. }
  rewrite Hrun. cbn [fst snd requests_sent slept].
  split; [reflexivity|]. split; [reflexivity|].
  split.
  { intros Hfirst. unfold Retry.session_get.
    rewrite (send_not_transient sch _ _ _ _ Hfirst (forced_is_error _ Hstatus)).
    split; reflexivity. }
  unfold _get_file_extension. fold path.
  split; [|split; [|split]].
  - intros Hdot. destruct (last_item_after_last "." path Hdot) as (pre & Hpath & Hno).
    exists pre, (Py.last_item (Py.split "." path)).
    rewrite Hdot. auto.
  - intros Hdot Hslash. destruct (last_item_after_last "/" ctype Hslash) as (pre & Hct & Hno).
    exists pre, (Py.last_item (Py.split "/" ctype)).
    rewrite Hdot, Hslash. auto.
  - intros ext size Hext Hw. rewrite Hext.
    cbn [mbind result_bind]. rewrite Hw. reflexivity.
  - intros Hdot Hslash. rewrite Hdot, Hslash.
    eexists. split; reflexivity.
Qed.

(** ** The batch executor *)

Lemma remove_nth_perm {A : Type} (l : list A) (i : nat) (d : A) :
  i < length l -> Permutation (nth i l d :: remove_nth i l) l.
Proof.
  revert i. induction l as [|x l IH]; intros i Hi; simpl in Hi; [lia|].
  destruct i as [|i]; simpl.
  - reflexivity.
  - rewrite perm_swap. constructor. apply IH. lia.
Qed.

(** [as_completed] yields every pending future once. *)
Lemma as_completed_perm {A : Type} (ks : list nat) (l : list A) :
  Permutation (as_completed ks l) l.
Proof.
  revert l. induction ks as [|k ks IH]; intros [|x l]; try reflexivity.
  cbn [as_completed].
  set (i := k mod length (x :: l)).
  assert (Hi : i < length (x :: l)) by (apply Nat.mod_upper_bound; discriminate).
  rewrite IH. apply remove_nth_perm. exact Hi.
Qed.

Lemma remove_nth_map {A B : Type} (f : A -> B) (l : list A) (i : nat) :
  remove_nth i (map f l) = map f (remove_nth i l).
Proof.
  revert i. induction l as [|x l IH]; intros [|i]; simpl; try reflexivity.
  now rewrite IH.
Qed.

Lemma as_completed_map {A B : Type} (f : A -> B) (ks : list nat) (l : list A) :
  as_completed ks (map f l) = map f (as_completed ks l).
Proof.
  revert l. induction ks as [|k ks IH]; intros [|x l]; try reflexivity.
  cbn [as_completed map].
  change (f x :: map f l) with (map f (x :: l)).
  rewrite length_map, remove_nth_map, IH, (map_nth f). reflexivity.
Qed.

Section Submitted.
Variable wk : nat -> DownloadRequest -> Z -> result DownloadResult.
Variable timeout : Z.

Lemma submit_all_fid i ds f request :
  In (f, request) (submit_all wk timeout i ds) -> i <= fid f.
Proof.
  revert i. induction ds as [|d ds IH]; intros i; simpl; [tauto|].
  intros [Heq|Hin].
  - inversion Heq; subst; simpl; lia.
  - apply IH in Hin. lia.
Qed.

(** The futures are distinct keys: each maps to the request it was
    submitted for. *)
Lemma getitem_submit_all i ds f request :
  In (f, request) (submit_all wk timeout i ds) ->
  getitem (submit_all wk timeout i ds) f = Ok request.
Proof.
  revert i. induction ds as [|d ds IH]; intros i; simpl; [tauto|].
  intros [Heq|Hin].
  - inversion Heq; subst; simpl. now rewrite Nat.eqb_refl.
  - pose proof (submit_all_fid _ _ _ _ Hin) as Hge.
    destruct (Nat.eqb_spec i (fid f)) as [E|_]; [lia|].
    apply IH, Hin.
Qed.

Lemma submit_all_requests i ds : map snd (submit_all wk timeout i ds) = ds.
Proof. revert i. induction ds as [|d ds IH]; intros i; simpl; [|rewrite IH]; reflexivity. Qed.

Lemma submit_all_settled i ds :
  map (fun p => settle (snd p) (fresult (fst p))) (submit_all wk timeout i ds)
  = task_results wk timeout i ds.
Proof. revert i. induction ds as [|d ds IH]; intros i; simpl; [|rewrite IH]; reflexivity. Qed.

End Submitted.

(** The loop never raises when every completed future is a key of the
    dictionary; it appends one result per future and counts it once. *)
Lemma collect_settles (ftr : list (Future * DownloadRequest))
      (ps : list (Future * DownloadRequest)) (acc : Collected) :
  (forall p, In p ps -> getitem ftr (fst p) = Ok (snd p)) ->
  let rs := map (fun p => settle (snd p) (fresult (fst p))) ps in
  collect ftr acc (map fst ps)
  = Ok {| c_results := c_results acc ++ rs;
          c_success := c_success acc + length (List.filter is_successful rs);
          c_failure := c_failure acc
                       + length (List.filter (fun r => negb (is_successful r)) rs) |}.
Proof.
  revert acc. induction ps as [|[f request] ps IH]; intros acc Hkeys; simpl.
  - rewrite app_nil_r, !Nat.add_0_r. destruct acc; reflexivity.
  - assert (Hk : getitem ftr f = Ok request) by (apply (Hkeys (f, request)); now left).
    assert (Hrest : forall p, In p ps -> getitem ftr (fst p) = Ok (snd p))
      by (intros p Hp; apply Hkeys; now right).
    unfold collect_one, try_except.
    destruct (fresult f) as [r|e]; cbn [mbind result_bind settle].
    + destruct (is_successful r) eqn:Hs; cbn [negb length];
        rewrite (IH _ Hrest); cbn [c_results c_success c_failure];
        rewrite <- app_assoc; do 2 f_equal; simpl; lia.
    + rewrite Hk. cbn [mbind result_bind].
      rewrite (IH _ Hrest). cbn [c_results c_success c_failure thread_failed is_successful negb length].
      rewrite <- app_assoc. do 2 f_equal; simpl; lia.
Qed.

Lemma task_results_length wk timeout i ds :
  length (task_results wk timeout i ds) = length ds.
Proof. revert i. induction ds as [|d ds IH]; intros i; simpl; [|rewrite IH]; reflexivity. Qed.

Lemma task_results_lookup wk timeout i ds (j : nat) request :
  ds !! j = Some request ->
  In (settle request (wk (i + j) request timeout)) (task_results wk timeout i ds).
Proof.
  revert i j. induction ds as [|d ds IH]; intros i [|j] Hj; simpl in Hj; try discriminate.
  - inversion Hj; subst. rewrite Nat.add_0_r. now left.
  - right. replace (i + S j) with (S i + j) by lia. now apply IH.
Qed.

Lemma filter_length_perm {A : Type} (f : A -> bool) (l l' : list A) :
  Permutation l l' -> length (List.filter f l) = length (List.filter f l').
Proof.
  induction 1 as [|x l l' _ IH|x y l|l l' l'' _ IH1 _ IH2]; simpl.
  - reflexivity.
  - destruct (f x); simpl; now rewrite IH.
  - destruct (f x), (f y); reflexivity.
  - now rewrite IH1.
Qed.

Lemma filter_split_length {A : Type} (f : A -> bool) (l : list A) :
  length (List.filter f l) + length (List.filter (fun x => negb (f x)) l) = length l.
Proof. induction l as [|x l IH]; simpl; [reflexivity|]. destruct (f x); simpl; lia. Qed.

(** What [download_batch] returns once the pool can be created: the
    settled results in completion order and their counts. *)
Lemma download_batch_returns (self : ImageDownloader) (w : BatchWorld)
      (req : BatchDownloadRequest) :
  (0 < max_workers self)%Z ->
  let ftr := submit_all (worker w) (timeout_seconds req) 0 (downloads req) in
  let rs := map (fun p => settle (snd p) (fresult (fst p)))
                (as_completed (picks w) ftr) in
  returned (download_batch self w req)
  = Ok {| results := rs;
          total_count := length (downloads req);
          success_count := length (List.filter is_successful rs);
          failure_count := length (List.filter (fun r => negb (is_successful r)) rs);
          total_time := if (length (downloads req) =? 0)%nat then 0%Z
                        else (clock_end w - clock_start w)%Z;
          timestamp := strftime_now w |}.
Proof.
  intros Hpool ftr rs. unfold download_batch.
  destruct (Nat.eqb_spec (length (downloads req)) 0) as [Hz|Hnz].
  - assert (Hnil : downloads req = []) by (destruct (downloads req); [reflexivity|discriminate]).
    subst rs ftr. rewrite Hnil. destruct (picks w); reflexivity.
  - unfold ThreadPoolExecutor.
    destruct (Z.leb_spec (max_workers self) 0) as [Hle|_]; [lia|].
    cbn [returned]. fold ftr.
    rewrite as_completed_map.
    rewrite collect_settles.
    + reflexivity.
    + intros [f request] Hin. apply getitem_submit_all.
      eapply Permutation_in; [apply as_completed_perm|exact Hin].
Qed.

(** The worker itself never raises: each way it can fail ends in a failed
    result that carries a message. *)
Lemma download_single_image_returns sch w request timeout :
  exists res,
    fst (_download_single_image sch w request timeout) = Ok res
    /\ (is_successful res = true
        \/ (is_successful res = false /\ exists m, error_message res = Some m)).
Proof.
  unfold _download_single_image.
  destruct (negb (_ensure_directory w _)); cbn [fst].
  - eexists. split; [reflexivity|]. right. simpl. eauto.
  - unfold try_except.
    destruct (Retry.outcome _) as [response|e]; cbn [mbind result_bind].
    2: { eexists. split; [reflexivity|]. right. simpl. eauto. }
    destruct (raise_for_status response) as [[]|e]; cbn [mbind result_bind].
    2: { eexists. split; [reflexivity|]. right. simpl. eauto. }
    destruct (_get_file_extension _ _) as [ext|e]; cbn [mbind result_bind].
    2: { eexists. split; [reflexivity|]. right. simpl. eauto. }
    destruct (write_file w _) as [size|e]; cbn [mbind result_bind].
    2: { eexists. split; [reflexivity|]. right. simpl. eauto. }
    eexists. split; [reflexivity|]. left. reflexivity.
Qed.

(** C1.  With a pool that can be created, [download_batch] returns a
    result for every task list, whatever each worker does (return a
    success, return a failure, raise): the results are the tasks' settled
    results in some order, one per task, so there are as many as tasks;
    [total_count] is that number, and the two counters count the
    successful and the failed results and add up to it. *)
Theorem batch_result_is_complete (self : ImageDownloader) (w : BatchWorld)
        (req : BatchDownloadRequest) :
  (0 < max_workers self)%Z ->
  exists b,
    returned (download_batch self w req) = Ok b
    /\ Permutation (results b)
         (task_results (worker w) (timeout_seconds req) 0 (downloads req))
    /\ length (results b) = length (downloads req)
    /\ total_count b = length (downloads req)
    /\ success_count b = length (List.filter is_successful (results b))
    /\ failure_count b = length (List.filter (fun r => negb (is_successful r)) (results b))
    /\ success_count b + failure_count b = total_count b.
Proof.
  intros Hpool. eexists. split; [apply download_batch_returns, Hpool|].
  cbn [results total_count success_count failure_count].
  set (ftr := submit_all _ _ _ _).
  assert (Hperm : Permutation
            (map (fun p => settle (snd p) (fresult (fst p))) (as_completed (picks w) ftr))
            (task_results (worker w) (timeout_seconds req) 0 (downloads req))).
  { subst ftr. rewrite <- submit_all_settled. apply Permutation_map, as_completed_perm. }
  assert (Hlen : length (map (fun p => settle (snd p) (fresult (fst p)))
                            (as_completed (picks w) ftr)) = length (downloads req)).
  { rewrite (Permutation_length Hperm). apply task_results_length. }
  repeat split; try assumption; try reflexivity.
  rewrite filter_split_length. exact Hlen.
Qed.

Lemma batch_result_is_complete_witness :
  (0 < max_workers sample_downloader)%Z
  /\ exists b,
      returned (download_batch sample_downloader sample_batch_world sample_batch) = Ok b
      /\ Permutation (results b)
           (task_results (worker sample_batch_world) (timeout_seconds sample_batch) 0
                         (downloads sample_batch))
      /\ length (results b) = length (downloads sample_batch)
      /\ total_count b = length (downloads sample_batch)
      /\ success_count b = length (List.filter is_successful (results b))
      /\ failure_count b
         = length (List.filter (fun r => negb (is_successful r)) (results b))
      /\ success_count b + failure_count b = total_count b.
Proof.
  split; [reflexivity|].
  apply (batch_result_is_complete sample_downloader sample_batch_world sample_batch).
  reflexivity.
Defined.

Example sample_batch_counts :
  exists b, returned (download_batch sample_downloader sample_batch_world sample_batch) = Ok b
            /\ map is_successful (results b) = [false; true; false]
            /\ (total_count b, success_count b, failure_count b) = (3, 1, 2).
Proof. eexists. split; [reflexivity|]. split; reflexivity. Qed.

(** C5.  Once the pool exists the batch call returns; it raises nothing,
    whatever the workers do.  A worker that returned has its own result
    in the batch result, untouched by what other workers did; a worker
    that raised [e] has a failed result with the message
    [Thread execution failed for <name>: <e>], and the failure counter
    counts exactly the tasks whose settled result is not successful.
    When the workers run [_download_single_image], the result of each
    task's worker is in the batch result.  That worker never raises: it
    answers a missing directory with the failed result saying so; an
    exception [e] raised by the GET, by the status check, by the
    extension rule or by the write becomes a failed result (not
    successful, size 0, the request's URL and target path) whose message
    is the one of the [except] clause that catches [e], the last clause
    taking every other exception as [Unexpected error downloading
    <name>: <e>]; and a successful result is returned only when none of
    these steps failed. *)
Theorem worker_failure_is_isolated (self : ImageDownloader) (w : BatchWorld)
        (req : BatchDownloadRequest) :
  (0 < max_workers self)%Z ->
  (exists b,
    returned (download_batch self w req) = Ok b
    /\ (forall (i : nat) request,
          downloads req !! i = Some request ->
          match worker w i request (timeout_seconds req) with
          | Ok r => In r (results b)
          | Raise e =>
              exists res,
                In res (results b)
                /\ is_successful res = false
                /\ error_message res
                   = Some ("Thread execution failed for " +:+ name request
                           +:+ ": " +:+ str_of_exn e)
                /\ r_image_url res = image_url request
                /\ r_target_path res = target_path request
          end)
    /\ failure_count b
       = length (List.filter (fun r => negb (is_successful r))
                   (task_results (worker w) (timeout_seconds req) 0 (downloads req)))
    /\ (forall sch worlds,
          (forall i request t, worker w i request t = workers_of sch worlds i request t) ->
          forall (i : nat) request,
            downloads req !! i = Some request ->
            exists res,
              fst (_download_single_image sch (worlds i) request (timeout_seconds req))
              = Ok res
              /\ In res (results b)))
  /\ (forall sch wd request timeout,
        let run := fst (_download_single_image sch wd request timeout) in
        let got := Retry.outcome (Retry.session_get sch (transport wd)) in
        (exists res,
            run = Ok res
            /\ (is_successful res = true
                \/ (is_successful res = false /\ exists m, error_message res = Some m)))
        /\ (makedirs wd (OsPath.dirname (target_path request)) = false ->
            run = Ok (failed_download wd request "Failed to create target directory"))
        /\ (forall e,
              makedirs wd (OsPath.dirname (target_path request)) = true ->
              (got = Raise e
               \/ (exists response,
                      got = Ok response /\ raise_for_status response = Raise e)
               \/ (exists response,
                      got = Ok response /\ raise_for_status response = Ok tt
                      /\ _get_file_extension (image_url request)
                           (default EmptyString (content_type response)) = Raise e)
               \/ (exists response ext,
                      got = Ok response /\ raise_for_status response = Ok tt
                      /\ _get_file_extension (image_url request)
                           (default EmptyString (content_type response)) = Ok ext
                      /\ write_file wd (final_target_path request ext) = Raise e)) ->
              exists res,
                run = Ok res
                /\ is_successful res = false
                /\ error_message res
                   = Some match e with
                          | Timeout _ =>
                              "Timeout downloading " +:+ name request
                              +:+ " from " +:+ image_url request
                          | RequestException m =>
                              "Request failed for " +:+ name request +:+ ": " +:+ m
                          | ValueError m =>
                              "Invalid file format for " +:+ name request +:+ ": " +:+ m
                          | OtherError m =>
                              "Unexpected error downloading " +:+ name request
                              +:+ ": " +:+ m
                          end
                /\ file_size res = Some 0%Z
                /\ r_image_url res = image_url request
                /\ r_target_path res = target_path request)
        /\ (forall res,
              run = Ok res -> is_successful res = true ->
              makedirs wd (OsPath.dirname (target_path request)) = true
              /\ error_message res = None
              /\ exists response ext size,
                  got = Ok response /\ raise_for_status response = Ok tt
                  /\ _get_file_extension (image_url request)
                       (default EmptyString (content_type response)) = Ok ext
                  /\ write_file wd (final_target_path request ext) = Ok size
                  /\ file_size res = Some size
                  /\ r_target_path res = final_target_path request ext)).
Proof.
  intros Hpool. split.
  - eexists. split; [apply download_batch_returns, Hpool|].
    cbn [results failure_count].
    set (ftr := submit_all _ _ _ _).
    assert (Hperm : Permutation
              (task_results (worker w) (timeout_seconds req) 0 (downloads req))
              (map (fun p => settle (snd p) (fresult (fst p))) (as_completed (picks w) ftr))).
    { subst ftr. rewrite <- submit_all_settled. symmetry.
      apply Permutation_map, as_completed_perm. }
    assert (Hsettled : forall (i : nat) request,
              downloads req !! i = Some request ->
              In (settle request (worker w i request (timeout_seconds req)))
                 (map (fun p => settle (snd p) (fresult (fst p)))
                      (as_completed (picks w) ftr))).
    { intros i request Hi.
      pose proof (task_results_lookup (worker w) (timeout_seconds req) 0 _ _ _ Hi) as Hin.
      apply (Permutation_in _ Hperm) in Hin. exact Hin. }
    split; [|split].
    + intros i request Hi. pose proof (Hsettled i request Hi) as Hin.
      destruct (worker w i request (timeout_seconds req)) as [r|e]; [exact Hin|].
      eexists. split; [exact Hin|]. repeat split.
    + symmetry. apply filter_length_perm, Hperm.
    + intros sch worlds Hworkers i request Hi. pose proof (Hsettled i request Hi) as Hin.
      rewrite Hworkers in Hin. unfold workers_of in Hin.
      destruct (download_single_image_returns sch (worlds i) request (timeout_seconds req))
        as (res & Hres & _).
      exists res. split; [exact Hres|]. rewrite Hres in Hin. exact Hin.
  - intros sch wd request timeout run got.
    split; [apply download_single_image_returns|].
    unfold run, got, _download_single_image, _ensure_directory.
    split; [|split].
    + intros ->. reflexivity.
    + intros e -> Hraise. cbn [negb fst].
      destruct Hraise as [H1|[(response & H1 & H2)|[(response & H1 & H2 & H3)
                          |(response & ext & H1 & H2 & H3 & H4)]]];
        rewrite H1; cbn [mbind result_bind];
        rewrite ?H2; cbn [mbind result_bind];
        rewrite ?H3; cbn [mbind result_bind];
        rewrite ?H4; cbn [mbind result_bind try_except];
        (eexists; split; [reflexivity|]; repeat split).
    + intros res.
      destruct (makedirs wd (OsPath.dirname (target_path request)));
        cbn [negb fst]; [|intros [= <-]; discriminate].
      unfold try_except.
      destruct (Retry.outcome _) as [response|e]; cbn [mbind result_bind];
        [|intros [= <-]; discriminate].
      destruct (raise_for_status response) as [[]|e] eqn:Hstatus; cbn [mbind result_bind];
        [|intros [= <-]; discriminate].
      destruct (_get_file_extension _ _) as [ext|e] eqn:Hext; cbn [mbind result_bind];
        [|intros [= <-]; discriminate].
      destruct (write_file wd _) as [size|e] eqn:Hwrite; cbn [mbind result_bind];
        [|intros [= <-]; discriminate].
      intros [= <-] _. split; [reflexivity|]. split; [reflexivity|].
      exists response, ext, size. repeat split; assumption.
Qed.

Lemma worker_failure_is_isolated_witness :
  (0 < max_workers sample_downloader)%Z
  /\ (exists b,
        returned (download_batch sample_downloader sample_batch_world sample_batch) = Ok b
        /\ failure_count b = 2)
  /\ (exists b res,
        returned (download_batch sample_downloader pipeline_batch_world sample_batch) = Ok b
        /\ In res (results b)
        /\ fst (_download_single_image Retry.FirstImmediate busy_world tiger 30) = Ok res
        /\ is_successful res = false
        /\ error_message res
           = Some "Request failed for Tiger: Max retries exceeded (too many error responses)").
Proof.
  split; [reflexivity|]. split.
  - destruct (worker_failure_is_isolated sample_downloader sample_batch_world sample_batch
                eq_refl) as [(b & Hb & _ & Hcount & _) _].
    exists b. split; [exact Hb|exact Hcount].
  - destruct (worker_failure_is_isolated sample_downloader pipeline_batch_world sample_batch
                eq_refl) as [(b & Hb & _ & _ & Hpipe) Hworker].
    destruct (Hpipe Retry.FirstImmediate
                (fun i => match i with 0 => plain_world | _ => busy_world end)
                (fun _ _ _ => eq_refl) 2 tiger eq_refl) as (res & Hres & Hin).
    destruct (Hworker Retry.FirstImmediate busy_world tiger 30%Z) as (_ & _ & Hfail & _).
    destruct (Hfail (RequestException "Max retries exceeded (too many error responses)")
                eq_refl (or_introl eq_refl)) as (res' & Hres' & Hs & Hm & _).
    assert (E : Ok res = Ok res') by (rewrite <- Hres; exact Hres').
    injection E as ->.
    exists b, res'. split; [exact Hb|]. split; [exact Hin|].
    split; [exact Hres'|]. split; [exact Hs|exact Hm].
Defined.

(** C7.  On an empty task list [download_batch] returns at once: no
    results, the three counts and the total time zero, no pool created
    and nothing submitted; this does not depend on the pool size. *)
Theorem empty_batch_returns_zero (self : ImageDownloader) (w : BatchWorld)
        (concurrent timeout : Z) :
  download_batch self w {| downloads := []; max_concurrent := concurrent;
                           timeout_seconds := timeout |}
  = {| returned := Ok {| results := []; total_count := 0; success_count := 0;
                         failure_count := 0; total_time := 0%Z;
                         timestamp := strftime_now w |};
       pool := None;
       submitted := [] |}.
Proof. reflexivity. Qed.

(** C8.  Two requests that differ only in [max_concurrent] give the same
    run: the same returned result (or exception), the same pool, the same
    submitted calls.  The pool, when one is created, has [max_workers]
    workers. *)
Theorem max_concurrent_is_ignored (self : ImageDownloader) (w : BatchWorld)
        (ds : list DownloadRequest) (timeout concurrent concurrent' : Z) :
  let run := download_batch self w {| downloads := ds; max_concurrent := concurrent;
                                      timeout_seconds := timeout |} in
  run = download_batch self w {| downloads := ds; max_concurrent := concurrent';
                                 timeout_seconds := timeout |}
  /\ pool run = (if (length ds =? 0)%nat || (max_workers self <=? 0)%Z
                 then None else Some (max_workers self))
  /\ submitted run = (if (max_workers self <=? 0)%Z then [] else ds).
Proof.
  intros run. split; [reflexivity|].
  unfold run, download_batch, ThreadPoolExecutor. cbn [downloads timeout_seconds].
  destruct ds as [|d ds]; [destruct (max_workers self <=? 0)%Z; split; reflexivity|].
  cbn [length Nat.eqb orb].
  destruct (max_workers self <=? 0)%Z; cbn [pool submitted]; [split; reflexivity|].
  split; [reflexivity|]. apply submit_all_requests.
Qed.

Lemma extension_from_url_then_content_type_witness :
  makedirs plain_world (OsPath.dirname (target_path sea_lion)) = true
  /\ Retry.outcome (Retry.session_get Retry.Documented (transport plain_world))
     = Ok {| status_code := 200; content_type := None |}
  /\ raise_for_status {| status_code := 200; content_type := None |} = Ok tt
  /\ requests_sent (snd (_download_single_image Retry.Documented plain_world sea_lion 30)) = 1
  /\ exists why,
      _get_file_extension (image_url sea_lion) "" = Raise (ValueError why)
      /\ fst (_download_single_image Retry.Documented plain_world sea_lion 30)
         = Ok (failed_download plain_world sea_lion
                 ("Invalid file format for " +:+ name sea_lion +:+ ": " +:+ why)).
Proof.
  do 3 (split; [reflexivity|]).
  pose proof (extension_from_url_then_content_type Retry.Documented plain_world sea_lion 30
                {| status_code := 200; content_type := None |} eq_refl eq_refl eq_refl)
    as (_ & _ & Hfirst & _ & _ & _ & Hneither).
  split; [exact (proj1 (Hfirst eq_refl))|].
  exact (Hneither eq_refl eq_refl).
Defined.

Example extension_after_a_retry :
  let w := {| makedirs := fun _ => true;
              transport := fun k => if (k <? 1)%nat
                                    then Replied {| status_code := 503; content_type := None |}
                                    else Replied {| status_code := 200;
                                                    content_type := Some "text" |};
              write_file := fun _ => Ok 10%Z; elapsed := 1200%Z |} in
  exists res,
    _download_single_image Retry.Documented w sea_lion 30
    = (Ok res, {| requests_sent := 2; slept := [1] |})
    /\ is_successful res = false.
Proof. eexists. split; reflexivity. Qed.

(** ** Retries *)

(** C2, as the specification has it, fails: against a host that answers
    503 to every attempt the session makes four attempts, not three. *)
Lemma three_attempts_refuted :
  Retry.transient (transport busy_world 0) = true
  /\ Retry.transient (transport busy_world 1) = true
  /\ Retry.transient (transport busy_world 2) = true
  /\ Retry.transient (transport busy_world 3) = true
  /\ Retry.attempts (Retry.session_get Retry.Documented (transport busy_world)) = 4
  /\ Retry.attempts (Retry.session_get Retry.FirstImmediate (transport busy_world)) = 4
  /\ requests_sent (snd (_download_single_image Retry.Documented busy_world tiger 30)) <> 3.
Proof. repeat split; try reflexivity. discriminate. Qed.

(** A status outside the retry list honours [Retry-After] only if it is
    413. *)
Lemma retry_after_status (status : nat) :
  Retry.is_forced status = false ->
  existsb (Nat.eqb status) Retry.RETRY_AFTER_STATUS_CODES = (status =? 413)%nat.
Proof.
  unfold Retry.is_forced, Retry.status_forcelist, Retry.RETRY_AFTER_STATUS_CODES.
  cbn [existsb]. intros H.
  repeat (apply orb_false_iff in H; destruct H as [? H]).
  repeat match goal with E : (status =? _)%nat = false |- _ => rewrite E; clear E end.
  rewrite !orb_false_r. reflexivity.
Qed.

(** With a directory the worker's requests and sleeps are those of its
    one GET. *)
Lemma worker_log_is_the_get sch (w : World) request timeout :
  makedirs w (OsPath.dirname (target_path request)) = true ->
  snd (_download_single_image sch w request timeout)
  = {| requests_sent := Retry.attempts (Retry.session_get sch (transport w));
       slept := Retry.sleeps (Retry.session_get sch (transport w)) |}.
Proof.
  intros Hdir. unfold _download_single_image, _ensure_directory. rewrite Hdir. reflexivity.
Qed.

(** C2, amended.  The retry list is 403, 429, 500, 502, 503, 504 and the
    budget is three retries: with a directory the worker sends between
    one and four requests and sleeps once between any two.  When every
    attempt ends in a connection error, a timeout or a listed status, it
    makes the first attempt and three retries, four requests in all; the
    sleep after each failed attempt is the time its [Retry-After] header
    asks for, if it has one and asks for some, else the backoff; with no
    such header the sleeps are the backoff of the first retry, then 2
    and 4 seconds, so at least 3 seconds; then the worker returns a
    failed result with the timeout or the request-failed message.  An
    answer whose status is outside the list and that has no
    [Retry-After] header ends the GET at whichever attempt it comes:
    no request follows it, and an error status gives a failed result.
    An answer with a [Retry-After] header and a status outside the list
    is repeated only if the status is 413 and a retry is left; else it
    ends the GET as well.  When the directory cannot be made, no request
    is sent. *)
Theorem transient_failures_are_retried (sch : Retry.schedule) (w : World)
        (request : DownloadRequest) (timeout : Z) :
  let run := _download_single_image sch w request timeout in
  let got := Retry.session_get sch (transport w) in
  Retry.status_forcelist = [403; 429; 500; 502; 503; 504]
  /\ (makedirs w (OsPath.dirname (target_path request)) = true ->
      1 <= requests_sent (snd run) <= 4
      /\ S (length (slept (snd run))) = requests_sent (snd run))
  /\ (makedirs w (OsPath.dirname (target_path request)) = true ->
      (forall k, Retry.transient (transport w k) = true) ->
      requests_sent (snd run) = 4
      /\ slept (snd run) = [Retry.sleep sch 1 (transport w 0);
                            Retry.sleep sch 2 (transport w 1);
                            Retry.sleep sch 3 (transport w 2)]
      /\ ((forall k, Retry.retry_after (transport w k) = None) ->
          slept (snd run) = [Retry.get_backoff_time sch 1; 2; 4]
          /\ 3 <= list_sum (slept (snd run)))
      /\ exists res, fst run = Ok res /\ is_successful res = false
           /\ exists m, error_message res = Some m
                /\ (m = "Timeout downloading " +:+ name request
                        +:+ " from " +:+ image_url request
                    \/ exists why, m = "Request failed for " +:+ name request
                                       +:+ ": " +:+ why))
  /\ (makedirs w (OsPath.dirname (target_path request)) = true ->
      forall k r,
        k <= Retry.total ->
        (forall j, j < k -> Retry.retried (Retry.total - j) (transport w j) = true) ->
        transport w k = Replied r ->
        Retry.is_forced (status_code r) = false ->
        requests_sent (snd run) = S k
        /\ slept (snd run) = map (fun j => Retry.sleep sch (S j) (transport w j)) (seq 0 k)
        /\ Retry.outcome got = Ok r
        /\ (raise_for_status r <> Ok tt ->
            fst run = Ok (failed_download w request
                            ("Request failed for " +:+ name request
                             +:+ ": HTTP error status"))))
  /\ (makedirs w (OsPath.dirname (target_path request)) = true ->
      forall k r seconds,
        k <= Retry.total ->
        (forall j, j < k -> Retry.retried (Retry.total - j) (transport w j) = true) ->
        transport w k = RepliedRetryAfter r seconds ->
        Retry.is_forced (status_code r) = false ->
        (status_code r = 413 -> k < Retry.total ->
         S k < requests_sent (snd run)
         /\ nth k (slept (snd run)) 0
            = match seconds with
              | 0 => Retry.get_backoff_time sch (S k)
              | S _ => seconds
              end)
        /\ (status_code r <> 413 \/ k = Retry.total ->
            requests_sent (snd run) = S k
            /\ slept (snd run)
               = map (fun j => Retry.sleep sch (S j) (transport w j)) (seq 0 k)
            /\ Retry.outcome got = Ok r))
  /\ (makedirs w (OsPath.dirname (target_path request)) = false ->
      requests_sent (snd run) = 0 /\ slept (snd run) = []
      /\ fst run = Ok (failed_download w request "Failed to create target directory")).
Proof.
  intros run got. split; [reflexivity|].
  split; [|split; [|split; [|split]]].
  - intros Hdir. unfold run. rewrite (worker_log_is_the_get _ _ _ _ Hdir).
    cbn [requests_sent slept]. unfold Retry.session_get.
    pose proof (send_budget sch (transport w) Retry.total 0) as Hb.
    unfold Retry.total in *. lia.
  - intros Hdir Hall.
    assert (Hsend : got
              = {| Retry.outcome := Retry.exhausted (transport w 3);
                   Retry.attempts := 4;
                   Retry.sleeps := [Retry.sleep sch 1 (transport w 0);
                                    Retry.sleep sch 2 (transport w 1);
                                    Retry.sleep sch 3 (transport w 2)] |}).
    { unfold got, Retry.session_get, Retry.total.
      rewrite !send_transient_retry, send_transient_last by apply Hall. reflexivity. }
    unfold run. rewrite (worker_log_is_the_get _ _ _ _ Hdir). fold got. rewrite Hsend.
    cbn [requests_sent slept Retry.attempts Retry.sleeps].
    split; [reflexivity|]. split; [reflexivity|]. split.
    + intros Hnone.
      assert (Hs : [Retry.sleep sch 1 (transport w 0); Retry.sleep sch 2 (transport w 1);
                    Retry.sleep sch 3 (transport w 2)]
                   = [Retry.get_backoff_time sch 1; 2; 4]).
      { unfold Retry.sleep. rewrite !Hnone. destruct sch; reflexivity. }
      rewrite Hs. split; [reflexivity|]. simpl. lia.
    + unfold _download_single_image, _ensure_directory. rewrite Hdir.
      cbn [negb fst]. fold got. rewrite Hsend. cbn [Retry.outcome].
      destruct (exhausted_raises (transport w 3)) as [m [He|He]]; rewrite He;
        cbn [try_except mbind result_bind];
        (eexists; split; [reflexivity|]; split; [reflexivity|];
         eexists; split; [reflexivity|]).
      * now left.
      * right. now exists m.
  - intros Hdir k r Hk Hpre Hreply Hforced.
    assert (Hsend : got
              = {| Retry.outcome := Ok r;
                   Retry.attempts := S k;
                   Retry.sleeps := map (fun j => Retry.sleep sch (S j) (transport w j))
                                       (seq 0 k) |}).
    { unfold got, Retry.session_get.
      rewrite (send_prefix sch (transport w) k Retry.total 0 Hk Hpre).
      rewrite (send_not_transient sch (transport w) (Retry.total - k) (0 + k) r Hreply Hforced).
      cbn [Retry.outcome Retry.attempts Retry.sleeps].
      rewrite app_nil_r, Nat.add_1_r. reflexivity. }
    unfold run. rewrite (worker_log_is_the_get _ _ _ _ Hdir). fold got. rewrite Hsend.
    cbn [requests_sent slept Retry.attempts Retry.sleeps Retry.outcome].
    do 3 (split; [reflexivity|]).
    intros Hstatus. unfold _download_single_image, _ensure_directory. rewrite Hdir.
    cbn [negb fst]. fold got. rewrite Hsend. cbn [Retry.outcome mbind result_bind].
    unfold raise_for_status in *.
    destruct ((400 <=? status_code r)%nat && (status_code r <? 600)%nat);
      [reflexivity|contradiction].
  - intros Hdir k r seconds Hk Hpre Hreply Hforced.
    pose proof (send_prefix sch (transport w) k Retry.total 0 Hk Hpre) as Hsplit.
    assert (Hretried : Retry.retried (Retry.total - k) (transport w (0 + k))
                       = negb (Retry.total - k =? 0)%nat && (status_code r =? 413)%nat).
    { cbn [Nat.add]. rewrite Hreply. unfold Retry.retried, Retry.is_retry.
      rewrite Hforced, (retry_after_status _ Hforced), andb_true_r. reflexivity. }
    unfold run. rewrite (worker_log_is_the_get _ _ _ _ Hdir).
    unfold got, Retry.session_get. rewrite Hsplit.
    cbn [requests_sent slept Retry.attempts Retry.sleeps Retry.outcome].
    split.
    + intros H413 Hlt.
      destruct (Retry.total - k) as [|n] eqn:Hleft; [lia|].
      rewrite H413 in Hretried. cbn [Nat.eqb negb andb] in Hretried.
      change (413 =? 413)%nat with true in Hretried.
      rewrite (send_retried sch (transport w) n (0 + k) Hretried).
      cbn [Retry.attempts Retry.sleeps].
      pose proof (send_budget sch (transport w) n (S (0 + k))) as Hb.
      split; [lia|].
      rewrite app_nth2 by (rewrite length_map, length_seq; lia).
      rewrite length_map, length_seq, Nat.sub_diag. cbn [nth Nat.add].
      rewrite Hreply. unfold Retry.sleep. cbn [Retry.retry_after].
      destruct seconds; reflexivity.
    + intros Hother.
      assert (Hnot : Retry.retried (Retry.total - k) (transport w (0 + k)) = false).
      { rewrite Hretried. destruct Hother as [Hne| ->].
        - destruct (Nat.eqb_spec (status_code r) 413) as [E|_]; [contradiction|].
          apply andb_false_r.
        - rewrite Nat.sub_diag. reflexivity. }
      destruct (send_not_retried sch (transport w) _ _ Hnot) as (r' & Hwhich & Hsend).
      assert (r' = r) as ->.
      { cbn [Nat.add] in Hwhich. rewrite Hreply in Hwhich.
        destruct Hwhich as [H|[s' H]]; [discriminate H|]. now inversion H. }
      rewrite Hsend. cbn [Retry.attempts Retry.sleeps Retry.outcome].
      rewrite app_nil_r, Nat.add_1_r. repeat split.
  - intros Hdir. unfold run, _download_single_image, _ensure_directory. rewrite Hdir.
    cbn [negb snd fst requests_sent slept]. repeat split.
Qed.

Lemma transient_failures_are_retried_witness :
  (makedirs busy_world (OsPath.dirname (target_path tiger)) = true
   /\ Retry.transient (Replied {| status_code := 503; content_type := None |}) = true
   /\ requests_sent (snd (_download_single_image Retry.FirstImmediate busy_world tiger 30)) = 4
   /\ slept (snd (_download_single_image Retry.FirstImmediate busy_world tiger 30)) = [0; 2; 4]
   /\ 3 <= list_sum (slept (snd (_download_single_image Retry.FirstImmediate busy_world
                                   tiger 30))))
  /\ (transport late_404_world 2 = Replied {| status_code := 404; content_type := None |}
      /\ requests_sent (snd (_download_single_image Retry.Documented late_404_world tiger 30))
         = 3
      /\ slept (snd (_download_single_image Retry.Documented late_404_world tiger 30))
         = [1; 2]
      /\ fst (_download_single_image Retry.Documented late_404_world tiger 30)
         = Ok (failed_download late_404_world tiger
                 "Request failed for Tiger: HTTP error status"))
  /\ (transport too_large_world 0
      = RepliedRetryAfter {| status_code := 413; content_type := None |} 5
      /\ 1 < requests_sent (snd (_download_single_image Retry.Documented too_large_world
                                   tiger 30))
      /\ nth 0 (slept (snd (_download_single_image Retry.Documented too_large_world tiger 30)))
             0 = 5).
Proof.
  split; [|split].
  - split; [reflexivity|]. split; [reflexivity|].
    pose proof (transient_failures_are_retried Retry.FirstImmediate busy_world tiger 30)
      as (_ & _ & Hretry & _).
    destruct (Hretry eq_refl (fun k => eq_refl)) as (Hsent & _ & Hplain & _).
    destruct (Hplain (fun k => eq_refl)) as (Hslept & Hsum).
    split; [exact Hsent|]. split; [exact Hslept|exact Hsum].
  - split; [reflexivity|].
    pose proof (transient_failures_are_retried Retry.Documented late_404_world tiger 30)
      as (_ & _ & _ & Hterminal & _).
    assert (Hpre : forall j, j < 2 ->
              Retry.retried (Retry.total - j) (transport late_404_world j) = true).
    { intros [|[|j]] Hj; [reflexivity|reflexivity|lia]. }
    destruct (Hterminal eq_refl 2 {| status_code := 404; content_type := None |}
                ltac:(unfold Retry.total; lia) Hpre eq_refl eq_refl)
      as (Hsent & Hslept & _ & Hfailed).
    split; [exact Hsent|]. split; [exact Hslept|].
    apply Hfailed. discriminate.
  - split; [reflexivity|].
    pose proof (transient_failures_are_retried Retry.Documented too_large_world tiger 30)
      as (_ & _ & _ & _ & Hafter & _).
    assert (Hpre : forall j, j < 0 ->
              Retry.retried (Retry.total - j) (transport too_large_world j) = true)
      by (intros j Hj; lia).
    destruct (Hafter eq_refl 0 {| status_code := 413; content_type := None |} 5
                ltac:(unfold Retry.total; lia) Hpre eq_refl eq_refl) as (Hretried & _).
    exact (Hretried eq_refl ltac:(unfold Retry.total; lia)).
Defined.

(** A [Retry-After] of one second on the second and the third answer,
    under the schedule that retries the first time at once: the three
    sleeps add up to two seconds. *)
Example retry_after_shortens_the_wait :
  let w := {| makedirs := fun _ => true;
              transport := fun k =>
                match k with
                | 0 => Replied {| status_code := 503; content_type := None |}
                | _ => RepliedRetryAfter {| status_code := 503; content_type := None |} 1
                end;
              write_file := fun _ => Ok 0%Z; elapsed := 2100%Z |} in
  (forall k, Retry.transient (transport w k) = true)
  /\ snd (_download_single_image Retry.FirstImmediate w tiger 30)
     = {| requests_sent := 4; slept := [0; 1; 1] |}.
Proof. split; [intros [|k]; reflexivity|reflexivity]. Qed.

(** A 413 with [Retry-After] on the last attempt the budget allows is
    handed back, not raised as exhausted retries. *)
Example last_413_is_handed_back :
  let w := {| makedirs := fun _ => true;
              transport := fun _ =>
                RepliedRetryAfter {| status_code := 413; content_type := None |} 2;
              write_file := fun _ => Ok 0%Z; elapsed := 6100%Z |} in
  _download_single_image Retry.Documented w tiger 30
  = (Ok (failed_download w tiger "Request failed for Tiger: HTTP error status"),
     {| requests_sent := 4; slept := [2; 2; 2] |}).
Proof. reflexivity. Qed.

Example not_found_is_not_retried :
  let w := {| makedirs := fun _ => true;
              transport := fun _ => Replied {| status_code := 404; content_type := None |};
              write_file := fun _ => Ok 0%Z; elapsed := 1%Z |} in
  _download_single_image Retry.Documented w lion 30
  = (Ok (failed_download w lion "Request failed for Lion: HTTP error status"),
     {| requests_sent := 1; slept := [] |}).
Proof. reflexivity. Qed.

Example recovers_after_two_failures :
  let w := {| makedirs := fun _ => true;
              transport := fun k => if (k <? 2)%nat then ConnectionFailed
                                    else Replied {| status_code := 200;
                                                    content_type := Some "image/png" |};
              write_file := fun _ => Ok 10%Z; elapsed := 3500%Z |} in
  snd (_download_single_image Retry.Documented w lion 30)
  = {| requests_sent := 3; slept := [1; 2] |}.
Proof. reflexivity. Qed.

(** ** The cache *)

Lemma delete_keys_cons (k : string) (ks : list string) (m : gmap string CacheEntry) :
  delete_keys (k :: ks) m = delete_keys ks (delete k m).
Proof. reflexivity. Qed.

Lemma delete_keys_absent (ks : list string) (m : gmap string CacheEntry) (k : string) :
  m !! k = None -> delete_keys ks m !! k = None.
Proof.
  revert m. induction ks as [|k0 ks IH]; intros m Hm; [exact Hm|].
  rewrite delete_keys_cons. apply IH. destruct (decide (k0 = k)) as [->|Hne].
  - apply lookup_delete_eq.
  - rewrite lookup_delete_ne by exact Hne. exact Hm.
Qed.

Lemma delete_keys_removed (ks : list string) (m : gmap string CacheEntry) (k : string) :
  In k ks -> delete_keys ks m !! k = None.
Proof.
  revert m. induction ks as [|k0 ks IH]; intros m; [intros []|].
  rewrite delete_keys_cons. intros [->|Hin].
  - apply delete_keys_absent, lookup_delete_eq.
  - apply IH, Hin.
Qed.

Lemma delete_keys_kept (ks : list string) (m : gmap string CacheEntry) (k : string) :
  ~ In k ks -> delete_keys ks m !! k = m !! k.
Proof.
  revert m. induction ks as [|k0 ks IH]; intros m Hnin; [reflexivity|].
  rewrite delete_keys_cons, IH by (simpl in Hnin; tauto).
  apply lookup_delete_ne. intros ->. apply Hnin. now left.
Qed.

Lemma prefix_append (p s : string) : String.prefix p (p +:+ s) = true.
Proof.
  induction p as [|c p IH]; simpl; [destruct s; reflexivity|].
  destruct (ascii_dec c c); [exact IH|contradiction].
Qed.

Lemma append_assoc (a b c : string) : (a +:+ b) +:+ c = a +:+ b +:+ c.
Proof.
  induction a as [|x a IH]; [reflexivity|].
  change (String x ((a +:+ b) +:+ c) = String x (a +:+ b +:+ c)). now rewrite IH.
Qed.

Lemma cache_key_startswith (category item_name : string) :
  Py.startswith (_get_cache_key category item_name) (category +:+ ":") = true.
Proof.
  unfold Py.startswith, _get_cache_key.
  rewrite <- append_assoc. apply prefix_append.
Qed.

(** A read of a key that holds an entry: expired entries are dropped,
    the others are returned and the cache is as before. *)
Lemma get_image_url_stored (self : ImageCache) (now : Z) (category item_name : string)
      (e : CacheEntry) :
  _cache self !! _get_cache_key category item_name = Some e ->
  get_image_url self now category item_name
  = if (cached_at e + ttl_seconds self * 1000000 <? now)%Z
    then (None, {| ttl_seconds := ttl_seconds self;
                   _cache := delete (_get_cache_key category item_name) (_cache self) |})
    else (Some (url e), self).
Proof.
  intros He. unfold get_image_url, _is_expired. rewrite He.
  replace (ttl_seconds self * 1000000 <? now - cached_at e)%Z
    with (cached_at e + ttl_seconds self * 1000000 <? now)%Z; [reflexivity|].
  destruct (Z.ltb_spec (cached_at e + ttl_seconds self * 1000000) now),
           (Z.ltb_spec (ttl_seconds self * 1000000) (now - cached_at e)); try reflexivity; lia.
Qed.

(** C3.  Let an entry be stored at time [T] with locator [L] (times in
    microseconds, [ttl] being [ttl_seconds] in microseconds).  A read of
    its key at a time later than [T + ttl] returns nothing and leaves a
    cache without the key, and whenever statistics are taken afterwards
    the key is still not there and the reported number of items is the
    size of a cache without it.  A read at a time up to [T + ttl]
    returns [L] and leaves the cache as it was. *)
Theorem read_after_ttl_expires (self : ImageCache) (T : Z) (category item_name L : string)
        (meta : option (gmap string string)) (now : Z) :
  let stored := set_image_url self T category item_name L meta in
  let key := _get_cache_key category item_name in
  let ttl := (ttl_seconds self * 1000000)%Z in
  ((T + ttl < now)%Z ->
   fst (get_image_url stored now category item_name) = None
   /\ _cache (snd (get_image_url stored now category item_name)) !! key = None
   /\ forall later,
       let '(stats, cache') :=
         get_stats (snd (get_image_url stored now category item_name)) later in
       _cache cache' !! key = None
       /\ total_cached_items stats = size (_cache cache'))
  /\ ((now <= T + ttl)%Z ->
      get_image_url stored now category item_name = (Some L, stored)).
Proof.
  intros stored key ttl.
  assert (Hstored : _cache stored !! key
                    = Some {| url := L; cached_at := T; metadata := default ∅ meta |})
    by apply lookup_insert_eq.
  rewrite (get_image_url_stored _ _ _ _ _ Hstored).
  cbn [cached_at url]. change (ttl_seconds stored) with (ttl_seconds self). fold ttl. fold key.
  split.
  - intros Hlate. destruct (Z.ltb_spec (T + ttl) now) as [_|Hle]; [|lia].
    cbn [fst snd _cache]. split; [reflexivity|]. split; [apply lookup_delete_eq|].
    intros later. unfold get_stats. cbn [_cache total_cached_items].
    split; [|reflexivity]. apply delete_keys_absent, lookup_delete_eq.
  - intros Hearly. destruct (Z.ltb_spec (T + ttl) now) as [Hlt|_]; [lia|reflexivity].
Qed.

Lemma read_after_ttl_expires_witness :
  ((0 + ttl_seconds (new_ImageCache 24) * 1000000 < one_day + 1)%Z
   /\ fst (get_image_url
             (set_image_url (new_ImageCache 24) 0 "animals" "Lion" "https://e.org/l.png" None)
             (one_day + 1) "animals" "Lion") = None)
  /\ ((one_day <= 0 + ttl_seconds (new_ImageCache 24) * 1000000)%Z
      /\ get_image_url
           (set_image_url (new_ImageCache 24) 0 "animals" "Lion" "https://e.org/l.png" None)
           one_day "animals" "Lion"
         = (Some "https://e.org/l.png",
            set_image_url (new_ImageCache 24) 0 "animals" "Lion" "https://e.org/l.png" None)).
Proof.
  split.
  - split; [reflexivity|].
    apply (proj1 (read_after_ttl_expires (new_ImageCache 24) 0 "animals" "Lion"
                    "https://e.org/l.png" None (one_day + 1))).
    reflexivity.
  - split; [discriminate|].
    apply (proj2 (read_after_ttl_expires (new_ImageCache 24) 0 "animals" "Lion"
                    "https://e.org/l.png" None one_day)).
    discriminate.
Defined.

(** C9.  [clear_by_source_category] is [clear_by_category] on the
    category alone: the same count and the same cache for every source.
    Whatever the source named, no key of the category is left, so an
    entry that any scraper stored for the category is gone, and the keys
    of other categories stay when the category is not empty. *)
Theorem clear_ignores_source (self : ImageCache) (source source' category : string) :
  clear_by_source_category self source category = clear_by_category self (Some category)
  /\ clear_by_source_category self source category
     = clear_by_source_category self source' category
  /\ (forall (now : Z) (item_name image_url : string) (meta : option (gmap string string)),
        _cache (snd (clear_by_source_category
                       (set_image_url self now category item_name image_url meta)
                       source category))
          !! _get_cache_key category item_name = None)
  /\ (forall key,
        Py.startswith key (category +:+ ":") = true ->
        _cache (snd (clear_by_source_category self source category)) !! key = None)
  /\ (forall key,
        category <> EmptyString ->
        Py.startswith key (category +:+ ":") = false ->
        _cache (snd (clear_by_source_category self source category)) !! key
        = _cache self !! key).
Proof.
  split; [reflexivity|]. split; [reflexivity|].
  assert (Hgone : forall (c : ImageCache) key,
             Py.startswith key (category +:+ ":") = true ->
             _cache (snd (clear_by_source_category c source category)) !! key = None).
  { intros c key Hkey. unfold clear_by_source_category, clear_by_category.
    destruct category as [|ch rest]; cbn [snd _cache]; [apply lookup_empty|].
    destruct (_cache c !! key) as [e|] eqn:He.
    - apply delete_keys_removed. apply filter_In. split; [|exact Hkey].
      apply in_map_iff. exists (key, e). split; [reflexivity|].
      apply list_elem_of_In, elem_of_map_to_list, He.
    - apply delete_keys_absent, He. }
  split; [|split].
  - intros now item_name image_url meta. apply Hgone, cache_key_startswith.
  - intros key. apply Hgone.
  - intros key Hne Hkey. unfold clear_by_source_category, clear_by_category.
    destruct category as [|ch rest]; [contradiction|]. cbn [snd _cache].
    apply delete_keys_kept. intros Hin. apply filter_In in Hin as [_ Hp]. congruence.
Qed.

Lemma clear_ignores_source_witness :
  Py.startswith "animals:tiger" ("animals" +:+ ":") = true
  /\ _cache (snd (clear_by_source_category shared_cache "wikipedia" "animals"))
       !! "animals:tiger" = None
  /\ "animals" <> EmptyString
  /\ Py.startswith "plants:oak" ("animals" +:+ ":") = false
  /\ _cache (snd (clear_by_source_category shared_cache "wikipedia" "animals"))
       !! "plants:oak" = _cache shared_cache !! "plants:oak".
Proof.
  pose proof (clear_ignores_source shared_cache "wikipedia" "other" "animals")
    as (_ & _ & _ & Hgone & Hkept).
  split; [reflexivity|]. split; [apply Hgone; reflexivity|].
  split; [discriminate|]. split; [reflexivity|].
  apply Hkept; [discriminate|reflexivity].
Defined.

Example clear_counts_both_sources :
  fst (clear_by_source_category shared_cache "wikipedia" "animals") = 2.
Proof. vm_compute. reflexivity. Qed.

(** ** The orchestrator's filter *)

(** C4, as the specification has it, fails: an item without an image URL
    has no file on disk, so the probe is false for it, and yet the plan
    does not contain it. *)
Lemma plan_drops_item_without_url :
  image_exists sample_fs "/tmp/wikipedia_animals" no_image = false
  /\ _check_existing_images sample_fs "wikipedia" "animals" [no_image; with_image]
     = [with_image]
  /\ _check_existing_images sample_fs "wikipedia" "animals" [no_image; with_image]
     <> List.filter (fun item => negb (image_exists sample_fs "/tmp/wikipedia_animals" item))
                    [no_image; with_image].
Proof.
  split; [vm_compute; reflexivity|]. split; [vm_compute; reflexivity|].
  vm_compute. discriminate.
Qed.

Lemma filter_sublist {A : Type} (f : A -> bool) (l : list A) :
  sublist (List.filter f l) l.
Proof.
  induction l as [|x l IH]; simpl; [constructor|].
  destruct (f x); [apply sublist_skip|apply sublist_cons]; exact IH.
Qed.

Lemma nonempty_file_spec (fs : gmap string Z) (file_path : string) :
  nonempty_file fs file_path = true
  <-> exists size, fs !! file_path = Some size /\ (0 < size)%Z.
Proof.
  unfold nonempty_file. destruct (fs !! file_path) as [size|].
  - rewrite Z.ltb_lt. split; [eauto|]. intros (s & Hs & Hpos). now inversion Hs; subst.
  - split; [discriminate|]. intros (s & Hs & _). discriminate.
Qed.

(** C4, amended.  [_check_existing_images] keeps, in their order, exactly
    the items that have an image URL and for which the probe is false; it
    drops the items whose image exists and also the items without an
    image URL.  The probe is true exactly when, under one of [.jpg],
    [.jpeg], [.png], [.gif], the file named after the item exists in the
    directory of the source and category with a size above zero. *)
Theorem plan_keeps_items_to_fetch (fs : gmap string Z) (source category : string)
        (items : list Item) :
  let base_path := "/tmp/" +:+ source +:+ "_" +:+ category in
  let plan := _check_existing_images fs source category items in
  plan = List.filter (fun item => negb (no_url item)
                                  && negb (image_exists fs base_path item)) items
  /\ sublist plan items
  /\ (forall item,
        In item plan <->
        In item items /\ no_url item = false /\ image_exists fs base_path item = false)
  /\ (forall item,
        image_exists fs base_path item = true <->
        exists ext size,
          In ext [".jpg"; ".jpeg"; ".png"; ".gif"]
          /\ fs !! (base_path +:+ "/"
                    +:+ Py.replace " " "_" (Py.lower (default "unknown" (item_name item)))
                    +:+ ext) = Some size
          /\ (0 < size)%Z).
Proof.
  intros base_path plan.
  assert (Hplan : plan = List.filter (fun item => negb (no_url item)
                           && negb (image_exists fs base_path item)) items).
  { unfold plan, _check_existing_images. fold base_path.
    induction items as [|item rest IH]; [reflexivity|].
    cbn [check_items List.filter].
    destruct (no_url item); cbn [negb andb]; [exact IH|].
    destruct (image_exists fs base_path item); cbn [negb]; [exact IH|].
    now rewrite IH. }
  split; [exact Hplan|]. split; [rewrite Hplan; apply filter_sublist|]. split.
  - intros item. rewrite Hplan, filter_In, andb_true_iff, !negb_true_iff. tauto.
  - intros item. unfold image_exists. rewrite existsb_exists. split.
    + intros (ext & Hin & Hfile). apply nonempty_file_spec in Hfile as (size & Hs & Hpos).
      exists ext, size. auto.
    + intros (ext & size & Hin & Hs & Hpos). exists ext. split; [exact Hin|].
      apply nonempty_file_spec. eauto.
Qed.

Example plan_on_sample :
  _check_existing_images sample_fs "wikipedia" "animals" [on_disk; no_image; with_image]
  = [with_image].
Proof. vm_compute. reflexivity. Qed.

Lemma plan_keeps_items_to_fetch_witness :
  In with_image [on_disk; no_image; with_image]
  /\ no_url with_image = false
  /\ image_exists sample_fs ("/tmp/" +:+ "wikipedia" +:+ "_" +:+ "animals") with_image = false
  /\ In with_image
        (_check_existing_images sample_fs "wikipedia" "animals"
                                [on_disk; no_image; with_image]).
Proof.
  assert (Hin : In with_image [on_disk; no_image; with_image]) by (simpl; tauto).
  assert (Hprobe : image_exists sample_fs ("/tmp/" +:+ "wikipedia" +:+ "_" +:+ "animals")
                                with_image = false) by (vm_compute; reflexivity).
  split; [exact Hin|]. split; [reflexivity|]. split; [exact Hprobe|].
  pose proof (plan_keeps_items_to_fetch sample_fs "wikipedia" "animals"
                [on_disk; no_image; with_image]) as (_ & _ & Hiff & _).
  apply Hiff. split; [exact Hin|]. split; [reflexivity|exact Hprobe].
Defined.

(** * Further properties of the code *)

(** ** The cache: keys, overwriting and what a read may change *)

Lemma lower_char_idempotent (c : ascii) : Py.lower_char (Py.lower_char c) = Py.lower_char c.
Proof.
  destruct c as [[] [] [] [] [] [] [] []]; reflexivity.
Qed.

Lemma lower_idempotent (s : string) : Py.lower (Py.lower s) = Py.lower s.
Proof.
  induction s as [|c s IH]; simpl; [reflexivity|].
  now rewrite lower_char_idempotent, IH.
Qed.

Lemma lower_append (a b : string) : Py.lower (a +:+ b) = Py.lower a +:+ Py.lower b.
Proof.
  induction a as [|c a IH]; [reflexivity|].
  change (String (Py.lower_char c) (Py.lower (a +:+ b))
          = String (Py.lower_char c) (Py.lower a +:+ Py.lower b)).
  now rewrite IH.
Qed.

(** X1.  The item name of a lookup is case-folded: an entry stored under
    one spelling is found under every spelling with the same lower-case
    form, as long as it has not expired. *)
Theorem cached_url_found_in_any_case (self : ImageCache) (T now : Z)
        (category stored_name asked_name L : string)
        (meta : option (gmap string string)) :
  Py.lower stored_name = Py.lower asked_name ->
  (now <= T + ttl_seconds self * 1000000)%Z ->
  get_image_url (set_image_url self T category stored_name L meta) now category asked_name
  = (Some L, set_image_url self T category stored_name L meta).
Proof.
  intros Hcase Hfresh.
  rewrite (get_image_url_stored _ _ _ _
             {| url := L; cached_at := T; metadata := default ∅ meta |}).
  - cbn [cached_at url ttl_seconds set_image_url].
    destruct (Z.ltb_spec (T + ttl_seconds self * 1000000) now); [lia|reflexivity].
  - unfold set_image_url, _get_cache_key. cbn [_cache]. rewrite <- Hcase.
    apply lookup_insert_eq.
Qed.

Lemma cached_url_found_in_any_case_witness :
  Py.lower "Sea Lion" = Py.lower "SEA LION"
  /\ (5 <= 0 + ttl_seconds (new_ImageCache 24) * 1000000)%Z
  /\ fst (get_image_url
            (set_image_url (new_ImageCache 24) 0 "animals" "Sea Lion" "https://e.org/s.png" None)
            5 "animals" "SEA LION") = Some "https://e.org/s.png".
Proof.
  split; [reflexivity|]. split; [discriminate|].
  rewrite (cached_url_found_in_any_case (new_ImageCache 24) 0 5 "animals" "Sea Lion"
             "SEA LION" "https://e.org/s.png" None eq_refl); [reflexivity|discriminate].
Defined.

(** X2.  Storing is an upsert: a second store under the same key leaves
    one entry, the later one; the cache is what storing only the second
    would have given, and reads are judged by the second time stamp. *)
Theorem set_image_url_overwrites (self : ImageCache) (T1 T2 now : Z)
        (category item_name L1 L2 : string) (m1 m2 : option (gmap string string)) :
  let once := set_image_url self T1 category item_name L1 m1 in
  let twice := set_image_url once T2 category item_name L2 m2 in
  twice = set_image_url self T2 category item_name L2 m2
  /\ size (_cache twice) = size (_cache once)
  /\ ((now <= T2 + ttl_seconds self * 1000000)%Z ->
      get_image_url twice now category item_name = (Some L2, twice)).
Proof.
  intros once twice.
  assert (Heq : twice = set_image_url self T2 category item_name L2 m2).
  { unfold twice, once, set_image_url. cbn [_cache ttl_seconds]. f_equal.
    apply insert_insert_eq. }
  split; [exact Heq|]. split.
  - unfold twice, once, set_image_url. cbn [_cache].
    rewrite insert_insert_eq.
    destruct (_cache self !! _get_cache_key category item_name) as [e|] eqn:He.
    + rewrite !map_size_insert_Some; eauto.
    + rewrite !map_size_insert_None; auto.
  - intros Hfresh.
    rewrite (get_image_url_stored _ _ _ _
               {| url := L2; cached_at := T2; metadata := default ∅ m2 |}).
    + cbn [cached_at url]. change (ttl_seconds twice) with (ttl_seconds self).
      destruct (Z.ltb_spec (T2 + ttl_seconds self * 1000000) now); [lia|reflexivity].
    + apply lookup_insert_eq.
Qed.

Lemma set_image_url_overwrites_witness :
  (one_day + 10 <= 20 + ttl_seconds (new_ImageCache 24) * 1000000)%Z
  /\ fst (get_image_url
            (set_image_url
               (set_image_url (new_ImageCache 24) 0 "animals" "Lion" "https://e.org/a.png" None)
               20 "animals" "Lion" "https://e.org/b.png" None)
            (one_day + 10) "animals" "Lion") = Some "https://e.org/b.png".
Proof.
  split; [discriminate|].
  destruct (set_image_url_overwrites (new_ImageCache 24) 0 20 (one_day + 10) "animals" "Lion"
              "https://e.org/a.png" "https://e.org/b.png" None None) as (_ & _ & Hread).
  rewrite Hread; [reflexivity|discriminate].
Defined.

(** X3.  A read changes nothing but its own key: the TTL stays, every
    other key keeps its entry, nothing is ever added, and a read that
    returns a URL leaves the cache as it was. *)
Theorem get_image_url_touches_only_its_key (self : ImageCache) (now : Z)
        (category item_name : string) :
  let after := snd (get_image_url self now category item_name) in
  ttl_seconds after = ttl_seconds self
  /\ (forall key, key <> _get_cache_key category item_name ->
                  _cache after !! key = _cache self !! key)
  /\ _cache after ⊆ _cache self
  /\ (forall u, fst (get_image_url self now category item_name) = Some u -> after = self).
Proof.
  intros after. unfold after, get_image_url.
  destruct (_cache self !! _get_cache_key category item_name) as [e|] eqn:He.
  - destruct (_is_expired self now (cached_at e)); cbn [fst snd ttl_seconds _cache].
    + split; [reflexivity|]. split; [intros key Hk; now apply lookup_delete_ne|].
      split; [apply delete_subseteq|]. discriminate.
    + split; [reflexivity|]. split; [reflexivity|]. split; [done|reflexivity].
  - cbn [fst snd]. split; [reflexivity|]. split; [reflexivity|]. split; [done|discriminate].
Qed.

Lemma get_image_url_touches_only_its_key_witness :
  "plants:oak" <> _get_cache_key "animals" "Lion"
  /\ _cache (snd (get_image_url shared_cache (one_day + 1) "animals" "Lion")) !! "plants:oak"
     = _cache shared_cache !! "plants:oak".
Proof.
  split; [discriminate|].
  apply (get_image_url_touches_only_its_key shared_cache (one_day + 1) "animals" "Lion").
  discriminate.
Defined.

(** X4.  [has_changed] answers false exactly when the key holds an entry
    that has not expired and whose URL is the one asked about; in every
    other case (nothing cached, expired, another URL) it answers true.
    Its effect on the cache is that of the read it makes. *)
Theorem has_changed_false_iff (self : ImageCache) (now : Z)
        (category item_name new_url : string) :
  (fst (has_changed self now category item_name new_url) = false
   <-> exists e, _cache self !! _get_cache_key category item_name = Some e
                 /\ url e = new_url
                 /\ (now <= cached_at e + ttl_seconds self * 1000000)%Z)
  /\ snd (has_changed self now category item_name new_url)
     = snd (get_image_url self now category item_name).
Proof.
  unfold has_changed.
  destruct (_cache self !! _get_cache_key category item_name) as [e|] eqn:He.
  - rewrite (get_image_url_stored _ _ _ _ _ He).
    destruct (Z.ltb_spec (cached_at e + ttl_seconds self * 1000000) now) as [Hlate|Hfresh];
      cbn [fst snd].
    + split; [|reflexivity]. rewrite negb_false_iff, bool_decide_eq_true.
      split; [discriminate|]. intros (e' & He' & _ & Hle). inversion He'; subst. lia.
    + split; [|reflexivity]. rewrite negb_false_iff, bool_decide_eq_true. split.
      * intros Hu. inversion Hu. exists e. auto.
      * intros (e' & He' & Hu & _). inversion He'; subst. reflexivity.
  - unfold get_image_url. rewrite He. cbn [fst snd]. split; [|reflexivity].
    rewrite negb_false_iff, bool_decide_eq_true. split; [discriminate|].
    intros (e' & He' & _). discriminate.
Qed.

Lemma has_changed_false_iff_witness :
  fst (has_changed shared_cache 7 "animals" "TIGER" "https://other.example/tiger.png") = false
  /\ fst (has_changed shared_cache 7 "animals" "Tiger" "https://other.example/new.png") = true
  /\ fst (has_changed shared_cache 7 "animals" "Yak" "https://other.example/yak.png") = true.
Proof.
  split; [|split; reflexivity].
  apply (proj1 (has_changed_false_iff shared_cache 7 "animals" "TIGER"
                  "https://other.example/tiger.png")).
  eexists. split; [reflexivity|]. split; [reflexivity|discriminate].
Defined.

(** ** The cache: statistics and clearing *)

Lemma delete_keys_size (ks : list string) (m : gmap string CacheEntry) :
  NoDup ks -> (forall k, In k ks -> is_Some (m !! k)) ->
  size (delete_keys ks m) + length ks = size m.
Proof.
  revert m. induction ks as [|k ks IH]; intros m Hnd Hin; [simpl; lia|].
  rewrite delete_keys_cons. apply NoDup_cons in Hnd as [Hk Hnd].
  destruct (Hin k (or_introl eq_refl)) as [e He].
  assert (Hsize : size m = S (size (delete k m))).
  { rewrite <- (insert_delete_id m k e He) at 1.
    apply map_size_insert_None, lookup_delete_eq. }
  rewrite Hsize. cbn [length]. rewrite <- (IH (delete k m)); [lia|exact Hnd|].
  intros k' Hk'. rewrite lookup_delete_ne.
  - apply Hin. now right.
  - intros ->. apply Hk, list_elem_of_In, Hk'.
Qed.

Lemma in_filtered_keys (P : string * CacheEntry -> bool) (m : gmap string CacheEntry)
      (k : string) :
  In k (map fst (List.filter P (map_to_list m)))
  <-> exists e, m !! k = Some e /\ P (k, e) = true.
Proof.
  rewrite in_map_iff. split.
  - intros ([k' e] & Hk & Hin). simpl in Hk. subst k'.
    apply filter_In in Hin as [Hin HP]. exists e. split; [|exact HP].
    apply elem_of_map_to_list, list_elem_of_In, Hin.
  - intros (e & He & HP). exists (k, e). split; [reflexivity|].
    apply filter_In. split; [|exact HP].
    apply list_elem_of_In, elem_of_map_to_list, He.
Qed.

Lemma NoDup_filtered_keys (P : string * CacheEntry -> bool) (m : gmap string CacheEntry) :
  NoDup (map fst (List.filter P (map_to_list m))).
Proof.
  pose proof (NoDup_fst_map_to_list m) as Hnd.
  induction (map_to_list m) as [|[k e] l IH]; [constructor|].
  cbn [fmap list_fmap] in Hnd. apply NoDup_cons in Hnd as [Hk Hnd].
  cbn [List.filter]. destruct (P (k, e)); [|apply IH, Hnd].
  cbn [map fst]. apply NoDup_cons. split; [|apply IH, Hnd].
  intros Hin. apply Hk. apply list_elem_of_In in Hin. apply list_elem_of_In.
  apply in_map_iff in Hin as ([k' e'] & Hk' & Hin). simpl in Hk'. subst k'.
  apply filter_In in Hin as [Hin _].
  apply in_map_iff. exists (k, e'). split; [reflexivity|exact Hin].
Qed.

(** What [get_stats] leaves under a key. *)
Lemma get_stats_lookup (self : ImageCache) (now : Z) (key : string) :
  _cache (snd (get_stats self now)) !! key
  = match _cache self !! key with
    | Some e => if _is_expired self now (cached_at e) then None else Some e
    | None => None
    end.
Proof.
  unfold get_stats. cbn [snd _cache].
  destruct (_cache self !! key) as [e|] eqn:He.
  - destruct (_is_expired self now (cached_at e)) eqn:Hx.
    + apply delete_keys_removed, in_filtered_keys. exists e. auto.
    + rewrite delete_keys_kept; [exact He|].
      intros Hin. apply in_filtered_keys in Hin as (e' & He' & HP).
      rewrite He in He'. inversion He'; subst e'. simpl in HP. congruence.
  - apply delete_keys_absent, He.
Qed.

(** X5.  [get_stats] purges exactly the expired entries: afterwards a key
    holds its old entry if that entry has not expired at the time of the
    call and nothing otherwise; the number of items reported and the
    number reported as cleaned add up to the number of entries before,
    and the TTL is reported in whole hours. *)
Theorem get_stats_purges_expired (self : ImageCache) (now : Z) :
  let stats := fst (get_stats self now) in
  let after := snd (get_stats self now) in
  (forall key,
      _cache after !! key
      = match _cache self !! key with
        | Some e => if _is_expired self now (cached_at e) then None else Some e
        | None => None
        end)
  /\ total_cached_items stats + expired_cleaned stats = size (_cache self)
  /\ total_cached_items stats = size (_cache after)
  /\ ttl_hours stats = (ttl_seconds self / 3600)%Z
  /\ ttl_seconds after = ttl_seconds self.
Proof.
  intros stats after. split; [apply get_stats_lookup|].
  unfold stats, after, get_stats.
  cbn [fst snd _cache total_cached_items expired_cleaned ttl_hours ttl_seconds].
  split; [|repeat split].
  apply delete_keys_size; [apply NoDup_filtered_keys|].
  intros k Hin. apply in_filtered_keys in Hin as (e & He & _). eauto.
Qed.

Example stats_on_shared_cache :
  fst (get_stats shared_cache (one_day + 7))
  = {| total_cached_items := 1; ttl_hours := 24; expired_cleaned := 2 |}.
Proof. vm_compute. reflexivity. Qed.

(** X6.  After [get_stats] no expired entry is left for that time: taking
    the statistics again at the same time cleans nothing and changes
    nothing, and a read of any key that is still there returns its URL. *)
Theorem get_stats_leaves_only_fresh (self : ImageCache) (now : Z) :
  let after := snd (get_stats self now) in
  get_stats after now
  = ({| total_cached_items := total_cached_items (fst (get_stats self now));
        ttl_hours := ttl_hours (fst (get_stats self now));
        expired_cleaned := 0 |}, after)
  /\ (forall category item_name e,
        _cache after !! _get_cache_key category item_name = Some e ->
        get_image_url after now category item_name = (Some (url e), after)).
Proof.
  intros after.
  pose proof (get_stats_lookup self now) as Hlook. fold after in Hlook.
  assert (Httl : ttl_seconds after = ttl_seconds self) by reflexivity.
  assert (Hfresh : forall k e, _cache after !! k = Some e ->
                               _is_expired after now (cached_at e) = false).
  { intros k e He. rewrite Hlook in He.
    destruct (_cache self !! k) as [e'|]; [|discriminate].
    destruct (_is_expired self now (cached_at e')) eqn:Hx; [discriminate|].
    inversion He; subst e'. unfold _is_expired in *. now rewrite Httl. }
  assert (Hnone : List.filter (fun kv : string * CacheEntry =>
                                 _is_expired after now (cached_at (snd kv)))
                              (map_to_list (_cache after)) = []).
  { assert (Hall : forall kv, In kv (map_to_list (_cache after)) ->
                              _is_expired after now (cached_at (snd kv)) = false).
    { intros [k e] Hin. apply (Hfresh k). apply elem_of_map_to_list, list_elem_of_In, Hin. }
    induction (map_to_list (_cache after)) as [|kv l IH]; [reflexivity|].
    cbn [List.filter]. rewrite (Hall kv (or_introl eq_refl)).
    apply IH. intros kv' Hin. apply Hall. now right. }
  split.
  - unfold get_stats at 1. rewrite Hnone. cbn [map delete_keys foldl length].
    reflexivity.
  - intros category item_name e He. unfold get_image_url.
    rewrite He, (Hfresh _ _ He). reflexivity.
Qed.

Lemma get_stats_leaves_only_fresh_witness :
  _cache (snd (get_stats shared_cache (one_day + 7))) !! _get_cache_key "plants" "Oak"
  = Some {| url := "https://en.wikipedia.org/oak.png"; cached_at := 9; metadata := ∅ |}
  /\ fst (get_image_url (snd (get_stats shared_cache (one_day + 7))) (one_day + 7)
                        "plants" "Oak")
     = Some "https://en.wikipedia.org/oak.png".
Proof.
  assert (H : _cache (snd (get_stats shared_cache (one_day + 7)))
                !! _get_cache_key "plants" "Oak"
              = Some {| url := "https://en.wikipedia.org/oak.png"; cached_at := 9;
                        metadata := ∅ |}) by (vm_compute; reflexivity).
  split; [exact H|].
  rewrite (proj2 (get_stats_leaves_only_fresh shared_cache (one_day + 7)) _ _ _ H).
  reflexivity.
Defined.

(** X7.  Clearing reports what it removed: the count returned is the
    number of entries before less the number after, the TTL is kept, and
    with no category, or with the empty string as category, the cache is
    empty afterwards. *)
Theorem clear_by_category_count (self : ImageCache) (category : option string) :
  let cleared := fst (clear_by_category self category) in
  let after := snd (clear_by_category self category) in
  size (_cache after) + cleared = size (_cache self)
  /\ ttl_seconds after = ttl_seconds self
  /\ _cache after ⊆ _cache self
  /\ (category = None \/ category = Some EmptyString -> _cache after = ∅).
Proof.
  intros cleared after. unfold cleared, after, clear_by_category.
  destruct category as [[|c rest]|]; cbn [fst snd _cache ttl_seconds].
  - rewrite map_size_empty. split; [reflexivity|]. split; [reflexivity|].
    split; [apply map_empty_subseteq|reflexivity].
  - set (keys := List.filter _ _).
    split; [|split; [reflexivity|split]].
    + apply delete_keys_size.
      * subst keys. apply NoDup_ListNoDup, List.NoDup_filter, NoDup_ListNoDup.
        apply (NoDup_fst_map_to_list (_cache self)).
      * intros k Hin. apply filter_In in Hin as [Hin _].
        apply in_map_iff in Hin as ([k' e] & Hk & Hin). simpl in Hk. subst k'.
        exists e. apply elem_of_map_to_list, list_elem_of_In, Hin.
    + apply map_subseteq_spec. intros k e He.
      destruct (in_dec string_dec k keys) as [Hin|Hnin].
      * rewrite delete_keys_removed in He by exact Hin. discriminate.
      * rewrite delete_keys_kept in He by exact Hnin. exact He.
    + intros [H|H]; discriminate.
  - rewrite map_size_empty. split; [reflexivity|]. split; [reflexivity|].
    split; [apply map_empty_subseteq|reflexivity].
Qed.

Lemma clear_by_category_count_witness :
  (Some EmptyString = None \/ Some EmptyString = Some EmptyString)
  /\ _cache (snd (clear_by_category shared_cache (Some EmptyString))) = ∅.
Proof.
  split; [now right|].
  apply (clear_by_category_count shared_cache (Some EmptyString)). now right.
Defined.

Lemma clear_removes_prefixed (self : ImageCache) (c : ascii) (rest key : string) :
  Py.startswith key (String c rest +:+ ":") = true ->
  _cache (snd (clear_by_category self (Some (String c rest)))) !! key = None.
Proof.
  intros Hkey. unfold clear_by_category. cbn [snd _cache].
  destruct (_cache self !! key) as [e|] eqn:He.
  - apply delete_keys_removed. apply filter_In. split; [|exact Hkey].
    apply in_map_iff. exists (key, e). split; [reflexivity|].
    apply list_elem_of_In, elem_of_map_to_list, He.
  - apply delete_keys_absent, He.
Qed.

(** X8.  Keys are the category, a colon and the folded name, with nothing
    escaped.  So an entry stored for category [c:a] under name [b] is the
    entry of category [c] under name [a:b], and clearing category [c]
    also removes the entries of every category [c:rest]. *)
Theorem cache_keys_are_not_escaped (self : ImageCache) (T now : Z)
        (c a b rest L : string) (meta : option (gmap string string)) :
  _get_cache_key (c +:+ ":" +:+ Py.lower a) b = _get_cache_key c (a +:+ ":" +:+ b)
  /\ ((now <= T + ttl_seconds self * 1000000)%Z ->
      fst (get_image_url (set_image_url self T (c +:+ ":" +:+ Py.lower a) b L meta)
                         now c (a +:+ ":" +:+ b)) = Some L)
  /\ _cache (snd (clear_by_category
                    (set_image_url self T (c +:+ ":" +:+ rest) b L meta) (Some c)))
       !! _get_cache_key (c +:+ ":" +:+ rest) b = None.
Proof.
  assert (Hkey : _get_cache_key (c +:+ ":" +:+ Py.lower a) b
                 = _get_cache_key c (a +:+ ":" +:+ b)).
  { unfold _get_cache_key. rewrite !lower_append, !append_assoc. reflexivity. }
  split; [exact Hkey|]. split.
  - intros Hfresh.
    rewrite (get_image_url_stored _ _ _ _
               {| url := L; cached_at := T; metadata := default ∅ meta |}).
    + cbn [cached_at url ttl_seconds set_image_url].
      destruct (Z.ltb_spec (T + ttl_seconds self * 1000000) now); [lia|reflexivity].
    + rewrite <- Hkey. apply lookup_insert_eq.
  - destruct c as [|ch c'].
    + apply lookup_empty.
    + apply clear_removes_prefixed. unfold Py.startswith, _get_cache_key.
      rewrite !append_assoc.
      rewrite <- (append_assoc (String ch c') ":" (rest +:+ ":" +:+ Py.lower b)).
      apply prefix_append.
Qed.

Lemma cache_keys_are_not_escaped_witness :
  (3 <= 0 + ttl_seconds (new_ImageCache 24) * 1000000)%Z
  /\ fst (get_image_url
            (set_image_url (new_ImageCache 24) 0 ("animals" +:+ ":" +:+ Py.lower "Big") "Cat"
                           "https://e.org/c.png" None)
            3 "animals" ("Big" +:+ ":" +:+ "Cat")) = Some "https://e.org/c.png".
Proof.
  split; [discriminate|].
  apply (cache_keys_are_not_escaped (new_ImageCache 24) 0 3 "animals" "Big" "Cat" ""
           "https://e.org/c.png" None).
  discriminate.
Defined.

(** ** The workflow *)

Lemma split_at_first (c : ascii) (s : string) :
  Py.contains c s = true ->
  s = Url.before_first c s +:+ String c (after_first c s)
  /\ Py.contains c (Url.before_first c s) = false.
Proof.
  induction s as [|d s IH]; simpl; [discriminate|].
  destruct (Ascii.eqb d c) eqn:E.
  - apply Ascii.eqb_eq in E. subst d. intros _. split; reflexivity.
  - intros Hc. destruct (IH Hc) as [Hs Hno]. split.
    + change (String d s = String d (Url.before_first c s +:+ String c (after_first c s))).
      now rewrite <- Hs.
    + simpl. now rewrite E.
Qed.

Lemma first_of_joined (c : ascii) (a b : string) :
  Py.contains c a = false ->
  Py.contains c (a +:+ String c b) = true
  /\ Url.before_first c (a +:+ String c b) = a
  /\ after_first c (a +:+ String c b) = b.
Proof.
  induction a as [|d a IH]; intros Hno.
  - change (EmptyString +:+ String c b) with (String c b). simpl.
    rewrite Ascii.eqb_refl. auto.
  - change (String d a +:+ String c b) with (String d (a +:+ String c b)).
    simpl in Hno. simpl. destruct (Ascii.eqb d c); [discriminate|].
    destruct (IH Hno) as (H1 & H2 & H3). rewrite H1, H2, H3. auto.
Qed.

(** X9.  A trigger parses to a source and a category exactly when it is
    the source, a hyphen and the category, the source having no hyphen
    (the category may have some); it is refused with [ValueError]
    exactly when it has no hyphen at all. *)
Theorem parse_trigger_round_trip (trigger source category : string) :
  (_parse_trigger trigger = Ok (source, category)
   <-> trigger = source +:+ "-" +:+ category /\ Py.contains "-" source = false)
  /\ (Py.contains "-" trigger = false
      <-> exists m, _parse_trigger trigger = Raise (ValueError m)).
Proof.
  unfold _parse_trigger. split; split.
  - destruct (Py.contains "-" trigger) eqn:Hc; cbn [negb]; [|discriminate].
    intros H. inversion H; subst. apply (split_at_first "-"), Hc.
  - intros [-> Hno]. destruct (first_of_joined "-" source category Hno) as (H1 & H2 & H3).
    change (source +:+ "-" +:+ category) with (source +:+ String "-" category).
    rewrite H1, H2, H3. reflexivity.
  - intros ->. cbn [negb]. eauto.
  - destruct (Py.contains "-" trigger); [|reflexivity].
    cbn [negb]. intros [m Hm]. discriminate.
Qed.

Example parse_trigger_examples :
  _parse_trigger "wikipedia-animals" = Ok ("wikipedia", "animals")
  /\ _parse_trigger "wikipedia-sea-animals" = Ok ("wikipedia", "sea-animals")
  /\ _parse_trigger "-" = Ok ("", "").
Proof. repeat split. Qed.

Lemma check_items_in (fs : gmap string Z) (base_path : string) (items : list Item)
      (item : Item) :
  In item (check_items fs base_path items) ->
  In item items /\ no_url item = false /\ image_exists fs base_path item = false.
Proof.
  induction items as [|x rest IH]; simpl; [tauto|].
  destruct (no_url x) eqn:Hu; [intros H; apply IH in H; tauto|].
  destruct (image_exists fs base_path x) eqn:Hx; [intros H; apply IH in H; tauto|].
  intros [->|H]; [auto|apply IH in H; tauto].
Qed.

(** X10.  A run succeeds exactly when it was not already running, the
    trigger parses, both services are healthy, the scraper returns at
    least one item, the download (made only if some image is missing)
    does not fail, and the gallery file can be written; the answer then
    names the gallery [<source>_<category>_gallery.html] under [/tmp]. *)
Theorem run_succeeds_iff (env : Services) (running : bool) (trigger f u : string) :
  fst (fst (run env running trigger)) = RunSuccess f u
  <-> running = false
      /\ exists source category items,
          _parse_trigger trigger = Ok (source, category)
          /\ scraper_healthy env = true /\ downloader_healthy env = true
          /\ scrape_data env source category = Ok items
          /\ items <> []
          /\ (_check_existing_images (disk env) source category items = []
              \/ download_images env
                   (_check_existing_images (disk env) source category items) = Ok tt)
          /\ write_html env
               (OsPath.join "/tmp" (source +:+ "_" +:+ category +:+ "_gallery.html")) = Ok tt
          /\ f = basename
                   (OsPath.join "/tmp" (source +:+ "_" +:+ category +:+ "_gallery.html"))
          /\ u = "http://localhost:9003/html/" +:+ f.
Proof.
  unfold run, run_body, check_services_health, generate_html.
  destruct running; cbn [fst].
  { split; [discriminate|]. intros [H _]. discriminate. }
  destruct (_parse_trigger trigger) as [[source category]|e] eqn:Hp.
  2: { cbn [fst]. split; [destruct e; discriminate|].
       intros (_ & s & c & items & H & _). discriminate. }
  destruct (scraper_healthy env) eqn:Hs, (downloader_healthy env) eqn:Hd; cbn [andb negb fst].
  2-4: split; [discriminate|];
       intros (_ & s & c & items & _ & H1 & H2 & _); discriminate.
  destruct (scrape_data env source category) as [items|e] eqn:Hscrape.
  2: { cbn [fst]. split; [destruct e; discriminate|].
       intros (_ & s & c & items & Hsc & _ & _ & Hi & _).
       inversion Hsc; subst. rewrite Hscrape in Hi. discriminate. }
  assert (Hsame : forall s c its,
             Ok (source, category) = Ok (s, c) -> scrape_data env s c = Ok its ->
             s = source /\ c = category /\ its = items).
  { intros s c its Hsc Hi. inversion Hsc; subst. rewrite Hscrape in Hi.
    inversion Hi. auto. }
  destruct items as [|item rest].
  { cbn [fst]. split; [discriminate|].
    intros (_ & s & c & its & Hsc & _ & _ & Hi & Hne & _).
    destruct (Hsame _ _ _ Hsc Hi) as (_ & _ & ->). contradiction. }
  remember (item :: rest) as items eqn:Hitems.
  assert (Hne : items <> []) by (subst items; discriminate).
  clear Hitems.
  remember (OsPath.join "/tmp" (source +:+ "_" +:+ category +:+ "_gallery.html"))
    as path eqn:Hpath.
  assert (Hforth : write_html env path = Ok tt ->
            (_check_existing_images (disk env) source category items = []
             \/ download_images env
                  (_check_existing_images (disk env) source category items) = Ok tt) ->
            RunSuccess (basename path) ("http://localhost:9003/html/" +:+ basename path)
            = RunSuccess f u ->
            false = false
            /\ exists s c its,
                Ok (source, category) = Ok (s, c)
                /\ true = true /\ true = true
                /\ scrape_data env s c = Ok its /\ its <> []
                /\ (_check_existing_images (disk env) s c its = []
                    \/ download_images env (_check_existing_images (disk env) s c its)
                       = Ok tt)
                /\ write_html env (OsPath.join "/tmp" (s +:+ "_" +:+ c +:+ "_gallery.html"))
                   = Ok tt
                /\ f = basename (OsPath.join "/tmp" (s +:+ "_" +:+ c +:+ "_gallery.html"))
                /\ u = "http://localhost:9003/html/" +:+ f).
  { intros Hw Hdone H. inversion H; subst f u. split; [reflexivity|].
    exists source, category, items. rewrite <- Hpath. auto 10. }
  assert (Hback : forall (Q : Prop),
            (write_html env path = Ok tt ->
             (_check_existing_images (disk env) source category items = []
              \/ download_images env
                   (_check_existing_images (disk env) source category items) = Ok tt) ->
             f = basename path -> u = "http://localhost:9003/html/" +:+ f -> Q) ->
            (false = false
             /\ exists s c its,
                 Ok (source, category) = Ok (s, c)
                 /\ true = true /\ true = true
                 /\ scrape_data env s c = Ok its /\ its <> []
                 /\ (_check_existing_images (disk env) s c its = []
                     \/ download_images env (_check_existing_images (disk env) s c its)
                        = Ok tt)
                 /\ write_html env (OsPath.join "/tmp" (s +:+ "_" +:+ c +:+ "_gallery.html"))
                    = Ok tt
                 /\ f = basename (OsPath.join "/tmp" (s +:+ "_" +:+ c +:+ "_gallery.html"))
                 /\ u = "http://localhost:9003/html/" +:+ f) -> Q).
  { intros Q HQ (_ & s & c & its & Hsc & _ & _ & Hi & _ & Hdone & Hw & Hf & Hu).
    destruct (Hsame _ _ _ Hsc Hi) as (-> & -> & ->).
    rewrite <- Hpath in Hw, Hf. auto. }
  destruct (_check_existing_images (disk env) source category items) as [|t ts] eqn:Htodo.
  - destruct (write_html env path) as [[]|e] eqn:Hw; cbn [mbind result_bind fst].
    + split; [apply Hforth; auto|].
      apply Hback. intros _ _ -> ->. reflexivity.
    + split; [destruct e; discriminate|]. apply Hback. discriminate.
  - destruct (download_images env (t :: ts)) as [[]|e] eqn:Hdl.
    + destruct (write_html env path) as [[]|e] eqn:Hw; cbn [mbind result_bind fst].
      * split; [apply Hforth; auto|].
        apply Hback. intros _ _ -> ->. reflexivity.
      * split; [destruct e; discriminate|]. apply Hback. discriminate.
    + cbn [fst]. split; [destruct e; discriminate|].
      apply Hback. intros _ [H|H]; discriminate.
Qed.

Lemma run_succeeds_iff_witness :
  fst (fst (run healthy_services false "wikipedia-animals"))
  = RunSuccess "wikipedia_animals_gallery.html"
               "http://localhost:9003/html/wikipedia_animals_gallery.html".
Proof.
  apply (proj2 (run_succeeds_iff healthy_services false "wikipedia-animals" _ _)).
  split; [reflexivity|].
  exists "wikipedia", "animals", [on_disk; no_image; with_image].
  repeat split; try reflexivity; try discriminate. now right.
Defined.

Ltac case_call H :=
  simpl in H;
  repeat match type of H with
         | _ \/ _ => destruct H as [H|H]
         end;
  try contradiction; try discriminate H.

(** X11.  What a run calls.  A run that finds the workflow running calls
    nothing and leaves the flag set; every other run ends with the flag
    cleared, whatever failed.  Nothing is called for a trigger that does
    not parse, and nothing but the health check when a service is down.
    The downloader is called only with a non-empty list, the list that
    [_check_existing_images] made of the scraped items, so every item
    sent has an image URL and no image on disk.  The gallery is
    generated from all the scraped items, not only from those sent. *)
Theorem run_calls_are_guarded (env : Services) (running : bool) (trigger : string) :
  let r := run env running trigger in
  snd (fst r) = running
  /\ (running = true -> fst (fst r) = RunError "Workflow already running" /\ snd r = [])
  /\ (forall e, _parse_trigger trigger = Raise e -> snd r = [])
  /\ (check_services_health env = false -> forall c, In c (snd r) -> c = CallHealth)
  /\ (forall todo,
        In (CallDownload todo) (snd r) ->
        todo <> []
        /\ exists source category items,
            _parse_trigger trigger = Ok (source, category)
            /\ scrape_data env source category = Ok items
            /\ todo = _check_existing_images (disk env) source category items
            /\ forall item,
                In item todo ->
                In item items /\ no_url item = false
                /\ image_exists (disk env) ("/tmp/" +:+ source +:+ "_" +:+ category) item
                   = false)
  /\ (forall source category items,
        In (CallHtml source category items) (snd r) ->
        scrape_data env source category = Ok items /\ items <> []).
Proof.
  intros r. unfold r, run. destruct running.
  { cbn [fst snd]. repeat split; try reflexivity; intros; try contradiction.
    all: match goal with H : In _ [] |- _ => destruct H end. }
  unfold run_body.
  destruct (_parse_trigger trigger) as [[source category]|e] eqn:Hp.
  2: { cbn [fst snd]. repeat split; try reflexivity; try discriminate;
       intros; try contradiction.
       all: match goal with H : In _ [] |- _ => destruct H end. }
  destruct (check_services_health env) eqn:Hh; cbn [negb].
  2: { cbn [fst snd]. split; [reflexivity|]. split; [discriminate|].
       split; [discriminate|]. split; [intros _ c Hc; case_call Hc; auto|].
       split; intros; match goal with H : In _ _ |- _ => case_call H end. }
  destruct (scrape_data env source category) as [items|e] eqn:Hscrape.
  2: { cbn [fst snd]. split; [reflexivity|]. split; [discriminate|].
       split; [discriminate|]. split; [discriminate|].
       split; intros; match goal with H : In _ _ |- _ => case_call H end. }
  destruct items as [|item rest].
  { cbn [fst snd]. split; [reflexivity|]. split; [discriminate|].
    split; [discriminate|]. split; [discriminate|].
    split; intros; match goal with H : In _ _ |- _ => case_call H end. }
  remember (item :: rest) as items eqn:Hitems.
  assert (Hne : items <> []) by (subst items; discriminate).
  clear Hitems.
  assert (Hsent : forall item0,
             In item0 (_check_existing_images (disk env) source category items) ->
             In item0 items /\ no_url item0 = false
             /\ image_exists (disk env) ("/tmp/" +:+ source +:+ "_" +:+ category) item0
                = false)
    by (intros item0; apply check_items_in).
  destruct (_check_existing_images (disk env) source category items) as [|t ts] eqn:Htodo.
  - cbn [fst snd]. split; [reflexivity|]. split; [discriminate|].
    split; [discriminate|]. split; [discriminate|]. split.
    + intros todo H. case_call H.
    + intros s c its H. case_call H. inversion H; subst. auto.
  - destruct (download_images env (t :: ts)) as [[]|e]; cbn [fst snd].
    + split; [reflexivity|]. split; [discriminate|].
      split; [discriminate|]. split; [discriminate|]. split.
      * intros todo H. case_call H. inversion H; subst todo.
        split; [discriminate|]. exists source, category, items. auto.
      * intros s c its H. case_call H. inversion H; subst. auto.
    + split; [reflexivity|]. split; [discriminate|].
      split; [discriminate|]. split; [discriminate|]. split.
      * intros todo H. case_call H. inversion H; subst todo.
        split; [discriminate|]. exists source, category, items. auto.
      * intros s c its H. case_call H.
Qed.

Lemma run_calls_are_guarded_witness :
  In (CallDownload [with_image]) (snd (run healthy_services false "wikipedia-animals"))
  /\ no_url with_image = false
  /\ image_exists (disk healthy_services) ("/tmp/" +:+ "wikipedia" +:+ "_" +:+ "animals")
                  with_image = false.
Proof.
  assert (Hin : In (CallDownload [with_image])
                   (snd (run healthy_services false "wikipedia-animals")))
    by (vm_compute; tauto).
  split; [exact Hin|].
  destruct (run_calls_are_guarded healthy_services false "wikipedia-animals")
    as (_ & _ & _ & _ & Hdl & _).
  destruct (Hdl _ Hin) as (_ & s & c & items & Hp & _ & _ & Hitem).
  inversion Hp; subst s c.
  apply (Hitem with_image). now left.
Defined.

(** X12.  The handler of [ValueError] does not look at where the error
    came from: when the scraper's answer makes the client raise a
    [ValueError] (a body that is not JSON does), a run with a well-formed
    trigger reports "Invalid trigger", after the health check and the
    scrape and without download or gallery. *)
Theorem value_error_is_reported_as_invalid_trigger (env : Services)
        (trigger source category m : string) :
  _parse_trigger trigger = Ok (source, category) ->
  check_services_health env = true ->
  scrape_data env source category = Raise (ValueError m) ->
  run env false trigger
  = (RunError ("Invalid trigger: " +:+ m), false, [CallHealth; CallScrape source category]).
Proof.
  intros Hp Hh Hs. unfold run, run_body. rewrite Hp, Hh, Hs. reflexivity.
Qed.

Lemma value_error_is_reported_as_invalid_trigger_witness :
  _parse_trigger "wikipedia-animals" = Ok ("wikipedia", "animals")
  /\ check_services_health garbled_services = true
  /\ scrape_data garbled_services "wikipedia" "animals"
     = Raise (ValueError "Expecting value: line 1")
  /\ run garbled_services false "wikipedia-animals"
     = (RunError "Invalid trigger: Expecting value: line 1", false,
        [CallHealth; CallScrape "wikipedia" "animals"]).
Proof.
  do 3 (split; [reflexivity|]).
  apply (value_error_is_reported_as_invalid_trigger garbled_services "wikipedia-animals"
           "wikipedia" "animals" "Expecting value: line 1"); reflexivity.
Defined.

(** ** The gallery and the probe *)

Lemma gallery_path_is_probe_path (source category file : string) :
  "/tmp/" +:+ source +:+ "_" +:+ category +:+ "/" +:+ file
  = ("/tmp/" +:+ source +:+ "_" +:+ category) +:+ "/" +:+ file.
Proof. rewrite !append_assoc. reflexivity. Qed.

(** X13.  The gallery and the workflow look for an animal's image in the
    same way: [generate_html] finds a local image for an item exactly
    when [_check_existing_images] takes the image as existing, also for
    an item without a name; the file found is non-empty. *)
Theorem gallery_shows_what_the_probe_finds (fs : gmap string Z)
        (source category : string) (item : Item) :
  (is_Some (local_path fs source category (default "Unknown" (item_name item)))
   <-> image_exists fs ("/tmp/" +:+ source +:+ "_" +:+ category) item = true)
  /\ (forall p, local_path fs source category (default "Unknown" (item_name item)) = Some p ->
                nonempty_file fs p = true).
Proof.
  assert (Hname : Py.lower (default "Unknown" (item_name item))
                  = Py.lower (default "unknown" (item_name item)))
    by (destruct (item_name item); reflexivity).
  unfold local_path, image_exists, possible_extensions. rewrite Hname.
  cbn [map List.find existsb]. rewrite !gallery_path_is_probe_path.
  set (file := Py.replace " " "_" (Py.lower (default "unknown" (item_name item)))).
  set (base := "/tmp/" +:+ source +:+ "_" +:+ category).
  split.
  - destruct (nonempty_file fs (base +:+ "/" +:+ file +:+ ".jpg")); [split; eauto|].
    destruct (nonempty_file fs (base +:+ "/" +:+ file +:+ ".jpeg")); [split; eauto|].
    destruct (nonempty_file fs (base +:+ "/" +:+ file +:+ ".png")); [split; eauto|].
    destruct (nonempty_file fs (base +:+ "/" +:+ file +:+ ".gif")); [split; eauto|].
    split; [intros [p Hp]; discriminate|discriminate].
  - intros p.
    destruct (nonempty_file fs (base +:+ "/" +:+ file +:+ ".jpg")) eqn:H1;
      [intros H; inversion H; subst; exact H1|].
    destruct (nonempty_file fs (base +:+ "/" +:+ file +:+ ".jpeg")) eqn:H2;
      [intros H; inversion H; subst; exact H2|].
    destruct (nonempty_file fs (base +:+ "/" +:+ file +:+ ".png")) eqn:H3;
      [intros H; inversion H; subst; exact H3|].
    destruct (nonempty_file fs (base +:+ "/" +:+ file +:+ ".gif")) eqn:H4;
      [intros H; inversion H; subst; exact H4|].
    discriminate.
Qed.

Lemma gallery_shows_what_the_probe_finds_witness :
  local_path sample_fs "wikipedia" "animals" (default "Unknown" (item_name on_disk))
  = Some "/tmp/wikipedia_animals/lion.png"
  /\ nonempty_file sample_fs "/tmp/wikipedia_animals/lion.png" = true.
Proof.
  assert (H : local_path sample_fs "wikipedia" "animals"
                         (default "Unknown" (item_name on_disk))
              = Some "/tmp/wikipedia_animals/lion.png") by (vm_compute; reflexivity).
  split; [exact H|].
  exact (proj2 (gallery_shows_what_the_probe_finds sample_fs "wikipedia" "animals" on_disk)
               _ H).
Defined.

(** ** The scraper's filters and pages *)

Lemma item_passes_name_in (item : DataItem) (filters : gmap string (list string)) :
  _item_passes_filters item filters
  = match filters !! "name_in" with
    | Some (n :: ns) => name_among item (n :: ns)
    | _ => true
    end.
Proof.
  apply eq_true_iff_eq. unfold _item_passes_filters. rewrite forallb_forall. split.
  - intros Hall. destruct (filters !! "name_in") as [[|n ns]|] eqn:Hl; try reflexivity.
    apply (Hall ("name_in", n :: ns)).
    apply list_elem_of_In, elem_of_map_to_list, Hl.
  - intros Hnames [k v] Hin. apply list_elem_of_In, elem_of_map_to_list in Hin.
    cbn [fst snd]. destruct (String.eqb_spec k "name_in") as [->|_]; [|reflexivity].
    rewrite Hin in Hnames. destruct v; [reflexivity|exact Hnames].
Qed.

Lemma filter_all_true {A : Type} (l : list A) : List.filter (fun _ => true) l = l.
Proof. induction l as [|x l IH]; simpl; [|rewrite IH]; reflexivity. Qed.

Lemma filter_twice {A : Type} (f : A -> bool) (l : list A) :
  List.filter f (List.filter f l) = List.filter f l.
Proof.
  induction l as [|x l IH]; simpl; [reflexivity|].
  destruct (f x) eqn:E; simpl; [rewrite E, IH|rewrite IH]; reflexivity.
Qed.

(** X14.  Filtering looks at [name_in] only.  With a non-empty list of
    names there it keeps, in order, the items whose name equals one of
    them up to case; without filters, with an empty dictionary, with an
    empty list of names or with other keys only, every item passes.
    Filtering twice is filtering once. *)
Theorem filters_keep_named_items (items : list DataItem)
        (filters : option (gmap string (list string))) :
  let names := default [] (filters ≫= fun f => f !! "name_in") in
  _apply_filters_only items filters
  = (if is_nil names then items
     else List.filter (fun item => name_among item names) items)
  /\ sublist (_apply_filters_only items filters) items
  /\ _apply_filters_only (_apply_filters_only items filters) filters
     = _apply_filters_only items filters.
Proof.
  intros names.
  assert (Hspec : forall l,
             _apply_filters_only l filters
             = if is_nil names then l
               else List.filter (fun item => name_among item names) l).
  { intros l. unfold names, _apply_filters_only.
    destruct filters as [f|]; [|reflexivity]. cbn [mbind option_bind].
    case_bool_decide as Hf; [subst f; rewrite lookup_empty; reflexivity|].
    destruct (f !! "name_in") as [[|n ns]|] eqn:Hl; cbn [default is_nil].
    - rewrite <- (filter_all_true l) at 2. apply filter_ext. intros item.
      rewrite item_passes_name_in, Hl. reflexivity.
    - apply filter_ext. intros item. rewrite item_passes_name_in, Hl. reflexivity.
    - rewrite <- (filter_all_true l) at 2. apply filter_ext. intros item.
      rewrite item_passes_name_in, Hl. reflexivity. }
  split; [apply Hspec|]. split.
  - rewrite Hspec. destruct (is_nil names); [reflexivity|apply filter_sublist].
  - rewrite !Hspec. destruct (is_nil names); [reflexivity|apply filter_twice].
Qed.

(** The page as skipping and cutting. *)
Lemma select_items_slice (items : list DataItem)
      (filters : option (gmap string (list string))) (offset limit : option Z) :
  let rest := skipn (Z.to_nat (default 0%Z offset)) (_apply_filters_only items filters) in
  select_items items filters offset limit
  = match limit with
    | Some l => if (0 <? l)%Z then firstn (Z.to_nat l) rest else rest
    | None => rest
    end.
Proof.
  intros rest. unfold select_items.
  set (filtered := _apply_filters_only items filters) in *.
  assert (Hrest : match offset with
                  | Some o =>
                      if (0 <? o)%Z then
                        if (Z.of_nat (length filtered) <=? o)%Z then []
                        else skipn (Z.to_nat o) filtered
                      else filtered
                  | None => filtered
                  end = rest).
  { unfold rest. destruct offset as [o|]; cbn [default from_option id]; [|reflexivity].
    destruct (Z.ltb_spec 0 o) as [Hpos|Hneg].
    - destruct (Z.leb_spec (Z.of_nat (length filtered)) o) as [Hbig|_]; [|reflexivity].
      symmetry. apply skipn_all2. lia.
    - replace (Z.to_nat o) with 0%nat by lia. reflexivity. }
  rewrite Hrest. reflexivity.
Qed.

(** X15.  A page is the filtered list without its first [offset] items,
    cut to [limit] items: no offset, zero or a negative one skip nothing;
    an offset past the end gives the empty page; no limit, zero or a
    negative one cut nothing, so a limit of zero returns everything that
    is left rather than nothing.  A page is never longer than a positive
    limit. *)
Theorem page_is_a_slice (items : list DataItem)
        (filters : option (gmap string (list string))) (offset limit : option Z) :
  let filtered := _apply_filters_only items filters in
  let rest := skipn (Z.to_nat (default 0%Z offset)) filtered in
  let page := select_items items filters offset limit in
  page = match limit with
         | Some l => if (0 <? l)%Z then firstn (Z.to_nat l) rest else rest
         | None => rest
         end
  /\ sublist page filtered
  /\ (forall l, limit = Some l -> (0 < l)%Z -> length page <= Z.to_nat l)
  /\ (forall l, limit = Some l -> (l <= 0)%Z -> page = rest).
Proof.
  intros filtered rest page.
  pose proof (select_items_slice items filters offset limit) as Hpage.
  cbv zeta in Hpage. fold filtered in Hpage. fold rest in Hpage. fold page in Hpage.
  split; [exact Hpage|]. rewrite Hpage. split; [|split].
  - assert (Hsub : sublist rest filtered) by apply sublist_drop.
    destruct limit as [l|]; [|exact Hsub].
    destruct (0 <? l)%Z; [|exact Hsub].
    etransitivity; [apply sublist_take|exact Hsub].
  - intros l -> Hl. destruct (Z.ltb_spec 0 l); [|lia].
    rewrite length_firstn. lia.
  - intros l -> Hl. destruct (Z.ltb_spec 0 l); [lia|reflexivity].
Qed.

Lemma page_is_a_slice_witness :
  Some 0%Z = Some 0%Z /\ (0 <= 0)%Z
  /\ select_items [lion_d; yak_d; emu_d] None (Some 1%Z) (Some 0%Z) = [yak_d; emu_d].
Proof.
  split; [reflexivity|]. split; [reflexivity|].
  rewrite (proj2 (proj2 (proj2 (page_is_a_slice _ None (Some 1%Z) (Some 0%Z))))
             0%Z eq_refl (Z.le_refl 0)).
  reflexivity.
Defined.

(** X16.  Pages tile the filtered list: the page of [limit] items at
    [offset] followed by everything from [offset + limit] on is
    everything from [offset] on. *)
Theorem consecutive_pages_join (items : list DataItem)
        (filters : option (gmap string (list string))) (offset limit : Z) :
  (0 <= offset)%Z -> (0 < limit)%Z ->
  (select_items items filters (Some offset) (Some limit)
   ++ select_items items filters (Some (offset + limit)%Z) None)%list
  = select_items items filters (Some offset) None.
Proof.
  intros Ho Hl. rewrite !select_items_slice.
  cbn [default from_option id]. destruct (Z.ltb_spec 0 limit); [|lia].
  replace (Z.to_nat (offset + limit)) with (Z.to_nat limit + Z.to_nat offset)%nat by lia.
  rewrite <- skipn_skipn. apply firstn_skipn.
Qed.

Lemma consecutive_pages_join_witness :
  (0 <= 1)%Z /\ (0 < 1)%Z
  /\ (select_items [lion_d; yak_d; emu_d] None (Some 1%Z) (Some 1%Z)
      ++ select_items [lion_d; yak_d; emu_d] None (Some (1 + 1)%Z) None)%list
     = [yak_d; emu_d].
Proof.
  split; [discriminate|]. split; [reflexivity|].
  rewrite (consecutive_pages_join [lion_d; yak_d; emu_d] None 1 1);
    [reflexivity|discriminate|reflexivity].
Defined.

Example name_filter_ignores_case :
  _apply_filters_only [lion_d; yak_d; emu_d] (Some {[ "name_in" := ["EMU"; "lion"] ]})
  = [lion_d; emu_d].
Proof. vm_compute. reflexivity. Qed.

(** ** Validation *)

Lemma supported_categories_wikipedia (source : string) :
  supported_categories source
  = if String.eqb "wikipedia" source then Some ["animals"] else None.
Proof.
  unfold supported_categories, SupportedSources. cbn [List.find fst].
  destruct (String.eqb "wikipedia" source); reflexivity.
Qed.

Lemma validate_ok_iff (source category : string) :
  validate source category = Ok tt <-> source = "wikipedia" /\ category = "animals".
Proof.
  unfold validate. rewrite supported_categories_wikipedia.
  destruct (String.eqb_spec "wikipedia" source) as [<-|Hs].
  - cbn [existsb]. rewrite orb_false_r.
    destruct (String.eqb_spec category "animals") as [->|Hc]; [tauto|].
    split; [discriminate|tauto].
  - split; [discriminate|]. intros [H _]. congruence.
Qed.

(** X17.  The only supported pair is [wikipedia] with [animals]:
    [SourceValidator.validate] returns for it and raises [ValueError]
    for every other pair, naming the unknown source or the unknown
    category, and [DataScraper.is_supported] is true for it alone. *)
Theorem only_wikipedia_animals_is_supported (source category : string) :
  (validate source category = Ok tt <-> source = "wikipedia" /\ category = "animals")
  /\ (is_supported source category = true <-> source = "wikipedia" /\ category = "animals")
  /\ (source <> "wikipedia" ->
      validate source category
      = Raise (ValueError ("Invalid source: " +:+ source
                           +:+ ". Available sources: ['wikipedia']")))
  /\ (source = "wikipedia" -> category <> "animals" ->
      validate source category
      = Raise (ValueError ("Invalid category '" +:+ category
                           +:+ "' for source 'wikipedia'. Available categories: ['animals']"))).
Proof.
  split; [apply validate_ok_iff|]. split.
  - rewrite <- validate_ok_iff. unfold is_supported.
    destruct (validate source category) as [[]|e]; split; auto; discriminate.
  - unfold validate. rewrite supported_categories_wikipedia.
    destruct (String.eqb_spec "wikipedia" source) as [<-|Hs].
    + split; [congruence|]. intros _ Hc. cbn [existsb]. rewrite orb_false_r.
      destruct (String.eqb_spec category "animals") as [->|_]; [congruence|reflexivity].
    + split; [reflexivity|]. intros H. congruence.
Qed.

Lemma only_wikipedia_animals_is_supported_witness :
  "wikipedia" = "wikipedia" /\ "plants" <> "animals"
  /\ validate "wikipedia" "plants"
     = Raise (ValueError
                "Invalid category 'plants' for source 'wikipedia'. Available categories: ['animals']").
Proof.
  split; [reflexivity|]. split; [discriminate|].
  apply (only_wikipedia_animals_is_supported "wikipedia" "plants");
    [reflexivity|discriminate].
Defined.

(** X18.  A download request is accepted exactly when its URL starts with
    [http://] or [https://] and its source and category are the
    supported pair; or when its source is empty, in which case the
    category is not checked at all.  An accepted request carries the
    four values unchanged. *)
Theorem download_request_accepted_iff (url name source category : string) :
  ((exists r, new_DownloadRequest url name source category = Ok r)
   <-> (Py.startswith url "http://" = true \/ Py.startswith url "https://" = true)
       /\ (source = EmptyString \/ (source = "wikipedia" /\ category = "animals")))
  /\ (forall r, new_DownloadRequest url name source category = Ok r ->
                r = {| image_url := url; name := name; source := source;
                       category := category |}).
Proof.
  pose proof (validate_ok_iff source category) as Hv.
  unfold new_DownloadRequest, validate_image_url, validate_source_category.
  destruct (Py.startswith url "http://" || Py.startswith url "https://") eqn:Hu.
  - apply orb_true_iff in Hu.
    destruct source as [|ch rest].
    + split; [|intros r H; now inversion H]. split; [auto|eauto].
    + destruct (validate (String ch rest) category) as [[]|e] eqn:Hval;
        cbn [mbind result_bind].
      * split; [|intros r H; now inversion H]. split; [|eauto].
        intros _. split; [exact Hu|]. right. now apply Hv.
      * split; [|discriminate]. split; [intros [r H]; discriminate|].
        intros [_ [H|H]]; [discriminate|]. apply Hv in H. discriminate.
  - apply orb_false_iff in Hu as [H1 H2].
    split; [|intros r H; destruct source; discriminate].
    split; [intros [r H]; discriminate|]. intros [[H|H] _]; congruence.
Qed.

Example empty_source_skips_validation :
  new_DownloadRequest "https://example.com/a.png" "Lion" "" "no such category"
  = Ok {| image_url := "https://example.com/a.png"; name := "Lion";
          source := ""; category := "no such category" |}.
Proof. reflexivity. Qed.

(** ** The scraper's requests *)


Lemma download_request_accepted_iff_witness :
  (Py.startswith "https://example.com/a.png" "http://" = true
   \/ Py.startswith "https://example.com/a.png" "https://" = true)
  /\ (EmptyString = EmptyString \/ (EmptyString = "wikipedia" /\ "plants" = "animals"))
  /\ exists r, new_DownloadRequest "https://example.com/a.png" "Lion" "" "plants" = Ok r.
Proof.
  assert (Hurl : Py.startswith "https://example.com/a.png" "http://" = true
                 \/ Py.startswith "https://example.com/a.png" "https://" = true)
    by (right; reflexivity).
  split; [exact Hurl|]. split; [now left|].
  apply (proj1 (download_request_accepted_iff "https://example.com/a.png" "Lion" "" "plants")).
  split; [exact Hurl|now left].
Defined.

(** ** The scraper's requests *)

(** While the loop runs as [_make_request] starts it, the turns left and
    the attempts made add up to [max_retries]. *)
Lemma request_loop_invariant (fetch : nat -> page_attempt) (n : Z)
      (remaining attempt : nat) :
  attempt + remaining = Z.to_nat n ->
  let r := request_loop fetch n remaining attempt in
  gets r <= remaining
  /\ naps r = seq (attempt + 1) (gets r - 1)
  /\ (answer r = ReturnedNone <-> remaining = 0)
  /\ (forall msg, answer r = RaisedClientFailure msg ->
                  gets r = remaining /\ fetch (Z.to_nat n - 1) = ClientFailure msg)
  /\ ((forall k, exists msg, fetch k = ClientFailure msg) -> gets r = remaining).
Proof.
  revert attempt. induction remaining as [|remaining IH]; intros attempt Hsum; simpl.
  - repeat split; auto; try discriminate.
  - destruct (fetch attempt) as [text|msg|msg] eqn:Hf; simpl.
    + split; [lia|]. split; [reflexivity|]. split; [split; discriminate|].
      split; [discriminate|]. intros Hall. destruct (Hall attempt) as [m Hm]. congruence.
    + destruct (Z.eqb_spec (Z.of_nat attempt) (n - 1)) as [Hlast|Hmore]; simpl.
      * assert (remaining = 0) by lia. subst remaining.
        split; [lia|]. split; [reflexivity|]. split; [split; discriminate|].
        split; [|reflexivity]. intros m Hm. inversion Hm; subst m. split; [reflexivity|].
        replace (Z.to_nat n - 1) with attempt by lia. exact Hf.
      * assert (Hpos : remaining <> 0) by lia.
        destruct (IH (S attempt)) as (Hle & Hnaps & Hnone & Hraised & Hall); [lia|].
        assert (Hgets : gets (request_loop fetch n remaining (S attempt)) <> 0).
        { destruct remaining as [|rem']; [contradiction|]. cbn [request_loop].
          destruct (fetch (S attempt)); cbn [gets]; try discriminate.
          destruct (Z.of_nat (S attempt) =? n - 1)%Z; cbn [gets]; discriminate. }
        split; [lia|]. split.
        { rewrite Hnaps, Nat.sub_0_r.
          destruct (gets (request_loop fetch n remaining (S attempt))) as [|g];
            [contradiction|].
          cbn [seq]. rewrite Nat.sub_succ, Nat.sub_0_r.
          replace (S attempt + 1) with (S (attempt + 1)) by lia. reflexivity. }
        split; [rewrite Hnone; split; [contradiction|discriminate]|].
        split.
        { intros m Hm. destruct (Hraised m Hm) as [Hg Hlastf]. split; [lia|exact Hlastf]. }
        intros Hfail. rewrite (Hall Hfail). reflexivity.
    + split; [lia|]. split; [reflexivity|]. split; [split; discriminate|].
      split; [discriminate|]. intros Hall. destruct (Hall attempt) as [m Hm]. congruence.
Qed.

(** X19.  [_make_request] makes at most [max_retries] GETs, none when
    [max_retries] is zero or negative, and sleeps 1, 2, 3, ... times
    [retry_delay] between them, growing by one delay each time.  It falls
    through and returns [None], without a request and without an error,
    exactly when [max_retries] is zero or negative. *)
Theorem make_request_is_bounded (fetch : nat -> page_attempt) (max_retries : Z) :
  let r := _make_request fetch max_retries in
  gets r <= Z.to_nat max_retries
  /\ naps r = seq 1 (gets r - 1)
  /\ (answer r = ReturnedNone <-> (max_retries <= 0)%Z)
  /\ ((max_retries <= 0)%Z -> gets r = 0).
Proof.
  intros r.
  destruct (request_loop_invariant fetch max_retries (Z.to_nat max_retries) 0 eq_refl)
    as (Hle & Hnaps & Hnone & _).
  fold (_make_request fetch max_retries) in Hle, Hnaps, Hnone. fold r in Hle, Hnaps, Hnone.
  split; [exact Hle|]. split; [exact Hnaps|]. split; [rewrite Hnone; lia|].
  intros Hn. lia.
Qed.

Lemma make_request_is_bounded_witness :
  (0 <= 0)%Z /\ gets (_make_request dead_fetch 0) = 0
  /\ answer (_make_request dead_fetch 0) = ReturnedNone.
Proof.
  split; [reflexivity|].
  destruct (make_request_is_bounded dead_fetch 0) as (_ & _ & Hnone & Hzero).
  split; [apply Hzero; reflexivity|apply Hnone; reflexivity].
Defined.

Lemma sum_of_naps (n : nat) : 2 * list_sum (seq 1 n) = n * (n + 1).
Proof.
  induction n as [|n IH]; [reflexivity|].
  rewrite seq_S, list_sum_app. change (list_sum [1 + n]) with (1 + n + 0). nia.
Qed.

(** X20.  When every attempt fails with a client error or a timeout and
    [max_retries] is positive, [_make_request] makes exactly
    [max_retries] GETs and then raises the failure of the last one; it
    has slept [max_retries * (max_retries - 1) / 2] delays in all, the
    delays growing linearly. *)
Theorem make_request_gives_up (fetch : nat -> page_attempt) (max_retries : Z) :
  (0 < max_retries)%Z ->
  (forall k, exists msg, fetch k = ClientFailure msg) ->
  let r := _make_request fetch max_retries in
  gets r = Z.to_nat max_retries
  /\ (exists msg, answer r = RaisedClientFailure msg
                  /\ fetch (Z.to_nat max_retries - 1) = ClientFailure msg)
  /\ naps r = seq 1 (Z.to_nat max_retries - 1)
  /\ (2 * Z.of_nat (list_sum (naps r)) = max_retries * (max_retries - 1))%Z.
Proof.
  intros Hpos Hfail r.
  destruct (request_loop_invariant fetch max_retries (Z.to_nat max_retries) 0 eq_refl)
    as (_ & Hnaps & Hnone & Hraised & Hall).
  fold (_make_request fetch max_retries) in Hnaps, Hnone, Hraised, Hall.
  fold r in Hnaps, Hnone, Hraised, Hall.
  specialize (Hall Hfail).
  assert (Hans : exists msg, answer r = RaisedClientFailure msg).
  { destruct (answer r) as [text|  |msg|msg] eqn:Ha; eauto.
    - exfalso. clear - Ha Hfail. unfold r, _make_request in Ha.
      revert Ha. generalize 0 at 1. generalize (Z.to_nat max_retries).
      induction n as [|n IH]; intros a; simpl; [discriminate|].
      destruct (Hfail a) as [m ->].
      destruct (Z.of_nat a =? max_retries - 1)%Z; simpl; [discriminate|apply IH].
    - exfalso. assert (Z.to_nat max_retries = 0) by (apply Hnone; reflexivity). lia.
    - exfalso. clear - Ha Hfail. unfold r, _make_request in Ha.
      revert Ha. generalize 0 at 1. generalize (Z.to_nat max_retries).
      induction n as [|n IH]; intros a; simpl; [discriminate|].
      destruct (Hfail a) as [m ->].
      destruct (Z.of_nat a =? max_retries - 1)%Z; simpl; [discriminate|apply IH]. }
  split; [exact Hall|]. split.
  - destruct Hans as [msg Hmsg]. exists msg. split; [exact Hmsg|]. apply (Hraised msg Hmsg).
  - rewrite Hnaps, Hall. change (0 + 1) with 1. split; [reflexivity|].
    pose proof (sum_of_naps (Z.to_nat max_retries - 1)) as Hsum.
    apply (f_equal Z.of_nat) in Hsum.
    rewrite !Nat2Z.inj_mul, Nat2Z.inj_add in Hsum.
    replace (Z.of_nat (Z.to_nat max_retries - 1)) with (max_retries - 1)%Z in Hsum by lia.
    change (Z.of_nat 2) with 2%Z in Hsum. change (Z.of_nat 1) with 1%Z in Hsum.
    rewrite Hsum. ring.
Qed.

Lemma make_request_gives_up_witness :
  (0 < 3)%Z
  /\ gets (_make_request dead_fetch 3) = 3
  /\ naps (_make_request dead_fetch 3) = [1; 2]
  /\ exists msg, answer (_make_request dead_fetch 3) = RaisedClientFailure msg.
Proof.
  split; [reflexivity|].
  destruct (make_request_gives_up dead_fetch 3 eq_refl (fun k => ex_intro _ _ eq_refl))
    as (Hgets & (msg & Hans & _) & Hnaps & _).
  split; [exact Hgets|]. split; [exact Hnaps|]. exists msg. exact Hans.
Defined.

Example make_request_recovers :
  _make_request flaky_fetch 3
  = {| answer := ReturnedText "<html/>"; gets := 3; naps := [1; 2] |}.
Proof. reflexivity. Qed.

(** ** Image URLs from the scraper *)

Lemma startswith_two (s : string) (a b : ascii) :
  Py.startswith s (String a (String b EmptyString)) = true ->
  exists rest, s = String a (String b rest).
Proof.
  unfold Py.startswith. destruct s as [|c [|d rest]]; simpl; try discriminate.
  - destruct (ascii_dec a c); discriminate.
  - destruct (ascii_dec a c) as [->|]; [|discriminate].
    destruct (ascii_dec b d) as [->|]; [|discriminate]. eauto.
Qed.

Lemma startswith_one (s : string) (a : ascii) :
  Py.startswith s (String a EmptyString) = true -> exists rest, s = String a rest.
Proof.
  unfold Py.startswith. destruct s as [|c rest]; simpl; try discriminate.
  destruct (ascii_dec a c) as [->|]; [eauto|discriminate].
Qed.

(** X21.  The URL that the scraper makes of an image's [src] passes the
    downloader's URL check in every case but one: a [src] that starts
    with [http] without starting with [http://] or [https://] is handed
    on as it is and will be refused. *)
Theorem scraped_url_passes_validation (src : string) :
  (exists u, validate_image_url (absolute_image_url src) = Ok u)
  <-> (Py.startswith src "http" = false
       \/ Py.startswith src "http://" = true
       \/ Py.startswith src "https://" = true).
Proof.
  unfold absolute_image_url, validate_image_url.
  destruct (Py.startswith src "//") eqn:H2.
  { apply startswith_two in H2 as [rest ->].
    replace (Py.startswith ("https:" +:+ String "/" (String "/" rest)) "https://")
      with true by (symmetry; apply (prefix_append "https://" rest)).
    rewrite orb_true_r. split; [|eauto]. intros _. left. reflexivity. }
  destruct (Py.startswith src "/") eqn:H1.
  { apply startswith_one in H1 as [rest ->].
    replace (Py.startswith ("https://en.wikipedia.org" +:+ String "/" rest) "https://")
      with true
      by (symmetry; apply (prefix_append "https://" ("en.wikipedia.org" +:+ String "/" rest))).
    rewrite orb_true_r. split; [|eauto]. intros _. left. reflexivity. }
  destruct (Py.startswith src "http") eqn:Hh.
  - destruct (Py.startswith src "http://"), (Py.startswith src "https://"); cbn [orb].
    1-3: split; [auto|eauto].
    split; [intros [u Hu]; discriminate|]. intros [H|[H|H]]; discriminate.
  - split; [auto|]. intros _.
    replace (Py.startswith ("https://en.wikipedia.org/" +:+ src) "https://") with true
      by (symmetry; apply (prefix_append "https://" ("en.wikipedia.org/" +:+ src))).
    rewrite orb_true_r. eauto.
Qed.

Example scraped_urls :
  absolute_image_url "//upload.wikimedia.org/a.jpg" = "https://upload.wikimedia.org/a.jpg"
  /\ absolute_image_url "/static/a.jpg" = "https://en.wikipedia.org/static/a.jpg"
  /\ absolute_image_url "img/a.jpg" = "https://en.wikipedia.org/img/a.jpg"
  /\ absolute_image_url "httpd/a.jpg" = "httpd/a.jpg"
  /\ validate_image_url (absolute_image_url "httpd/a.jpg")
     = Raise (ValueError "image_url must be a valid HTTP/HTTPS URL").
Proof. repeat split. Qed.

Lemma scraped_url_passes_validation_witness :
  Py.startswith "//upload.wikimedia.org/a.jpg" "http" = false
  /\ exists u, validate_image_url (absolute_image_url "//upload.wikimedia.org/a.jpg") = Ok u.
Proof.
  split; [reflexivity|].
  apply (proj2 (scraped_url_passes_validation "//upload.wikimedia.org/a.jpg")).
  left. reflexivity.
Defined.

Lemma parse_trigger_round_trip_witness :
  Py.contains "-" "wikipedia" = false
  /\ _parse_trigger ("wikipedia" +:+ "-" +:+ "sea-animals") = Ok ("wikipedia", "sea-animals").
Proof.
  split; [reflexivity|].
  apply (proj1 (parse_trigger_round_trip ("wikipedia" +:+ "-" +:+ "sea-animals")
                  "wikipedia" "sea-animals")).
  split; reflexivity.
Defined.

(** ** Results of the downloader *)

(** What a worker returns, case by case. *)
Lemma worker_result_shape sch w request timeout :
  exists res,
    fst (_download_single_image sch w request timeout) = Ok res
    /\ r_image_url res = image_url request
    /\ download_time res = Some (elapsed w)
    /\ ((is_successful res = true /\ error_message res = None
         /\ (exists size, file_size res = Some size)
         /\ exists ext, r_target_path res = final_target_path request ext)
        \/ (is_successful res = false /\ (exists m, error_message res = Some m)
            /\ file_size res = Some 0%Z
            /\ r_target_path res = target_path request)).
Proof.
  unfold _download_single_image.
  destruct (negb (_ensure_directory w _)); cbn [fst].
  - eexists. split; [reflexivity|]. cbn. eauto 10.
  - unfold try_except.
    destruct (Retry.outcome _) as [response|e]; cbn [mbind result_bind].
    2: { eexists. split; [reflexivity|]. cbn. eauto 10. }
    destruct (raise_for_status response) as [[]|e]; cbn [mbind result_bind].
    2: { eexists. split; [reflexivity|]. cbn. eauto 10. }
    destruct (_get_file_extension _ _) as [ext|e]; cbn [mbind result_bind].
    2: { eexists. split; [reflexivity|]. cbn. eauto 10. }
    destruct (write_file w _) as [size|e]; cbn [mbind result_bind].
    2: { eexists. split; [reflexivity|]. cbn. eauto 10. }
    eexists. split; [reflexivity|]. cbn. split; [reflexivity|]. split; [reflexivity|].
    left. eauto 10.
Qed.

Lemma task_results_in wk timeout i ds res :
  In res (task_results wk timeout i ds) ->
  exists (j : nat) request, ds !! j = Some request
                            /\ res = settle request (wk (i + j) request timeout).
Proof.
  revert i. induction ds as [|d ds IH]; intros i; simpl; [tauto|].
  intros [<-|Hin].
  - exists 0, d. rewrite Nat.add_0_r. auto.
  - destruct (IH (S i) Hin) as (j & request & Hj & Hres).
    exists (S j), request. replace (i + S j) with (S i + j) by lia. auto.
Qed.

(** X22.  Every result of a batch run by real workers answers for one of
    the submitted requests and is well formed: it carries that request's
    URL; it is successful exactly when it has no error message; a
    successful one has a size and a path made of the target path's base
    and an extension; a failed one has size zero and the request's own
    target path. *)
Theorem batch_results_are_well_formed (self : ImageDownloader) (w : BatchWorld)
        (req : BatchDownloadRequest) (worlds : nat -> World) :
  (0 < max_workers self)%Z ->
  worker w = workers_of (retry_schedule self) worlds ->
  exists b,
    returned (download_batch self w req) = Ok b
    /\ forall res,
        In res (results b) ->
        exists (i : nat) request,
          downloads req !! i = Some request
          /\ r_image_url res = image_url request
          /\ (is_successful res = true <-> error_message res = None)
          /\ (is_successful res = true ->
              (exists size, file_size res = Some size)
              /\ exists ext, r_target_path res = final_target_path request ext)
          /\ (is_successful res = false ->
              file_size res = Some 0%Z /\ r_target_path res = target_path request).
Proof.
  intros Hpool Hworkers. eexists. split; [apply download_batch_returns, Hpool|].
  cbn [results]. intros res Hin.
  assert (Hperm : Permutation
            (map (fun p => settle (snd p) (fresult (fst p)))
                 (as_completed (picks w)
                    (submit_all (worker w) (timeout_seconds req) 0 (downloads req))))
            (task_results (worker w) (timeout_seconds req) 0 (downloads req))).
  { rewrite <- submit_all_settled. apply Permutation_map, as_completed_perm. }
  apply (Permutation_in _ Hperm) in Hin.
  apply task_results_in in Hin as (i & request & Hi & Hres).
  exists i, request. split; [exact Hi|].
  rewrite Hworkers in Hres. unfold workers_of in Hres.
  destruct (worker_result_shape (retry_schedule self) (worlds (0 + i)) request
              (timeout_seconds req)) as (r & Hr & Hurl & _ & Hshape).
  rewrite Hr in Hres. cbn [settle] in Hres. subst res.
  split; [exact Hurl|].
  destruct Hshape as [(Hs & He & Hsize & Hpath)|(Hs & (m & He) & Hsize & Hpath)].
  - rewrite Hs, He. repeat split; auto; discriminate.
  - rewrite Hs, He. repeat split; auto; discriminate.
Qed.

Lemma batch_results_are_well_formed_witness :
  (0 < max_workers sample_downloader)%Z
  /\ exists b,
      returned (download_batch sample_downloader
                  {| worker := workers_of Retry.Documented (fun _ => busy_world);
                     picks := [2; 0]; clock_start := 0; clock_end := 9;
                     strftime_now := "2024-01-01T00:00:00Z" |}
                  sample_batch) = Ok b
      /\ length (results b) = 3.
Proof.
  split; [reflexivity|].
  destruct (batch_results_are_well_formed sample_downloader
              {| worker := workers_of Retry.Documented (fun _ => busy_world);
                 picks := [2; 0]; clock_start := 0; clock_end := 9;
                 strftime_now := "2024-01-01T00:00:00Z" |}
              sample_batch (fun _ => busy_world) eq_refl eq_refl) as (b & Hb & _).
  exists b. split; [exact Hb|].
  vm_compute in Hb. inversion Hb. reflexivity.
Defined.

(** X23.  The order in which the workers finish changes the order of the
    results and nothing else: with the same workers, two runs give the
    same results up to order and the same three counts. *)
Theorem completion_order_is_immaterial (self : ImageDownloader) (w w' : BatchWorld)
        (req : BatchDownloadRequest) :
  (0 < max_workers self)%Z ->
  worker w' = worker w ->
  exists b b',
    returned (download_batch self w req) = Ok b
    /\ returned (download_batch self w' req) = Ok b'
    /\ Permutation (results b) (results b')
    /\ total_count b = total_count b'
    /\ success_count b = success_count b'
    /\ failure_count b = failure_count b'.
Proof.
  intros Hpool Hworkers. eexists. eexists.
  split; [apply download_batch_returns, Hpool|].
  split; [apply download_batch_returns, Hpool|].
  cbn [results total_count success_count failure_count]. rewrite Hworkers.
  set (ftr := submit_all _ _ _ _).
  assert (Hperm : Permutation
            (map (fun p => settle (snd p) (fresult (fst p))) (as_completed (picks w) ftr))
            (map (fun p => settle (snd p) (fresult (fst p))) (as_completed (picks w') ftr))).
  { apply Permutation_map. rewrite !as_completed_perm. reflexivity. }
  split; [exact Hperm|]. split; [reflexivity|].
  split; apply filter_length_perm, Hperm.
Qed.

Lemma completion_order_is_immaterial_witness :
  (0 < max_workers sample_downloader)%Z
  /\ exists b b',
      returned (download_batch sample_downloader sample_batch_world sample_batch) = Ok b
      /\ returned (download_batch sample_downloader
                     {| worker := worker sample_batch_world; picks := [2; 1; 0];
                        clock_start := 0; clock_end := 1;
                        strftime_now := "2024-01-01T00:00:01Z" |}
                     sample_batch) = Ok b'
      /\ Permutation (results b) (results b').
Proof.
  split; [reflexivity|].
  destruct (completion_order_is_immaterial sample_downloader sample_batch_world
              {| worker := worker sample_batch_world; picks := [2; 1; 0];
                 clock_start := 0; clock_end := 1;
                        strftime_now := "2024-01-01T00:00:01Z" |}
              sample_batch eq_refl eq_refl) as (b & b' & Hb & Hb' & Hperm & _).
  exists b, b'. auto.
Defined.

(** ** The shape of an extension *)

Lemma lower_fixed_suffix (pre suf : string) :
  Py.lower (pre +:+ suf) = pre +:+ suf -> Py.lower suf = suf.
Proof.
  induction pre as [|c pre IH]; [auto|].
  change (String c pre +:+ suf) with (String c (pre +:+ suf)). simpl.
  intros H. inversion H. auto.
Qed.

Lemma contains_slash_lower (s : string) :
  Py.contains "/" (Py.lower s) = Py.contains "/" s.
Proof.
  induction s as [|c s IH]; [reflexivity|]. simpl. rewrite IH.
  destruct c as [[] [] [] [] [] [] [] []]; reflexivity.
Qed.

(** X24.  An extension that [_get_file_extension] returns is a dot
    followed by text in lower case.  Taken from the URL, the text has no
    further dot; taken from the content type, it has no slash. *)
Theorem extension_is_dot_and_lower_case (url ctype ext : string) :
  _get_file_extension url ctype = Ok ext ->
  exists rest,
    ext = String "." rest
    /\ Py.lower rest = rest
    /\ (Py.contains "." (Py.lower (Url.path url)) = true -> Py.contains "." rest = false)
    /\ (Py.contains "." (Py.lower (Url.path url)) = false -> Py.contains "/" rest = false).
Proof.
  unfold _get_file_extension.
  destruct (Py.contains "." (Py.lower (Url.path url))) eqn:Hdot.
  - intros H. inversion H; subst ext.
    destruct (last_item_after_last "." _ Hdot) as (pre & Hpath & Hno).
    set (suffix := Py.last_item (Py.split "." (Py.lower (Url.path url)))) in *.
    exists suffix. split; [reflexivity|]. split; [|split; [auto|discriminate]].
    pose proof (lower_idempotent (Url.path url)) as Hid.
    rewrite Hpath in Hid.
    apply lower_fixed_suffix in Hid. simpl in Hid. inversion Hid as [Hsuf].
    rewrite Hsuf. exact Hsuf.
  - destruct (Py.contains "/" ctype) eqn:Hslash; [|discriminate].
    intros H. inversion H; subst ext.
    destruct (last_item_after_last "/" _ Hslash) as (pre & Hct & Hno).
    eexists. split; [reflexivity|]. split; [apply lower_idempotent|].
    split; [discriminate|]. intros _. rewrite contains_slash_lower. exact Hno.
Qed.

Lemma extension_is_dot_and_lower_case_witness :
  _get_file_extension "https://example.com/A/Lion.PNG?x=1" "image/jpeg" = Ok ".png"
  /\ exists rest, ".png" = String "." rest /\ Py.lower rest = rest.
Proof.
  split; [reflexivity|].
  destruct (extension_is_dot_and_lower_case "https://example.com/A/Lion.PNG?x=1"
              "image/jpeg" ".png" eq_refl) as (rest & Hext & Hlow & _).
  exists rest. auto.
Defined.

(** ** The download endpoints *)

Lemma as_completed_single {A : Type} (ks : list nat) (x : A) : as_completed ks [x] = [x].
Proof.
  destruct ks as [|k ks]; [reflexivity|].
  cbn [as_completed length]. rewrite Nat.mod_1_r. cbn [nth remove_nth].
  destruct ks; reflexivity.
Qed.

(** X25.  [POST /download-single] with the service's downloader always
    answers with the result of the one request, a success or a failure;
    neither of its two 500 answers can occur. *)
Theorem single_download_always_answers (sch : Retry.schedule) (w : BatchWorld)
        (download_request : DownloadRequest) :
  api_download_single_image (service_downloader sch) w download_request
  = Http200 (settle download_request (worker w 0 download_request 30)).
Proof.
  unfold api_download_single_image.
  rewrite (download_batch_returns (service_downloader sch) w _ eq_refl).
  cbn [results downloads timeout_seconds submit_all].
  rewrite as_completed_single. reflexivity.
Qed.

(** X26.  [POST /download] with the service's downloader refuses an empty
    list with status 400, so the batch code never sees one through this
    endpoint; every other list is answered with a batch result that has
    one result per request and counts that add up, never with a 500. *)
Theorem batch_endpoint_answers (sch : Retry.schedule) (w : BatchWorld)
        (batch_request : BatchDownloadRequest) :
  (downloads batch_request = [] ->
   api_download_images (service_downloader sch) w batch_request
   = HTTPException 400 "No downloads specified")
  /\ (downloads batch_request <> [] ->
      exists b,
        api_download_images (service_downloader sch) w batch_request = Http200 b
        /\ returned (download_batch (service_downloader sch) w batch_request) = Ok b
        /\ length (results b) = length (downloads batch_request)
        /\ total_count b = length (downloads batch_request)
        /\ success_count b + failure_count b = total_count b).
Proof.
  unfold api_download_images. split.
  - intros ->. reflexivity.
  - intros Hne. destruct (downloads batch_request) as [|d ds] eqn:Hds; [contradiction|].
    cbn [is_nil].
    rewrite (download_batch_returns (service_downloader sch) w _ eq_refl).
    eexists. split; [reflexivity|]. split; [reflexivity|].
    cbn [results total_count success_count failure_count]. rewrite Hds.
    assert (Hlen : forall (ps : list (Future * DownloadRequest)),
               length (map (fun p => settle (snd p) (fresult (fst p)))
                           (as_completed (picks w) ps)) = length ps).
    { intros ps. rewrite length_map. apply Permutation_length, as_completed_perm. }
    rewrite filter_split_length, Hlen.
    assert (Hsub : forall wk t i l, length (submit_all wk t i l) = length l).
    { intros wk t i l. revert i. induction l as [|x l IH]; intros i; simpl; [|rewrite IH];
        reflexivity. }
    rewrite Hsub. auto.
Qed.

Lemma batch_endpoint_answers_witness :
  downloads sample_batch <> []
  /\ exists b,
      api_download_images (service_downloader Retry.Documented) sample_batch_world sample_batch
      = Http200 b
      /\ total_count b = 3.
Proof.
  split; [discriminate|].
  destruct (batch_endpoint_answers Retry.Documented sample_batch_world sample_batch)
    as [_ H].
  destruct H as (b & Hb & _ & _ & Htotal & _); [discriminate|].
  exists b. split; [exact Hb|exact Htotal].
Defined.

(** ** Where an image is written *)

Lemma length_append (a b : string) :
  String.length (a +:+ b) = String.length a + String.length b.
Proof.
  induction a as [|c a IH]; [reflexivity|].
  change (String c a +:+ b) with (String c (a +:+ b)). simpl. now rewrite IH.
Qed.

Lemma substring_whole (s : string) : String.substring 0 (String.length s) s = s.
Proof. induction s as [|c s IH]; simpl; [|rewrite IH]; reflexivity. Qed.

Lemma substring_head (a b : string) :
  String.substring 0 (String.length a) (a +:+ b) = a.
Proof.
  induction a as [|c a IH].
  - destruct b; reflexivity.
  - change (String c a +:+ b) with (String c (a +:+ b)). simpl. now rewrite IH.
Qed.

Lemma substring_tail (a b : string) (m : nat) :
  String.substring (String.length a) m (a +:+ b) = String.substring 0 m b.
Proof.
  induction a as [|c a IH]; [reflexivity|].
  change (String c a +:+ b) with (String c (a +:+ b)). simpl. exact IH.
Qed.

Lemma take_append (a b : string) : Py.take (Z.of_nat (String.length a)) (a +:+ b) = a.
Proof. unfold Py.take. rewrite Nat2Z.id. apply substring_head. Qed.

Lemma drop_append (a b : string) : Py.drop (Z.of_nat (String.length a)) (a +:+ b) = b.
Proof.
  unfold Py.drop. rewrite Nat2Z.id, substring_tail, length_append.
  replace (String.length a + String.length b - String.length a) with (String.length b) by lia.
  apply substring_whole.
Qed.

Lemma contains_append (c : ascii) (a b : string) :
  Py.contains c (a +:+ b) = Py.contains c a || Py.contains c b.
Proof.
  induction a as [|d a IH]; [reflexivity|].
  change (String d a +:+ b) with (String d (a +:+ b)). simpl.
  destruct (Ascii.eqb d c); [reflexivity|exact IH].
Qed.

Lemma rfind_from_absent (i : Z) (c : ascii) (s : string) :
  Py.contains c s = false -> Py.rfind_from i c s = (-1)%Z.
Proof.
  revert i. induction s as [|d s IH]; intros i; simpl; [reflexivity|].
  destruct (Ascii.eqb d c); [discriminate|]. intros H. rewrite (IH _ H). reflexivity.
Qed.

Lemma rfind_from_present (i : Z) (c : ascii) (s : string) :
  (0 <= i)%Z -> Py.contains c s = true -> (i <= Py.rfind_from i c s)%Z.
Proof.
  revert i. induction s as [|d s IH]; intros i Hi; simpl; [discriminate|].
  destruct (Py.contains c s) eqn:Hs.
  - intros _. specialize (IH (i + 1)%Z ltac:(lia) eq_refl).
    destruct (Z.leb_spec 0 (Py.rfind_from (i + 1) c s)); lia.
  - rewrite (rfind_from_absent _ _ _ Hs). simpl.
    destruct (Ascii.eqb d c); [lia|discriminate].
Qed.

Lemma rfind_from_append (i : Z) (c : ascii) (a b : string) :
  (0 <= i)%Z ->
  Py.rfind_from i c (a +:+ b)
  = if Py.contains c b then Py.rfind_from (i + Z.of_nat (String.length a)) c b
    else Py.rfind_from i c a.
Proof.
  revert i. induction a as [|d a IH]; intros i Hi.
  - change (EmptyString +:+ b) with b. simpl String.length. rewrite Z.add_0_r.
    destruct (Py.contains c b) eqn:Hb; [reflexivity|]. now apply rfind_from_absent.
  - change (String d a +:+ b) with (String d (a +:+ b)).
    cbn [Py.rfind_from String.length]. rewrite (IH (i + 1)%Z) by lia.
    replace (i + 1 + Z.of_nat (String.length a))%Z
      with (i + Z.of_nat (S (String.length a)))%Z by lia.
    destruct (Py.contains c b) eqn:Hb; [|reflexivity].
    pose proof (rfind_from_present (i + Z.of_nat (S (String.length a))) c b
                  ltac:(lia) Hb) as Hge.
    destruct (Z.leb_spec 0 (Py.rfind_from (i + Z.of_nat (S (String.length a))) c b));
      [reflexivity|lia].
Qed.

(** The last [c] of [a c b] is the one written out when [b] has none. *)
Lemma rfind_last (c : ascii) (a b : string) :
  Py.contains c b = false ->
  Py.rfind c (a +:+ String c b) = Z.of_nat (String.length a).
Proof.
  intros Hb. unfold Py.rfind. rewrite rfind_from_append by lia.
  cbn [Py.contains]. rewrite Ascii.eqb_refl. cbn [Py.rfind_from].
  rewrite (rfind_from_absent _ _ _ Hb). cbn. rewrite Ascii.eqb_refl. lia.
Qed.

Lemma splitext_jpg (d f : string) :
  Py.contains "/" f = false -> Py.all_char "." f = false ->
  OsPath.splitext (d +:+ "/" +:+ f +:+ ".jpg") = (d +:+ "/" +:+ f, ".jpg").
Proof.
  intros Hslash Hdots. unfold OsPath.splitext.
  assert (Hsep : Py.rfind "/" (d +:+ "/" +:+ f +:+ ".jpg") = Z.of_nat (String.length d)).
  { apply (rfind_last "/" d (f +:+ ".jpg")). rewrite contains_append, Hslash. reflexivity. }
  assert (Hp : d +:+ "/" +:+ f +:+ ".jpg" = (d +:+ "/" +:+ f) +:+ String "." "jpg")
    by (rewrite !append_assoc; reflexivity).
  assert (Hdot : Py.rfind "." (d +:+ "/" +:+ f +:+ ".jpg")
                 = Z.of_nat (String.length (d +:+ "/" +:+ f))).
  { rewrite Hp. apply rfind_last. reflexivity. }
  rewrite Hsep, Hdot.
  assert (Hlen : String.length (d +:+ "/" +:+ f) = String.length d + 1 + String.length f).
  { rewrite !length_append. simpl. lia. }
  assert (Hdrop : Py.drop (Z.of_nat (String.length d) + 1) (d +:+ "/" +:+ f +:+ ".jpg")
                  = f +:+ ".jpg").
  { replace (Z.of_nat (String.length d) + 1)%Z
      with (Z.of_nat (String.length (d +:+ "/"))) by (rewrite length_append; simpl; lia).
    rewrite <- (append_assoc d "/" (f +:+ ".jpg")). apply drop_append. }
  rewrite Hdrop.
  replace (Z.of_nat (String.length (d +:+ "/" +:+ f)) - (Z.of_nat (String.length d) + 1))%Z
    with (Z.of_nat (String.length f)) by lia.
  rewrite take_append, Hdots.
  destruct (Z.ltb_spec (Z.of_nat (String.length d))
                       (Z.of_nat (String.length (d +:+ "/" +:+ f)))) as [_|Hge]; [|lia].
  cbn [andb negb]. rewrite Hp, take_append, drop_append. reflexivity.
Qed.

Lemma safe_name_slash (s : string) :
  Py.contains "/" (Py.replace " " "_" (Py.lower s)) = Py.contains "/" s.
Proof.
  induction s as [|c s IH]; [reflexivity|]. simpl. rewrite IH.
  destruct c as [[] [] [] [] [] [] [] []]; reflexivity.
Qed.

Lemma safe_name_dots (s : string) :
  Py.all_char "." (Py.replace " " "_" (Py.lower s)) = Py.all_char "." s.
Proof.
  induction s as [|c s IH]; [reflexivity|]. simpl. rewrite IH.
  destruct c as [[] [] [] [] [] [] [] []]; reflexivity.
Qed.

Lemma startswith_char (c a : ascii) (s : string) :
  Py.startswith (String c s) (String a EmptyString) = Ascii.eqb a c.
Proof.
  unfold Py.startswith. cbn [String.prefix].
  destruct (ascii_dec a c) as [->|Hne].
  - rewrite Ascii.eqb_refl. destruct s; reflexivity.
  - symmetry. now apply Ascii.eqb_neq.
Qed.

Lemma no_leading_slash (f tail : string) :
  Py.contains "/" f = false -> Py.startswith tail "/" = false ->
  Py.startswith (f +:+ tail) "/" = false.
Proof.
  destruct f as [|c f]; [auto|].
  change (String c f +:+ tail) with (String c (f +:+ tail)).
  rewrite startswith_char. cbn [Py.contains]. intros Hc _.
  destruct (Ascii.eqb_spec c "/") as [->|Hne]; [discriminate|].
  apply Ascii.eqb_neq. congruence.
Qed.

Lemma endswith_append (a b : string) (c x : ascii) :
  Py.endswith (a +:+ String c b) x = Py.endswith (String c b) x.
Proof.
  induction a as [|d a IH]; [reflexivity|].
  change (String d a +:+ String c b) with (String d (a +:+ String c b)).
  rewrite <- IH. destruct a; reflexivity.
Qed.

Lemma download_dir_has_no_trailing_slash (source category : string) :
  Py.endswith category "/" = false ->
  Py.endswith ("/tmp/" +:+ source +:+ "_" +:+ category) "/" = false.
Proof.
  intros Hc. rewrite <- (append_assoc "/tmp/" source).
  change ("_" +:+ category) with (String "_" category).
  rewrite endswith_append. destruct category; [reflexivity|exact Hc].
Qed.

Lemma join_plain (a b : string) :
  Py.startswith b "/" = false -> Py.endswith ("/tmp/" +:+ a) "/" = false ->
  OsPath.join ("/tmp/" +:+ a) b = "/tmp/" +:+ a +:+ "/" +:+ b.
Proof.
  intros Hb Ha. unfold OsPath.join. rewrite Hb, Ha.
  change (String.eqb ("/tmp/" +:+ a) EmptyString) with false.
  cbn [orb]. rewrite !append_assoc. reflexivity.
Qed.

Lemma target_path_plain (r : DownloadRequest) :
  Py.contains "/" (name r) = false ->
  Py.endswith (category r) "/" = false ->
  target_path r
  = "/tmp/" +:+ source r +:+ "_" +:+ category r +:+ "/"
    +:+ Py.replace " " "_" (Py.lower (name r)) +:+ ".jpg".
Proof.
  intros Hslash Hcat. unfold target_path, source_type.
  rewrite join_plain.
  - rewrite !append_assoc. reflexivity.
  - apply no_leading_slash; [now rewrite safe_name_slash|reflexivity].
  - apply download_dir_has_no_trailing_slash, Hcat.
Qed.

Lemma final_target_path_plain (r : DownloadRequest) (ext : string) :
  Py.contains "/" (name r) = false ->
  Py.all_char "." (name r) = false ->
  Py.endswith (category r) "/" = false ->
  final_target_path r ext
  = "/tmp/" +:+ source r +:+ "_" +:+ category r +:+ "/"
    +:+ Py.replace " " "_" (Py.lower (name r)) +:+ ext.
Proof.
  intros Hslash Hdots Hcat.
  unfold final_target_path. rewrite (target_path_plain r Hslash Hcat).
  set (safe_name := Py.replace " " "_" (Py.lower (name r))).
  replace ("/tmp/" +:+ source r +:+ "_" +:+ category r +:+ "/" +:+ safe_name +:+ ".jpg")
    with (("/tmp/" +:+ source r +:+ "_" +:+ category r) +:+ "/" +:+ safe_name +:+ ".jpg")
    by (rewrite !append_assoc; reflexivity).
  rewrite splitext_jpg.
  - cbn [fst]. rewrite !append_assoc. reflexivity.
  - unfold safe_name. now rewrite safe_name_slash.
  - unfold safe_name. now rewrite safe_name_dots.
Qed.

(** X27.  For a request whose name has no slash and is not made of dots
    only, and whose category does not end in a slash, the target path is
    [/tmp/<source>_<category>/<safe name>.jpg] and the worker writes to
    the same path with [.jpg] replaced by the extension it derived, the
    safe name being the name in lower case with underscores for spaces. *)
Theorem image_is_written_under_the_safe_name (r : DownloadRequest) (ext : string) :
  Py.contains "/" (name r) = false ->
  Py.all_char "." (name r) = false ->
  Py.endswith (category r) "/" = false ->
  let safe_name := Py.replace " " "_" (Py.lower (name r)) in
  target_path r
  = "/tmp/" +:+ source r +:+ "_" +:+ category r +:+ "/" +:+ safe_name +:+ ".jpg"
  /\ final_target_path r ext
     = "/tmp/" +:+ source r +:+ "_" +:+ category r +:+ "/" +:+ safe_name +:+ ext.
Proof.
  intros Hslash Hdots Hcat safe_name. split.
  - apply target_path_plain; assumption.
  - apply final_target_path_plain; assumption.
Qed.

Lemma image_is_written_under_the_safe_name_witness :
  Py.contains "/" (name sea_lion) = false
  /\ Py.all_char "." (name sea_lion) = false
  /\ Py.endswith (category sea_lion) "/" = false
  /\ final_target_path sea_lion ".png" = "/tmp/wikipedia_animals/sea_lion.png".
Proof.
  do 3 (split; [reflexivity|]).
  rewrite (proj2 (image_is_written_under_the_safe_name sea_lion ".png"
                    eq_refl eq_refl eq_refl)).
  reflexivity.
Defined.

(** X28.  What the downloader wrote, the orchestrator finds: under the
    conditions of X27, once the file of a request exists with a size
    above zero and one of the extensions [.jpg], [.jpeg], [.png], [.gif],
    the item of that name counts as existing and is left out of the next
    plan. *)
Theorem written_image_is_found (fs : gmap string Z) (r : DownloadRequest)
        (ext : string) (size : Z) (url : option string) :
  Py.contains "/" (name r) = false ->
  Py.all_char "." (name r) = false ->
  Py.endswith (category r) "/" = false ->
  In ext possible_extensions ->
  fs !! final_target_path r ext = Some size ->
  (0 < size)%Z ->
  let item := {| item_name := Some (name r); item_image_url := url |} in
  image_exists fs ("/tmp/" +:+ source r +:+ "_" +:+ category r) item = true
  /\ _check_existing_images fs (source r) (category r) [item] = [].
Proof.
  intros Hslash Hdots Hcat Hext Hfile Hsize item.
  assert (Hprobe : image_exists fs ("/tmp/" +:+ source r +:+ "_" +:+ category r) item = true).
  { unfold image_exists. apply existsb_exists. exists ext. split; [exact Hext|].
    cbn [item item_name default from_option id].
    rewrite <- gallery_path_is_probe_path.
    rewrite <- (final_target_path_plain r ext Hslash Hdots Hcat).
    unfold nonempty_file. rewrite Hfile. now apply Z.ltb_lt. }
  split; [exact Hprobe|].
  unfold _check_existing_images. cbn [check_items]. rewrite Hprobe.
  destruct (no_url item); reflexivity.
Qed.

Lemma written_image_is_found_witness :
  In ".png" possible_extensions
  /\ ({[ "/tmp/wikipedia_animals/sea_lion.png" := 10%Z ]} : gmap string Z)
       !! final_target_path sea_lion ".png" = Some 10%Z
  /\ (0 < 10)%Z
  /\ image_exists {[ "/tmp/wikipedia_animals/sea_lion.png" := 10%Z ]}
       ("/tmp/" +:+ source sea_lion +:+ "_" +:+ category sea_lion)
       {| item_name := Some (name sea_lion); item_image_url := None |} = true.
Proof.
  assert (Hin : In ".png" possible_extensions) by (simpl; tauto).
  assert (Hfile : ({[ "/tmp/wikipedia_animals/sea_lion.png" := 10%Z ]} : gmap string Z)
                    !! final_target_path sea_lion ".png" = Some 10%Z)
    by (vm_compute; reflexivity).
  split; [exact Hin|]. split; [exact Hfile|]. split; [reflexivity|].
  apply (written_image_is_found _ sea_lion ".png" 10 None eq_refl eq_refl eq_refl Hin Hfile
           eq_refl).
Defined.

Lemma append_inv_head (a x y : string) : a +:+ x = a +:+ y -> x = y.
Proof.
  induction a as [|c a IH]; [auto|].
  change (String c (a +:+ x) = String c (a +:+ y) -> x = y).
  intros H. inversion H. auto.
Qed.

(** X29.  An image saved under another extension than the four is never
    recognised: under the conditions of X27, writing a request's file
    with an extension outside [.jpg], [.jpeg], [.png], [.gif] (say
    [.webp], from a content type [image/webp]) leaves the probe for that
    item as it was, so the item is planned for download again. *)
Theorem other_extension_is_not_found (fs : gmap string Z) (r : DownloadRequest)
        (ext : string) (size : Z) (url : option string) :
  Py.contains "/" (name r) = false ->
  Py.all_char "." (name r) = false ->
  Py.endswith (category r) "/" = false ->
  ~ In ext possible_extensions ->
  let item := {| item_name := Some (name r); item_image_url := url |} in
  image_exists (<[final_target_path r ext := size]> fs)
               ("/tmp/" +:+ source r +:+ "_" +:+ category r) item
  = image_exists fs ("/tmp/" +:+ source r +:+ "_" +:+ category r) item.
Proof.
  intros Hslash Hdots Hcat Hext item.
  unfold image_exists. cbn [item item_name default from_option id].
  rewrite (final_target_path_plain r ext Hslash Hdots Hcat).
  set (safe_name := Py.replace " " "_" (Py.lower (name r))).
  assert (Hsame : forall e, In e possible_extensions ->
            nonempty_file
              (<["/tmp/" +:+ source r +:+ "_" +:+ category r +:+ "/" +:+ safe_name +:+ ext
                 := size]> fs)
              (("/tmp/" +:+ source r +:+ "_" +:+ category r) +:+ "/" +:+ safe_name +:+ e)
            = nonempty_file fs
                (("/tmp/" +:+ source r +:+ "_" +:+ category r) +:+ "/" +:+ safe_name +:+ e)).
  { intros e He. unfold nonempty_file. rewrite lookup_insert_ne; [reflexivity|].
    rewrite <- gallery_path_is_probe_path.
    rewrite <- !(append_assoc "/tmp/"), <- !(append_assoc ("/tmp/" +:+ source r)).
    intros Heq. do 3 apply append_inv_head in Heq.
    change ("/" +:+ safe_name +:+ ext) with (String "/" (safe_name +:+ ext)) in Heq.
    change ("/" +:+ safe_name +:+ e) with (String "/" (safe_name +:+ e)) in Heq.
    inversion Heq as [Heq']. apply append_inv_head in Heq'. subst e. contradiction. }
  induction possible_extensions as [|e exts IH]; [reflexivity|].
  cbn [existsb]. rewrite Hsame by (now left). f_equal.
  apply IH.
  - intros Hin. apply Hext. now right.
  - intros e' He'. apply Hsame. now right.
Qed.

Lemma other_extension_is_not_found_witness :
  ~ In ".webp" possible_extensions
  /\ image_exists (<[final_target_path sea_lion ".webp" := 10%Z]> ∅)
                  ("/tmp/" +:+ source sea_lion +:+ "_" +:+ category sea_lion)
                  {| item_name := Some (name sea_lion); item_image_url := None |}
     = false.
Proof.
  assert (Hout : ~ In ".webp" possible_extensions).
  { simpl. intros [H|[H|[H|[H|[]]]]]; discriminate. }
  split; [exact Hout|].
  rewrite (other_extension_is_not_found ∅ sea_lion ".webp" 10 None eq_refl eq_refl eq_refl
             Hout).
  reflexivity.
Defined.

(** A string without a slash starts with no path that ends in one. *)
Lemma prefix_slash_needs_slash (t : string) : forall q,
  Py.contains "/" t = false -> String.prefix (q +:+ "/") t = false.
Proof.
  induction t as [|b t IH]; intros q Ht.
  - destruct q; reflexivity.
  - cbn [Py.contains] in Ht.
    destruct (Ascii.eqb_spec b "/") as [->|Hb]; [discriminate|].
    destruct q as [|a q].
    + change (EmptyString +:+ "/") with (String "/" EmptyString).
      cbn [String.prefix]. destruct (ascii_dec "/" b) as [E|_]; [congruence|reflexivity].
    + change (String a q +:+ "/") with (String a (q +:+ "/")).
      cbn [String.prefix]. destruct (ascii_dec a b); [apply IH, Ht|reflexivity].
Qed.

(** Whether a path lies under a directory does not depend on an ending
    without a slash. *)
Lemma prefix_slash_before_ending (t : string) :
  Py.contains "/" t = false ->
  forall s q, String.prefix (q +:+ "/") (s +:+ t) = String.prefix (q +:+ "/") s.
Proof.
  intros Ht. induction s as [|b s IH]; intros q.
  - change (EmptyString +:+ t) with t. rewrite (prefix_slash_needs_slash t q Ht).
    destruct q; reflexivity.
  - change (String b s +:+ t) with (String b (s +:+ t)).
    destruct q as [|a q].
    + change (EmptyString +:+ "/") with (String "/" EmptyString).
      cbn [String.prefix]. destruct (ascii_dec "/" b); [|reflexivity].
      destruct (s +:+ t), s; reflexivity.
    + change (String a q +:+ "/") with (String a (q +:+ "/")).
      cbn [String.prefix]. destruct (ascii_dec a b); [apply IH|reflexivity].
Qed.

(** X30.  For a name that starts with a slash [os.path.join] drops the
    download directory: the target path is the safe name itself with
    [.jpg], so it is the same for every source and category, and it lies
    under [/tmp/<source>_<category>/] exactly when the safe name itself
    starts with that directory. *)
Theorem leading_slash_leaves_download_dir (r : DownloadRequest) :
  Py.startswith (name r) "/" = true ->
  let safe_name := Py.replace " " "_" (Py.lower (name r)) in
  let download_dir := "/tmp/" +:+ source r +:+ "_" +:+ category r in
  target_path r = safe_name +:+ ".jpg"
  /\ (forall r', name r' = name r -> target_path r' = target_path r)
  /\ Py.startswith (target_path r) (download_dir +:+ "/")
     = Py.startswith safe_name (download_dir +:+ "/").
Proof.
  intros Hname safe_name download_dir.
  assert (Hpath : forall r', name r' = name r -> target_path r' = safe_name +:+ ".jpg").
  { intros r' Hsame. apply startswith_one in Hname as [rest Hrest].
    unfold safe_name, target_path, OsPath.join. rewrite Hsame, Hrest.
    change (Py.replace " " "_" (Py.lower (String "/" rest)))
      with (String "/" (Py.replace " " "_" (Py.lower rest))).
    change (String "/" (Py.replace " " "_" (Py.lower rest)) +:+ ".jpg")
      with (String "/" (Py.replace " " "_" (Py.lower rest) +:+ ".jpg")).
    rewrite startswith_char. reflexivity. }
  split; [apply Hpath; reflexivity|]. split.
  - intros r' Hsame. rewrite (Hpath r' Hsame), (Hpath r eq_refl). reflexivity.
  - rewrite (Hpath r eq_refl). unfold Py.startswith.
    apply prefix_slash_before_ending. reflexivity.
Qed.

Lemma leading_slash_leaves_download_dir_witness :
  Py.startswith "/etc/Cron Job" "/" = true
  /\ target_path {| image_url := "https://example.com/a.png"; name := "/etc/Cron Job";
                    source := "wikipedia"; category := "animals" |}
     = "/etc/cron_job.jpg"
  /\ Py.startswith
       (target_path {| image_url := "https://example.com/a.png"; name := "/etc/Cron Job";
                       source := "wikipedia"; category := "animals" |})
       "/tmp/wikipedia_animals/" = false.
Proof.
  split; [reflexivity|].
  destruct (leading_slash_leaves_download_dir
              {| image_url := "https://example.com/a.png"; name := "/etc/Cron Job";
                 source := "wikipedia"; category := "animals" |} eq_refl)
    as (Hpath & _ & Hunder).
  split; [rewrite Hpath; reflexivity|].
  etransitivity; [exact Hunder|reflexivity].
Defined.

(** A name that spells out the download directory stays in it. *)
Example leading_slash_inside_download_dir :
  target_path {| image_url := "https://example.com/a.png";
                 name := "/tmp/wikipedia_animals/Lion";
                 source := "wikipedia"; category := "animals" |}
  = "/tmp/wikipedia_animals/lion.jpg".
Proof. reflexivity. Qed.
